(** * Worker proxy: connection state machine, channel and worker-side protocol

    A shallow embedding of [src/protocol.ts] (the worker side, [connectWorker])
    and of [workers.ts] (the caller side: [LazyRefCountedWorker],
    [LazyWorkerProxy], [WorkerConnection]).

    Promises, abort controllers, connections and forwarding closures are heap
    objects; they are modelled as entries of growing lists in a [World] and
    are named by their index.  The callbacks of a promise are defunctionalised:
    a pending entry of a connection records who waits for it.  One [Event] is
    one task of the JavaScript event loop (a call of the public interface or a
    worker event) together with the promise reactions it triggers.

    The worker factory given to [refCountedWorker] and [Worker.postMessage]
    are taken not to throw; a worker is known by the rank of the factory call
    that made it, and what it does is seen through the events
    [WorkerMessage] and [WorkerError] only. *)

From Stdlib Require Import ZArith Lia.
From stdpp Require Import base option list strings gmap.

Local Open Scope string_scope.
Local Open Scope list_scope.
Local Open Scope stdpp_scope.

(** ** Payloads and wire messages *)

(** Arguments, results and errors are opaque payloads ([unknown] in the
    source); the library only ever builds [undefined], the abort reason and
    one protocol error itself. *)
Inductive Value :=
| VUndefined
| VNumber (n : Z)
| VString (s : string)
| VAbortError                 (* DOMException: signal is aborted without reason *)
| VError (message : string).  (* Error / ErrorEvent *)

Global Instance Value_eq_dec : EqDecision Value.
Proof. solve_decision. Defined.

(** [WorkerCall | WorkerCallSuccess | WorkerCallError], discriminated by the
    [type] field.  [Unknown] stands for an envelope with any other [type]:
    both sides cast [e.data] without validating it. *)
Inductive Message :=
| Call (id : nat) (method : string) (args : list Value)
| Success (id : nat) (result : Value)
| Error (id : nat) (error : Value)
| Unknown (type : string) (id : nat).

Definition msg_id (m : Message) : nat :=
  match m with
  | Call id _ _ | Success id _ | Error id _ | Unknown _ id => id
  end.

Definition msg_type (m : Message) : string :=
  match m with
  | Call _ _ _ => "call"
  | Success _ _ => "success"
  | Error _ _ => "error"
  | Unknown type _ => type
  end.

(** ** Worker side: [connectWorker] (src/protocol.ts) *)

Section ConnectWorker.
(** The connected class: [new factory(...args)] either yields an instance
    or throws; [await handler[method](...args)] yields a result or throws,
    and may change the instance. *)
Variable Handler : Type.
Variable factory : list Value -> Handler + Value.
Variable invoke : Handler -> string -> list Value -> Handler * (Value + Value).

Definition notInitialized : Value :=
  VError "Cannot call worker method without initializing it first".

(** One run of the [onmessage] handler: the new [handler] variable and the
    messages given to [postMessage]. *)
Definition onmessage (handler : option Handler) (message : Message)
  : option Handler * list Message :=
  match message with
  | Call id method args =>
      match handler with
      | Some h =>
          match invoke h method args with
          | (h', inl result) => (Some h', [Success id result])
          | (h', inr err) => (Some h', [Error id err])
          end
      | None =>
          if String.eqb method "constructor" then
            match factory args with
            | inl h => (Some h, [Success id VUndefined])
            | inr err => (None, [Error id err])
            end
          else (None, [Error id notInitialized])
      end
  | _ => (handler, [])
  end.

(** The worker from its start ([handler] unset) over a sequence of
    incoming messages. *)
Fixpoint worker_run (handler : option Handler) (ms : list Message)
  : option Handler * list Message :=
  match ms with
  | [] => (handler, [])
  | m :: ms' =>
      let '(h1, out1) := onmessage handler m in
      let '(h2, out2) := worker_run h1 ms' in
      (h2, out1 ++ out2)
  end.

(** A ["constructor"] call whose construction does not throw. *)
Definition successful_constructor (m : Message) : bool :=
  match m with
  | Call _ method args =>
      String.eqb method "constructor" &&
      match factory args with inl _ => true | inr _ => false end
  | _ => false
  end.
End ConnectWorker.

Arguments onmessage {Handler} factory invoke handler message.
Arguments worker_run {Handler} factory invoke handler ms.
Arguments successful_constructor {Handler} factory m.

(** ** Caller side: the heap *)

(** The two callbacks [{resolve, reject}] that [WorkerConnection.call] stores,
    named by the code that awaits the promise: the [connect()] activation
    awaiting its ["constructor"] call, or a forwarding call returned to the
    consumer. *)
Inductive WorkerRequest :=
| ConnectAwait (task : nat)
| MethodAwait (call : nat).

Global Instance WorkerRequest_eq_dec : EqDecision WorkerRequest.
Proof. solve_decision. Defined.

Inductive Outcome :=
| Fulfilled (v : Value)
| Rejected (e : Value).

(** [WorkerConnection]: [requests] is a JS [Map] (insertion ordered, unique
    keys); [attached] says that the message and error listeners are attached
    and the worker not terminated; [posted] are the messages handed to
    [worker.postMessage], oldest first. *)
Record WorkerConnection := {
  worker : nat;
  requests : list (nat * WorkerRequest);
  nextCallId : nat;
  attached : bool;
  posted : list Message;
}.

(** The promise [request] made by [makeBlockedState]. *)
Inductive RequestStatus :=
| RequestPending
| RequestFulfilled (connection controller : nat)
| RequestRejected (e : Value).

(** What [tryConnect] returns: the shared promise [request], or a promise
    already resolved with [[connection, controller.signal]]. *)
Inductive ConnectionForCall :=
| AwaitRequest (request : nat)
| Immediate (connection controller : nat).

(** The promise returned by a forwarding function. *)
Inductive CallStatus :=
| AwaitingConnection (target : ConnectionForCall)  (* in [await this.tryConnect()] *)
| InFlight (connection id : nat)       (* follows the promise of [connection.call] *)
| Settled (o : Outcome).

Record MethodCall := {
  methodName : string;
  args : list Value;
  status : CallStatus;
}.

(** One activation of the async function [connect] that got as far as
    building its connection, and the state of the promise it returned. *)
Inductive TaskStatus :=
| TaskPending
| TaskFulfilled
| TaskRejected (e : Value).

Record ConnectTask := {
  task_request : nat;
  task_controller : nat;
  rawConnection : nat;
  task_status : TaskStatus;
}.

Inductive ConnectionState :=
| Disconnected
| Blocked (request controller : nat)
| Ready (request controller : nat)
| Connecting (request controller : nat)
| Connected (connection controller : nat).

(** The [type] field of a state. *)
Definition state_type (s : ConnectionState) : string :=
  match s with
  | Disconnected => "disconnected"
  | Blocked _ _ => "blocked"
  | Ready _ _ => "ready"
  | Connecting _ _ => "connecting"
  | Connected _ _ => "connected"
  end.

Record LazyWorkerProxy := {
  connectionState : ConnectionState;
  methods : gmap string nat;
  proxy : nat;
  constructorArgs : list Value;
}.

(** The fields of the [LazyRefCountedWorker] and the heap it works on. *)
Record World := {
  _workerArguments : list Value;
  _instance : option LazyWorkerProxy;
  _refCount : Z;
  promises : list RequestStatus;
  controllers : list bool;             (* AbortController: signal.aborted *)
  connections : list WorkerConnection;
  tasks : list ConnectTask;
  calls : list MethodCall;
  functions : list string;             (* forwarding closures, by method name *)
  workers : nat;                       (* calls of the worker factory so far *)
  proxies : nat;                       (* Proxy objects created so far *)
  warnings : list string;              (* console.warn *)
}.

Definition refCountedWorker (constructorArgs : list Value) : World :=
  {| _workerArguments := constructorArgs; _instance := None; _refCount := 0;
     promises := []; controllers := []; connections := []; tasks := [];
     calls := []; functions := []; workers := 0; proxies := 0;
     warnings := [] |}.

(** Field updates. *)
Definition set_instance (p : LazyWorkerProxy) (w : World) : World :=
  {| _workerArguments := _workerArguments w; _instance := Some p;
     _refCount := _refCount w; promises := promises w;
     controllers := controllers w; connections := connections w;
     tasks := tasks w; calls := calls w; functions := functions w;
     workers := workers w; proxies := proxies w; warnings := warnings w |}.

Definition set_refCount (n : Z) (w : World) : World :=
  {| _workerArguments := _workerArguments w; _instance := _instance w;
     _refCount := n; promises := promises w;
     controllers := controllers w; connections := connections w;
     tasks := tasks w; calls := calls w; functions := functions w;
     workers := workers w; proxies := proxies w; warnings := warnings w |}.

Definition set_promises (l : list RequestStatus) (w : World) : World :=
  {| _workerArguments := _workerArguments w; _instance := _instance w;
     _refCount := _refCount w; promises := l;
     controllers := controllers w; connections := connections w;
     tasks := tasks w; calls := calls w; functions := functions w;
     workers := workers w; proxies := proxies w; warnings := warnings w |}.

Definition set_controllers (l : list bool) (w : World) : World :=
  {| _workerArguments := _workerArguments w; _instance := _instance w;
     _refCount := _refCount w; promises := promises w;
     controllers := l; connections := connections w;
     tasks := tasks w; calls := calls w; functions := functions w;
     workers := workers w; proxies := proxies w; warnings := warnings w |}.

Definition set_connections (l : list WorkerConnection) (w : World) : World :=
  {| _workerArguments := _workerArguments w; _instance := _instance w;
     _refCount := _refCount w; promises := promises w;
     controllers := controllers w; connections := l;
     tasks := tasks w; calls := calls w; functions := functions w;
     workers := workers w; proxies := proxies w; warnings := warnings w |}.

Definition set_tasks (l : list ConnectTask) (w : World) : World :=
  {| _workerArguments := _workerArguments w; _instance := _instance w;
     _refCount := _refCount w; promises := promises w;
     controllers := controllers w; connections := connections w;
     tasks := l; calls := calls w; functions := functions w;
     workers := workers w; proxies := proxies w; warnings := warnings w |}.

Definition set_calls (l : list MethodCall) (w : World) : World :=
  {| _workerArguments := _workerArguments w; _instance := _instance w;
     _refCount := _refCount w; promises := promises w;
     controllers := controllers w; connections := connections w;
     tasks := tasks w; calls := l; functions := functions w;
     workers := workers w; proxies := proxies w; warnings := warnings w |}.

Definition set_functions (l : list string) (w : World) : World :=
  {| _workerArguments := _workerArguments w; _instance := _instance w;
     _refCount := _refCount w; promises := promises w;
     controllers := controllers w; connections := connections w;
     tasks := tasks w; calls := calls w; functions := l;
     workers := workers w; proxies := proxies w; warnings := warnings w |}.

Definition set_workers (n : nat) (w : World) : World :=
  {| _workerArguments := _workerArguments w; _instance := _instance w;
     _refCount := _refCount w; promises := promises w;
     controllers := controllers w; connections := connections w;
     tasks := tasks w; calls := calls w; functions := functions w;
     workers := n; proxies := proxies w; warnings := warnings w |}.

Definition set_proxies (n : nat) (w : World) : World :=
  {| _workerArguments := _workerArguments w; _instance := _instance w;
     _refCount := _refCount w; promises := promises w;
     controllers := controllers w; connections := connections w;
     tasks := tasks w; calls := calls w; functions := functions w;
     workers := workers w; proxies := n; warnings := warnings w |}.

Definition set_warnings (l : list string) (w : World) : World :=
  {| _workerArguments := _workerArguments w; _instance := _instance w;
     _refCount := _refCount w; promises := promises w;
     controllers := controllers w; connections := connections w;
     tasks := tasks w; calls := calls w; functions := functions w;
     workers := workers w; proxies := proxies w; warnings := l |}.

Definition set_status (s : CallStatus) (m : MethodCall) : MethodCall :=
  {| methodName := methodName m; args := args m; status := s |}.

Definition set_task_status (s : TaskStatus) (t : ConnectTask) : ConnectTask :=
  {| task_request := task_request t; task_controller := task_controller t;
     rawConnection := rawConnection t; task_status := s |}.

(** ** A JS [Map<number, V>] as an insertion-ordered association list *)

Fixpoint map_get {V} (k : nat) (m : list (nat * V)) : option V :=
  match m with
  | [] => None
  | (k', v) :: m' => if Nat.eqb k' k then Some v else map_get k m'
  end.

Fixpoint map_set {V} (k : nat) (v : V) (m : list (nat * V)) : list (nat * V) :=
  match m with
  | [] => [(k, v)]
  | (k', v') :: m' =>
      if Nat.eqb k' k then (k, v) :: m' else (k', v') :: map_set k v m'
  end.

Fixpoint map_delete {V} (k : nat) (m : list (nat * V)) : list (nat * V) :=
  match m with
  | [] => []
  | (k', v) :: m' =>
      if Nat.eqb k' k then map_delete k m' else (k', v) :: map_delete k m'
  end.

(** ** [WorkerConnection] *)

(** [new WorkerConnection(worker)]. *)
Definition newWorkerConnection (worker : nat) : WorkerConnection :=
  {| worker := worker; requests := []; nextCallId := 1; attached := true;
     posted := [] |}.

(** [call(method, args, options)]: the [options] (the abort signal) are not
    read by the body.  [waiter] names the code that awaits the returned
    promise; the result is the id of the call. *)
Definition call (c : WorkerConnection) (method : string) (args : list Value)
    (waiter : WorkerRequest) : nat * WorkerConnection :=
  let id := nextCallId c in
  (id, {| worker := worker c;
          requests := map_set id waiter (requests c);
          nextCallId := S id;
          attached := attached c;
          posted := posted c ++ [Call id method args] |}).

(** [onMessage]: the connection afterwards, the callbacks invoked and the
    warnings logged. *)
Definition onMessage (c : WorkerConnection) (message : Message)
  : WorkerConnection * list (WorkerRequest * Outcome) * list string :=
  match map_get (msg_id message) (requests c) with
  | Some request =>
      let c' := {| worker := worker c;
                   requests := map_delete (msg_id message) (requests c);
                   nextCallId := nextCallId c;
                   attached := attached c;
                   posted := posted c |} in
      match message with
      | Success _ result => (c', [(request, Fulfilled result)], [])
      | Error _ error => (c', [(request, Rejected error)], [])
      | _ => (c', [],
              [String.append "Unexpected worker response type: "
                             (msg_type message)])
      end
  | None => (c, [], [])
  end.

(** [onError]. *)
Definition onError (c : WorkerConnection) (e : Value)
  : WorkerConnection * list (WorkerRequest * Outcome) :=
  let activeRequests := map snd (requests c) in
  ({| worker := worker c; requests := []; nextCallId := nextCallId c;
      attached := attached c; posted := posted c |},
   map (fun request => (request, Rejected e)) activeRequests).

(** [dispose()]. *)
Definition dispose (c : WorkerConnection) : WorkerConnection :=
  {| worker := worker c; requests := requests c; nextCallId := nextCallId c;
     attached := false; posted := posted c |}.

(** ** [LazyWorkerProxy] *)

(** [new LazyWorkerProxy(workerFactory, constructorArgs)]; [proxy] is the
    identity of the [Proxy] object it creates. *)
Definition newLazyWorkerProxy (proxy : nat) (constructorArgs : list Value)
  : LazyWorkerProxy :=
  {| connectionState := Disconnected; methods := ∅; proxy := proxy;
     constructorArgs := constructorArgs |}.

(** [this.connectionState] of the one [LazyWorkerProxy] of the world. *)
Definition the_state (w : World) : ConnectionState :=
  match _instance w with
  | Some p => connectionState p
  | None => Disconnected
  end.

Definition set_state (s : ConnectionState) (w : World) : World :=
  match _instance w with
  | Some p =>
      set_instance {| connectionState := s; methods := methods p;
                      proxy := proxy p;
                      constructorArgs := constructorArgs p |} w
  | None => w
  end.

(** [controller.signal.aborted] and [controller.abort()]. *)
Definition is_aborted (controller : nat) (w : World) : bool :=
  default false (controllers w !! controller).

Definition abort (controller : nat) (w : World) : World :=
  set_controllers (<[controller := true]> (controllers w)) w.

(** [makeBlockedState()]: a fresh pending [request] and a fresh
    [AbortController]. *)
Definition makeBlockedState (w : World) : nat * nat * World :=
  let request := length (promises w) in
  let controller := length (controllers w) in
  (request, controller,
   set_promises (promises w ++ [RequestPending])
     (set_controllers (controllers w ++ [false]) w)).

(** The rest of a forwarding function after [await this.tryConnect()]:
    [return connection.call(methodName, args, {signal})]. *)
Definition forward (i connection : nat) (w : World) : World :=
  match calls w !! i, connections w !! connection with
  | Some m, Some c =>
      let '(id, c') := call c (methodName m) (args m) (MethodAwait i) in
      set_calls (<[i := set_status (InFlight connection id) m]> (calls w))
        (set_connections (<[connection := c']> (connections w)) w)
  | _, _ => w
  end.

(** The reaction of forwarding call [i] to the settlement [st] of
    [request], if that is the promise it awaits. *)
Definition resumeCall (request : nat) (st : RequestStatus) (w : World)
    (i : nat) : World :=
  match calls w !! i with
  | Some m =>
      match status m with
      | AwaitingConnection (AwaitRequest r) =>
          if Nat.eqb r request then
            match st with
            | RequestPending => w
            | RequestFulfilled connection _ => forward i connection w
            | RequestRejected e =>
                set_calls
                  (<[i := set_status (Settled (Rejected e)) m]> (calls w)) w
            end
          else w
      | _ => w
      end
  | None => w
  end.

(** [resolve(...)] / [reject(...)] of a [request]: only the first settlement
    counts; the awaiting forwarding calls resume in the order of their
    invocation. *)
Definition settleRequest (request : nat) (st : RequestStatus) (w : World)
  : World :=
  match promises w !! request with
  | Some RequestPending =>
      foldl (resumeCall request st)
        (set_promises (<[request := st]> (promises w)) w)
        (seq 0 (length (calls w)))
  | _ => w
  end.

(** [connect(state)] up to its [await]: when the signal is already aborted
    the returned promise rejects at once, whose only reaction is
    [reject(err)]; otherwise a worker is made by the factory, a
    [WorkerConnection] built on it and the ["constructor"] call sent. *)
Definition connect (request controller : nat) (w : World) : World :=
  if is_aborted controller w then
    settleRequest request (RequestRejected VAbortError) w
  else
    let args := match _instance w with
                | Some p => constructorArgs p
                | None => []
                end in
    let rawConnection := length (connections w) in
    let task := length (tasks w) in
    let '(_, c) := call (newWorkerConnection (workers w)) "constructor" args
                     (ConnectAwait task) in
    set_tasks (tasks w ++ [{| task_request := request;
                              task_controller := controller;
                              rawConnection := rawConnection;
                              task_status := TaskPending |}])
      (set_connections (connections w ++ [c])
         (set_workers (S (workers w)) w)).

Definition disposeConnection (connection : nat) (w : World) : World :=
  match connections w !! connection with
  | Some c => set_connections (<[connection := dispose c]> (connections w)) w
  | None => w
  end.

Definition setTaskStatus (t : nat) (s : TaskStatus) (w : World) : World :=
  match tasks w !! t with
  | Some task => set_tasks (<[t := set_task_status s task]> (tasks w)) w
  | None => w
  end.

(** [connect(state)] after its [await], followed by the reactions that
    [tryConnect] attached with [.then(...)]. *)
Definition connectResumed (t : nat) (o : Outcome) (w : World) : World :=
  match tasks w !! t with
  | Some task =>
      match o with
      | Fulfilled _ =>
          if is_aborted (task_controller task) w then
            settleRequest (task_request task) (RequestRejected VAbortError)
              (setTaskStatus t (TaskRejected VAbortError)
                 (disposeConnection (rawConnection task) w))
          else
            settleRequest (task_request task)
              (RequestFulfilled (rawConnection task) (task_controller task))
              (set_state (Connected (rawConnection task) (task_controller task))
                 (setTaskStatus t TaskFulfilled w))
      | Rejected e =>
          settleRequest (task_request task) (RequestRejected e)
            (setTaskStatus t (TaskRejected e) w)
      end
  | None => w
  end.

(** [tryConnect()]. *)
Definition tryConnect (w : World) : ConnectionForCall * World :=
  match the_state w with
  | Disconnected =>
      let '(request, controller, w) := makeBlockedState w in
      (AwaitRequest request, set_state (Blocked request controller) w)
  | Blocked request _ => (AwaitRequest request, w)
  | Ready request controller =>
      (AwaitRequest request,
       set_state (Connecting request controller) (connect request controller w))
  | Connecting request _ => (AwaitRequest request, w)
  | Connected connection controller => (Immediate connection controller, w)
  end.

(** [ready()]. *)
Definition ready (w : World) : World :=
  match the_state w with
  | Disconnected =>
      let '(request, controller, w) := makeBlockedState w in
      set_state (Ready request controller) w
  | Blocked request controller =>
      (tryConnect (set_state (Ready request controller) w)).2
  | _ => w
  end.

(** [disconnect()]. *)
Definition disconnect (w : World) : World :=
  match the_state w with
  | Disconnected => w
  | Blocked _ controller | Ready _ controller | Connecting _ controller =>
      set_state Disconnected (abort controller w)
  | Connected connection controller =>
      set_state Disconnected
        (disposeConnection connection (abort controller w))
  end.

(** [getMethod(methodName)]: the [methods] map is read and never written, so
    a closure is made on every miss. *)
Definition getMethod (methodName : string) (w : World) : option nat * World :=
  match _instance w with
  | Some p =>
      match methods p !! methodName with
      | Some method => (Some method, w)
      | None =>
          (Some (length (functions w)),
           set_functions (functions w ++ [methodName]) w)
      end
  | None => (None, w)
  end.

(** A call [method(...args)] of a forwarding closure: [tryConnect] runs at
    once; the promise returned to the consumer is call number
    [length (calls w)].  When the awaited promise is already settled the
    call resumes in the same task. *)
Definition forwardingCall (methodName : string) (args : list Value)
    (w : World) : nat * World :=
  let i := length (calls w) in
  let '(target, w) := tryConnect w in
  let w := set_calls (calls w ++ [{| methodName := methodName; args := args;
                                     status := AwaitingConnection target |}])
             w in
  (i, match target with
      | AwaitRequest request =>
          match promises w !! request with
          | Some st => resumeCall request st w i
          | None => w
          end
      | Immediate connection _ => forward i connection w
      end).

(** ** [LazyRefCountedWorker] *)

Definition ensureInstance (w : World) : LazyWorkerProxy * World :=
  match _instance w with
  | Some p => (p, w)
  | None =>
      let p := newLazyWorkerProxy (proxies w) (_workerArguments w) in
      (p, set_instance p (set_proxies (S (proxies w)) w))
  end.

Definition getState (w : World) : string :=
  match _instance w with
  | Some p => state_type (connectionState p)
  | None => "disconnected"
  end.

Definition getProxy (w : World) : nat * World :=
  let '(instance, w) := ensureInstance w in
  (proxy instance, w).

Definition acquire (w : World) : nat * World :=
  let '(instance, w) := ensureInstance w in
  let w := set_refCount (_refCount w + 1) w in
  let w := if (0 <? _refCount w)%Z then ready w else w in
  (proxy instance, w).

Definition release (w : World) : World :=
  match _instance w with
  | Some _ =>
      let w := set_refCount (_refCount w - 1) w in
      if (_refCount w <=? 0)%Z then disconnect w else w
  | None => w
  end.

(** ** Events *)

Definition settle (w : World) (s : WorkerRequest * Outcome) : World :=
  match s.1 with
  | ConnectAwait t => connectResumed t s.2 w
  | MethodAwait i =>
      match calls w !! i with
      | Some m =>
          match status m with
          | InFlight _ _ =>
              set_calls (<[i := set_status (Settled s.2) m]> (calls w)) w
          | _ => w
          end
      | None => w
      end
  end.

(** A [message] event of the worker of [connection]. *)
Definition workerMessage (connection : nat) (message : Message) (w : World)
  : World :=
  match connections w !! connection with
  | Some c =>
      if attached c then
        let '(c', settled, warned) := onMessage c message in
        foldl settle
          (set_warnings (warnings w ++ warned)
             (set_connections (<[connection := c']> (connections w)) w))
          settled
      else w
  | None => w
  end.

(** An [error] event of the worker of [connection]. *)
Definition workerError (connection : nat) (e : Value) (w : World) : World :=
  match connections w !! connection with
  | Some c =>
      if attached c then
        let '(c', settled) := onError c e in
        foldl settle
          (set_connections (<[connection := c']> (connections w)) w) settled
      else w
  | None => w
  end.

Inductive Event :=
| GetState
| GetProxy
| Acquire
| Release
| Get (property : string)                       (* proxy[property] *)
| Apply (function : nat) (args : list Value)    (* f(...args) *)
| Invoke (method : string) (args : list Value)  (* proxy.method(...args) *)
| WorkerMessage (connection : nat) (message : Message)
| WorkerError (connection : nat) (e : Value).

Inductive Output :=
| ONone
| OState (s : string)
| OProxy (p : nat)
| OFunction (f : nat)
| OPromise (call : nat).

(** The consumer holds the proxy only once an instance exists; a forwarding
    closure only once [Get] returned it. *)
Definition step (e : Event) (w : World) : Output * World :=
  match e with
  | GetState => (OState (getState w), w)
  | GetProxy => let '(p, w) := getProxy w in (OProxy p, w)
  | Acquire => let '(p, w) := acquire w in (OProxy p, w)
  | Release => (ONone, release w)
  | Get property =>
      match getMethod property w with
      | (Some f, w) => (OFunction f, w)
      | (None, w) => (ONone, w)
      end
  | Apply f args =>
      match _instance w, functions w !! f with
      | Some _, Some methodName =>
          let '(i, w) := forwardingCall methodName args w in (OPromise i, w)
      | _, _ => (ONone, w)
      end
  | Invoke method args =>
      match getMethod method w with
      | (Some f, w) =>
          let '(i, w) := forwardingCall method args w in (OPromise i, w)
      | (None, w) => (ONone, w)
      end
  | WorkerMessage connection message =>
      (ONone, workerMessage connection message w)
  | WorkerError connection e => (ONone, workerError connection e w)
  end.

Definition run (es : list Event) (w : World) : World :=
  foldl (fun w e => (step e w).2) w es.

Fixpoint outputs (es : list Event) (w : World) : list Output :=
  match es with
  | [] => []
  | e :: es' => (step e w).1 :: outputs es' (step e w).2
  end.

Definition call_status (i : nat) (w : World) : option CallStatus :=
  status <$> calls w !! i.

(** ** Construction and the invariants of reachable worlds *)

Definition state_controller (s : ConnectionState) : option nat :=
  match s with
  | Disconnected => None
  | Blocked _ k | Ready _ k | Connecting _ k | Connected _ k => Some k
  end.

Definition is_fulfilled (s : TaskStatus) : bool :=
  match s with TaskFulfilled => true | _ => false end.

(** Construction has completed for the current attempt: the [connect()]
    that ran under the abort controller of the current state has returned. *)
Definition constructionCompleted (w : World) : bool :=
  match state_controller (the_state w) with
  | Some k =>
      existsb (fun task => Nat.eqb (task_controller task) k
                           && is_fulfilled (task_status task)) (tasks w)
  | None => false
  end.

(** The handle and its instance. *)
Definition handle_ok (w : World) : Prop :=
  match _instance w with
  | None => proxies w = 0
  | Some p => methods p = ∅ ∧ proxy p = 0 ∧ proxies w = 1
              ∧ constructorArgs p = _workerArguments w
  end.

(** The reference count decides on which side of [ready()] the state is. *)
Definition count_ok (w : World) : Prop :=
  (_instance w = None → _refCount w = 0%Z)
  ∧ match the_state w with
    | Disconnected | Blocked _ _ => (_refCount w <= 0)%Z
    | Ready _ _ | Connecting _ _ | Connected _ _ => (0 < _refCount w)%Z
    end.

(** The objects the current state refers to. *)
Definition state_ok (w : World) : Prop :=
  match the_state w with
  | Disconnected => True
  | Blocked r k | Ready r k =>
      promises w !! r = Some RequestPending
      ∧ controllers w !! k = Some false
      ∧ ∀ t task, tasks w !! t = Some task →
                  task_request task ≠ r ∧ task_controller task ≠ k
  | Connecting r k => controllers w !! k = Some false
  | Connected c k =>
      controllers w !! k = Some false
      ∧ (∃ task, tasks w !! c = Some task ∧ task_controller task = k
                 ∧ task_status task = TaskFulfilled)
      ∧ (∃ conn, connections w !! c = Some conn ∧ attached conn = true)
  end.

(** A [connect()] whose controller is not aborted belongs to the current
    state. *)
Definition task_ok (w : World) (t : nat) (task : ConnectTask) : Prop :=
  rawConnection task = t
  ∧ task_request task < length (promises w)
  ∧ task_controller task < length (controllers w)
  ∧ (is_aborted (task_controller task) w = false →
     (the_state w = Connecting (task_request task) (task_controller task)
      ∧ task_status task ≠ TaskFulfilled)
     ∨ (the_state w = Connected t (task_controller task)
        ∧ task_status task = TaskFulfilled)).

Definition tasks_ok (w : World) : Prop :=
  length (tasks w) = length (connections w)
  ∧ (∀ t task, tasks w !! t = Some task → task_ok w t task)
  ∧ (∀ t t' task task',
       tasks w !! t = Some task → tasks w !! t' = Some task' →
       task_controller task = task_controller task' → t = t').

(** A pending entry [(id, r)] of connection [j]. *)
Definition entry_ok (w : World) (j id : nat) (r : WorkerRequest) : Prop :=
  match r with
  | MethodAwait i => call_status i w = Some (InFlight j id)
  | ConnectAwait t =>
      t = j ∧ id = 1
      ∧ ∃ task, tasks w !! t = Some task ∧ task_status task ≠ TaskFulfilled
  end.

Definition connection_ok (w : World) (j : nat) (c : WorkerConnection) : Prop :=
  worker c = j
  ∧ (∃ rest, posted c = Call 1 "constructor" (_workerArguments w) :: rest)
  ∧ ∀ id r, (id, r) ∈ requests c → entry_ok w j id r.

Definition connections_ok (w : World) : Prop :=
  workers w = length (connections w)
  ∧ ∀ j c, connections w !! j = Some c → connection_ok w j c.

(** The part of the invariant that does not read the reference count. *)
Record Core (w : World) : Prop := {
  core_handle : handle_ok w;
  core_state : state_ok w;
  core_tasks : tasks_ok w;
  core_connections : connections_ok w;
}.

Definition Inv (w : World) : Prop := Core w ∧ count_ok w.

(** What the promise reactions ([forward], [resumeCall], [settleRequest])
    leave alone. *)
Record reacts (w w' : World) : Prop := {
  re_args : _workerArguments w' = _workerArguments w;
  re_instance : _instance w' = _instance w;
  re_refCount : _refCount w' = _refCount w;
  re_controllers : controllers w' = controllers w;
  re_tasks : tasks w' = tasks w;
  re_functions : functions w' = functions w;
  re_workers : workers w' = workers w;
  re_proxies : proxies w' = proxies w;
  re_warnings : warnings w' = warnings w;
  re_promises : length (promises w') = length (promises w);
  re_calls : length (calls w') = length (calls w);
  re_connections : length (connections w') = length (connections w);
  re_connection : ∀ j c, connections w !! j = Some c →
    ∃ c', connections w' !! j = Some c' ∧ attached c' = attached c
          ∧ worker c' = worker c ∧ ∃ more, posted c' = posted c ++ more;
}.

(** What must hold when the callbacks of a pending entry of connection
    [conn] run, after the entry left the table. *)
Definition settle_pre (conn : nat) (w : World) (s : WorkerRequest * Outcome)
  : Prop :=
  match s.1 with
  | MethodAwait i =>
      ∀ a b, call_status i w = Some (InFlight a b) →
             a = conn
             ∧ ∀ c r, connections w !! conn = Some c → (b, r) ∉ requests c
  | ConnectAwait t =>
      (∃ task, tasks w !! t = Some task ∧ task_status task ≠ TaskFulfilled)
      ∧ match s.2 with
        | Fulfilled _ =>
            t = conn
            ∧ ∃ c, connections w !! conn = Some c ∧ attached c = true
                   ∧ ∀ r, (1, r) ∉ requests c
        | Rejected _ => True
        end
  end.

(** The states on the connecting side of [ready()]. *)
Definition committed (s : ConnectionState) : bool :=
  match s with
  | Disconnected | Blocked _ _ => false
  | Ready _ _ | Connecting _ _ | Connected _ _ => true
  end.

(** Reactions to a rejection send nothing and complete no construction. *)
Definition quiet (w w' : World) : Prop :=
  connections w' = connections w
  ∧ (∀ i a b, call_status i w' = Some (InFlight a b) →
              call_status i w = Some (InFlight a b))
  ∧ (∀ t task, tasks w !! t = Some task →
               task_status task ≠ TaskFulfilled →
               ∃ task', tasks w' !! t = Some task'
                        ∧ task_status task' ≠ TaskFulfilled).

(** The precondition of a rejection callback of a cleared table, in a form
    that later rejections keep. *)
Definition reject_pre (conn : nat) (w : World) (r : WorkerRequest) : Prop :=
  match r with
  | MethodAwait i =>
      ∀ a b, call_status i w = Some (InFlight a b) → a = conn
  | ConnectAwait t =>
      ∃ task, tasks w !! t = Some task ∧ task_status task ≠ TaskFulfilled
  end.

(** What no event undoes: an aborted controller stays aborted, a
    [connect()] keeps its controller, a disposed connection stays
    disposed. *)
Record evolves (w w' : World) : Prop := {
  ev_args : _workerArguments w' = _workerArguments w;
  ev_aborted : ∀ k, is_aborted k w = true → is_aborted k w' = true;
  ev_tasks : ∀ t task, tasks w !! t = Some task →
    ∃ task', tasks w' !! t = Some task'
             ∧ task_controller task' = task_controller task;
  ev_connections : ∀ j c, connections w !! j = Some c →
    ∃ c', connections w' !! j = Some c'
          ∧ (attached c = false → attached c' = false);
}.

(** Forwarding call [i] keeps its status, once it is past the wait for the
    connection. *)
Definition kept (i : nat) (w w' : World) : Prop :=
  ∀ s, call_status i w = Some s → (∀ tg, s ≠ AwaitingConnection tg) →
       call_status i w' = Some s.

(** The connection that [connect()] builds in world [w]: on a worker fresh
    from the factory, with the ["constructor"] call as its first and only
    message, awaited by the new [connect()] activation. *)
Definition first_connection (w : World) : WorkerConnection :=
  {| worker := workers w;
     requests := [(1, ConnectAwait (length (tasks w)))];
     nextCallId := 2;
     attached := true;
     posted := [Call 1 "constructor" (_workerArguments w)] |}.

(** No worker is made and no connection added. *)
Definition same_size (w w' : World) : Prop :=
  workers w' = workers w
  ∧ length (connections w') = length (connections w).

(** Call [i] has been sent on connection [c] and its entry is in the
    table of [c]. *)
Definition sent_on (i c : nat) (w : World) : Prop :=
  ∃ id conn,
    call_status i w = Some (InFlight c id)
    ∧ connections w !! c = Some conn
    ∧ attached conn = true
    ∧ map_get id (requests conn) = Some (MethodAwait i)
    ∧ id < nextCallId conn.

(** Call [i] waits for [request] and connection [c] is ready to take it. *)
Definition waits_for (i request c : nat) (w : World) : Prop :=
  call_status i w = Some (AwaitingConnection (AwaitRequest request))
  ∧ ∃ conn, connections w !! c = Some conn ∧ attached conn = true.

(** ** The wire: call ids and what was posted *)

(** The ids of a connection: [nextCallId] counts the messages posted, the
    [n]-th message posted is the call of id [n] (from 1), and the pending
    table has one entry per id, for ids that were given out. *)
Definition wire_ok (c : WorkerConnection) : Prop :=
  nextCallId c = S (length (posted c))
  ∧ (∀ n msg, posted c !! n = Some msg →
              ∃ method args, msg = Call (S n) method args)
  ∧ (∀ id r, (id, r) ∈ requests c → 1 ≤ id < nextCallId c)
  ∧ NoDup (requests c).*1.

(** A forwarding call in flight was posted on its connection under its id,
    with its own method name and arguments. *)
Definition flight_ok (w : World) : Prop :=
  ∀ i m c id, calls w !! i = Some m → status m = InFlight c id →
    ∃ conn, connections w !! c = Some conn
            ∧ posted conn !! (id - 1) = Some (Call id (methodName m) (args m)).

Definition flights_differ (w : World) : Prop :=
  ∀ i j c id, call_status i w = Some (InFlight c id) →
              call_status j w = Some (InFlight c id) → i = j.

Record Wire (w : World) : Prop := {
  wire_connections : ∀ j c, connections w !! j = Some c → wire_ok c;
  wire_flight : flight_ok w;
  wire_differ : flights_differ w;
}.

Global Instance Message_eq_dec : EqDecision Message.
Proof. solve_decision. Defined.

Global Instance Event_eq_dec : EqDecision Event.
Proof. solve_decision. Defined.

(** ** The forwarding calls that wait *)

(** A forwarding call that waits for the connection waits for a [request]
    that is still pending; and in the state ["connecting"] the [request] of
    the state exists and is not fulfilled. *)
Definition unfulfilled (r : nat) (w : World) : Prop :=
  promises w !! r = Some RequestPending
  ∨ ∃ e, promises w !! r = Some (RequestRejected e).

Definition await_ok (w : World) : Prop :=
  (∀ i tg, call_status i w = Some (AwaitingConnection tg) →
     ∃ r, tg = AwaitRequest r ∧ promises w !! r = Some RequestPending)
  ∧ (∀ r k, the_state w = Connecting r k → unfulfilled r w).

(** The same, but for call [i], which is about to resume. *)
Definition await_but (i : nat) (w : World) : Prop :=
  (∀ j tg, j ≠ i → call_status j w = Some (AwaitingConnection tg) →
     ∃ r, tg = AwaitRequest r ∧ promises w !! r = Some RequestPending)
  ∧ (∀ r k, the_state w = Connecting r k → unfulfilled r w).

(** What [tryConnect] hands to the forwarding call. *)
Definition target_ok (target : ConnectionForCall) (w : World) : Prop :=
  match target with
  | AwaitRequest r => unfulfilled r w
  | Immediate c _ => is_Some (connections w !! c)
  end.

(** ** Requests that nobody will settle *)

(** The [request] of a state, for the states that have one. *)
Definition state_request (s : ConnectionState) : option nat :=
  match s with
  | Blocked r _ | Ready r _ | Connecting r _ => Some r
  | Disconnected | Connected _ _ => None
  end.

(** Forwarding call [i] waits for the pending [request] [r], which is
    neither the request of the current state nor that of any [connect()]:
    no code that is left holds its [resolve] or [reject]. *)
Definition orphaned (i r : nat) (w : World) : Prop :=
  call_status i w = Some (AwaitingConnection (AwaitRequest r))
  ∧ promises w !! r = Some RequestPending
  ∧ (∀ t task, tasks w !! t = Some task → task_request task ≠ r)
  ∧ state_request (the_state w) ≠ Some r.

(** ** Connections that nobody will dispose *)

(** Connection [c] is attached, its ["constructor"] call is no longer
    pending and it is not the connection of the state: no code that is left
    calls its [dispose()]. *)
Definition stranded (c : nat) (w : World) : Prop :=
  (∃ conn, connections w !! c = Some conn ∧ attached conn = true
           ∧ ∀ id t, (id, ConnectAwait t) ∉ requests conn)
  ∧ ∀ k, the_state w ≠ Connected c k.

(** Call [i] has been sent on connection [c] under [id] and its entry is in
    the table of [c]. *)
Definition sent_as (i c id : nat) (w : World) : Prop :=
  call_status i w = Some (InFlight c id)
  ∧ ∃ conn, connections w !! c = Some conn
            ∧ attached conn = true
            ∧ map_get id (requests conn) = Some (MethodAwait i)
            ∧ id < nextCallId conn.

(** ** Responses that find no pending call *)

(** From [w] to [w'] the table of connection [c] got new entries under new
    ids only. *)
Definition table_grows (c : nat) (w w' : World) : Prop :=
  ∀ conn, connections w !! c = Some conn →
    ∃ conn', connections w' !! c = Some conn'
             ∧ (nextCallId conn <= nextCallId conn')%nat
             ∧ ∀ id r, (id, r) ∈ requests conn' →
                       (id, r) ∈ requests conn ∨ (nextCallId conn <= id)%nat.

(** * Proofs *)

(** Unfold the invariants, on a world given by its fields. *)
Ltac unfold_ok :=
  unfold state_ok, tasks_ok, task_ok, connections_ok, connection_ok,
    entry_ok, handle_ok, call_status, the_state, is_aborted in *; cbn in *.

Ltac open_world w :=
  destruct w as [wa [[st me px ca]|] rc pr ct cn tk cl fn wk pxs wn];
  unfold_ok.


(** ** The association-list map *)

Lemma map_get_elem_of {V} (k : nat) (v : V) m :
  map_get k m = Some v → (k, v) ∈ m.
Proof.
  induction m as [|[k' v'] m IH]; simpl; [done|].
  destruct (Nat.eqb_spec k' k) as [->|Hne].
  - intros [= ->]. left.
  - intros H. right. auto.
Qed.

Lemma map_get_set_eq {V} (k : nat) (v : V) m :
  map_get k (map_set k v m) = Some v.
Proof.
  induction m as [|[k' v'] m IH]; simpl.
  - by rewrite Nat.eqb_refl.
  - destruct (Nat.eqb_spec k' k) as [->|Hne]; simpl.
    + by rewrite Nat.eqb_refl.
    + destruct (Nat.eqb_spec k' k); [done|]. apply IH.
Qed.

Lemma map_get_set_ne {V} (k k' : nat) (v : V) m :
  k ≠ k' → map_get k' (map_set k v m) = map_get k' m.
Proof.
  intros Hne. induction m as [|[k0 v0] m IH]; simpl.
  - destruct (Nat.eqb_spec k k'); [done|done].
  - destruct (Nat.eqb_spec k0 k) as [->|Hne0]; simpl.
    + destruct (Nat.eqb_spec k k'); [done|]. done.
    + destruct (Nat.eqb_spec k0 k'); [done|]. apply IH.
Qed.

Lemma elem_of_map_set {V} (k k' : nat) (v v' : V) m :
  (k', v') ∈ map_set k v m → (k', v') = (k, v) ∨ (k', v') ∈ m.
Proof.
  induction m as [|[k0 v0] m IH]; simpl.
  - intros ?%list_elem_of_singleton. by left.
  - destruct (Nat.eqb_spec k0 k) as [->|Hne].
    + intros [->|?]%elem_of_cons; [by left|]. right. by right.
    + intros [->|?]%elem_of_cons; [right; left|].
      destruct IH as [?|?]; [done|by left|]. right. by right.
Qed.

Lemma elem_of_map_delete {V} (k k' : nat) (v' : V) m :
  (k', v') ∈ map_delete k m → k' ≠ k ∧ (k', v') ∈ m.
Proof.
  induction m as [|[k0 v0] m IH]; simpl.
  - by intros ?%elem_of_nil.
  - destruct (Nat.eqb_spec k0 k) as [->|Hne].
    + intros [? ?]%IH. split; [done|by right].
    + intros [[= -> ->]|?]%elem_of_cons; [split; [done|left]|].
      destruct IH as [? ?]; [done|]. split; [done|by right].
Qed.

Lemma map_get_delete_ne {V} (k k' : nat) (m : list (nat * V)) :
  k ≠ k' → map_get k' (map_delete k m) = map_get k' m.
Proof.
  intros Hne. induction m as [|[k0 v0] m IH]; simpl; [done|].
  destruct (Nat.eqb_spec k0 k) as [->|Hne0].
  - destruct (Nat.eqb_spec k k'); [done|]. done.
  - simpl. destruct (Nat.eqb_spec k0 k'); [done|]. done.
Qed.

Lemma map_get_delete_eq {V} (k : nat) (m : list (nat * V)) :
  map_get k (map_delete k m) = None.
Proof.
  induction m as [|[k0 v0] m IH]; simpl; [done|].
  destruct (Nat.eqb_spec k0 k) as [->|Hne0]; [done|].
  simpl. destruct (Nat.eqb_spec k0 k); [done|]. done.
Qed.

Lemma reacts_refl w : reacts w w.
Proof.
  split; try done. intros j c Hc. exists c. repeat split; try done.
  exists []. by rewrite app_nil_r.
Qed.

Lemma reacts_trans w1 w2 w3 : reacts w1 w2 → reacts w2 w3 → reacts w1 w3.
Proof.
  intros H1 H2.
  split;
    try (first [ rewrite (re_args _ _ H2) | rewrite (re_instance _ _ H2)
               | rewrite (re_refCount _ _ H2) | rewrite (re_controllers _ _ H2)
               | rewrite (re_tasks _ _ H2) | rewrite (re_functions _ _ H2)
               | rewrite (re_workers _ _ H2) | rewrite (re_proxies _ _ H2)
               | rewrite (re_warnings _ _ H2) | rewrite (re_promises _ _ H2)
               | rewrite (re_calls _ _ H2) | rewrite (re_connections _ _ H2) ];
         apply H1).
  intros j c Hc.
  destruct (re_connection _ _ H1 j c Hc) as (c2 & Hc2 & Ha & Hw & more & Hp).
  destruct (re_connection _ _ H2 j c2 Hc2) as (c3 & Hc3 & Ha3 & Hw3 & more3 & Hp3).
  exists c3. repeat split; try congruence.
  exists (more ++ more3). rewrite Hp3, Hp. by rewrite app_assoc.
Qed.

Lemma forward_reacts i conn w : reacts w (forward i conn w).
Proof.
  unfold forward. destruct (calls w !! i) as [m|] eqn:Hm; [|apply reacts_refl].
  destruct (connections w !! conn) as [c|] eqn:Hc; [|apply reacts_refl].
  split; cbn; try done.
  - by rewrite length_insert.
  - by rewrite length_insert.
  - intros j c0 Hc0. destruct (decide (j = conn)) as [->|Hne].
    + rewrite list_lookup_insert_eq by (by eapply lookup_lt_Some).
      eexists. split; [done|]. cbn. simplify_eq. repeat split; eauto.
    + rewrite list_lookup_insert_ne by done. exists c0. repeat split; try done.
      exists []. by rewrite app_nil_r.
Qed.

Lemma resumeCall_reacts r st w i : reacts w (resumeCall r st w i).
Proof.
  unfold resumeCall. repeat case_match; try apply reacts_refl.
  - apply forward_reacts.
  - split; cbn; try done; [by rewrite length_insert|].
    intros j c Hc. exists c. repeat split; try done.
    exists []. by rewrite app_nil_r.
Qed.

Lemma foldl_reacts {A} (f : World → A → World) (l : list A) w :
  (∀ w a, reacts w (f w a)) → reacts w (foldl f w l).
Proof.
  intros Hf. revert w. induction l as [|a l IH]; intros w; simpl.
  - apply reacts_refl.
  - eapply reacts_trans; [apply Hf|apply IH].
Qed.

Lemma set_promises_reacts l w :
  length l = length (promises w) → reacts w (set_promises l w).
Proof.
  intros Hl. split; cbn; try done. intros j c Hc. exists c.
  repeat split; try done. exists []. by rewrite app_nil_r.
Qed.

Lemma settleRequest_reacts r st w : reacts w (settleRequest r st w).
Proof.
  unfold settleRequest. repeat case_match; try apply reacts_refl.
  eapply reacts_trans; [|apply foldl_reacts, resumeCall_reacts].
  apply set_promises_reacts. by rewrite length_insert.
Qed.

Lemma forward_promises i conn w : promises (forward i conn w) = promises w.
Proof. unfold forward. by repeat case_match. Qed.

Lemma resumeCall_promises r st w i : promises (resumeCall r st w i) = promises w.
Proof.
  unfold resumeCall. repeat case_match; try done. apply forward_promises.
Qed.

Lemma settleRequest_promises r st w r' :
  r' ≠ r → promises (settleRequest r st w) !! r' = promises w !! r'.
Proof.
  intros Hne. unfold settleRequest. repeat case_match; try done.
  match goal with |- promises (foldl _ ?w0 ?l) !! _ = _ =>
    assert (promises (foldl (resumeCall r st) w0 l) = promises w0) as ->
  end.
  { generalize (seq 0 (length (calls w))). intros l.
    generalize (set_promises (<[r:=st]> (promises w)) w).
    induction l as [|a l IH]; intros w0; simpl; [done|].
    rewrite IH. apply resumeCall_promises. }
  cbn. by rewrite list_lookup_insert_ne.
Qed.

Lemma the_state_reacts w w' : reacts w w' → the_state w' = the_state w.
Proof. intros H. unfold the_state. by rewrite (re_instance _ _ H). Qed.

Lemma is_aborted_reacts w w' k : reacts w w' → is_aborted k w' = is_aborted k w.
Proof. intros H. unfold is_aborted. by rewrite (re_controllers _ _ H). Qed.

Lemma handle_ok_reacts w w' : reacts w w' → handle_ok w → handle_ok w'.
Proof.
  intros H. unfold handle_ok.
  by rewrite (re_instance _ _ H), (re_proxies _ _ H), (re_args _ _ H).
Qed.

Lemma tasks_ok_reacts w w' : reacts w w' → tasks_ok w → tasks_ok w'.
Proof.
  intros Hr (Hlen & Ht & Hu). pose proof (the_state_reacts _ _ Hr) as Hs.
  split; [rewrite (re_tasks _ _ Hr), (re_connections _ _ Hr); done|]. split.
  - intros t task Htask. rewrite (re_tasks _ _ Hr) in Htask.
    destruct (Ht t task Htask) as (? & ? & ? & Hst).
    unfold task_ok, is_aborted in *.
    rewrite (re_promises _ _ Hr), (re_controllers _ _ Hr), Hs. done.
  - rewrite (re_tasks _ _ Hr). done.
Qed.

Lemma state_ok_reacts w w' :
  reacts w w' →
  (∀ r k, the_state w = Blocked r k ∨ the_state w = Ready r k →
          promises w' !! r = promises w !! r) →
  state_ok w → state_ok w'.
Proof.
  intros Hr Hp. pose proof (the_state_reacts _ _ Hr) as Hs.
  unfold state_ok. rewrite Hs.
  rewrite (re_controllers _ _ Hr), (re_tasks _ _ Hr).
  destruct (the_state w) as [|r k|r k|r k|c k]; try done.
  - rewrite (Hp r k) by auto. done.
  - rewrite (Hp r k) by auto. done.
  - intros (? & ? & (conn & Hconn & Hatt)). repeat split; try done.
    destruct (re_connection _ _ Hr c conn Hconn) as (c' & ? & ? & ?).
    exists c'. split; [done|congruence].
Qed.


Lemma forward_connections_ok i conn w tg :
  call_status i w = Some (AwaitingConnection tg) →
  connections_ok w → connections_ok (forward i conn w).
Proof.
  intros Hst [Hw Hcs]. unfold forward.
  destruct (calls w !! i) as [m|] eqn:Hm; [|done].
  destruct (connections w !! conn) as [c|] eqn:Hc; [|done].
  unfold call_status in Hst. rewrite Hm in Hst. simpl in Hst.
  split; cbn; [by rewrite length_insert|].
  assert (Hkeep : ∀ j id r, entry_ok w j id r →
     entry_ok (set_calls (<[i:=set_status (InFlight conn (nextCallId c)) m]> (calls w))
        (set_connections
           (<[conn:={| worker := worker c;
                       requests := map_set (nextCallId c) (MethodAwait i) (requests c);
                       nextCallId := S (nextCallId c);
                       attached := attached c;
                       posted := posted c ++ [Call (nextCallId c) (methodName m) (args m)] |}]>
              (connections w)) w)) j id r).
  { intros j id [t|i'] He; [done|]. unfold entry_ok, call_status in *. cbn.
    destruct (decide (i' = i)) as [->|Hne].
    - rewrite Hm in He. simpl in He. congruence.
    - by rewrite list_lookup_insert_ne. }
  intros j c0 Hc0. destruct (decide (j = conn)) as [->|Hne].
  - rewrite list_lookup_insert_eq in Hc0 by (by eapply lookup_lt_Some).
    injection Hc0 as <-. destruct (Hcs conn c Hc) as (Hwk & (rest & Hp) & He).
    split; [done|]. split; cbn.
    + exists (rest ++ [Call (nextCallId c) (methodName m) (args m)]).
      by rewrite Hp.
    + intros id r [[= -> ->]|Hin]%elem_of_map_set.
      * unfold entry_ok, call_status. cbn.
        rewrite list_lookup_insert_eq by (by eapply lookup_lt_Some). done.
      * apply Hkeep. by apply He.
  - rewrite list_lookup_insert_ne in Hc0 by done.
    destruct (Hcs j c0 Hc0) as (Hwk & Hp & He).
    split; [done|]. split; [done|]. intros id r Hin. apply Hkeep. by apply He.
Qed.

Lemma resumeCall_connections_ok r st w i :
  connections_ok w → connections_ok (resumeCall r st w i).
Proof.
  intros Hok. unfold resumeCall.
  destruct (calls w !! i) as [m|] eqn:Hm; [|done].
  destruct (status m) as [[r'|]| |] eqn:Hs; try done.
  destruct (Nat.eqb r' r); [|done].
  destruct st as [|conn k|e]; [done| |].
  - eapply forward_connections_ok; [|done].
    unfold call_status. rewrite Hm. simpl. by rewrite Hs.
  - destruct Hok as [Hw Hcs]. split; [done|]. cbn.
    intros j c Hc. destruct (Hcs j c Hc) as (Hwk & Hp & He).
    split; [done|]. split; [done|].
    intros id [t|i'] Hin; specialize (He _ _ Hin); [done|].
    unfold entry_ok, call_status in *. cbn.
    destruct (decide (i' = i)) as [->|Hne].
    + rewrite Hm in He. simpl in He. congruence.
    + by rewrite list_lookup_insert_ne.
Qed.


Lemma settleRequest_connections_ok r st w :
  connections_ok w → connections_ok (settleRequest r st w).
Proof.
  intros Hok. unfold settleRequest. repeat case_match; try done.
  generalize (seq 0 (length (calls w))). intros l.
  assert (connections_ok (set_promises (<[r:=st]> (promises w)) w)) as Hok0 by done.
  revert Hok0. generalize (set_promises (<[r:=st]> (promises w)) w).
  induction l as [|a l IH]; intros w0 Hw0; simpl; [done|].
  apply IH. by apply resumeCall_connections_ok.
Qed.

(** [settleRequest] keeps the core invariant when the request is not the one
    a blocked or ready state still waits to create. *)
Lemma settleRequest_Core r st w :
  (∀ r' k, the_state w = Blocked r' k ∨ the_state w = Ready r' k → r' ≠ r) →
  Core w → Core (settleRequest r st w).
Proof.
  intros Hr [Hh Hs Ht Hc]. pose proof (settleRequest_reacts r st w) as Hre.
  split.
  - by eapply handle_ok_reacts.
  - eapply state_ok_reacts; [done| |done].
    intros r' k Hst. apply settleRequest_promises. eauto.
  - by eapply tasks_ok_reacts.
  - by apply settleRequest_connections_ok.
Qed.


Lemma tryConnect_Core w : Core w → Core (tryConnect w).2.
Proof.
  intros [Hh Hs Ht Hc]. unfold tryConnect.
  destruct (the_state w) as [|r k|r k|r k|c k] eqn:Hst; cbn; try done.
  - (* disconnected *)
    open_world w; simplify_eq.
    + split; unfold_ok; cbn.
      * done.
      * split; [by rewrite lookup_app_r, Nat.sub_diag by lia|].
        split; [by rewrite lookup_app_r, Nat.sub_diag by lia|].
        intros t task Htask. destruct Ht as (_ & Ht & _).
        destruct (Ht t task Htask) as (_ & ? & ? & _). lia.
      * destruct Ht as (Hl & Ht & Hu). split; [done|]. split; [|done].
        intros t task Htask. destruct (Ht t task Htask) as (? & ? & ? & Hab).
        rewrite !length_app. cbn. split; [done|]. split; [lia|]. split; [lia|].
        rewrite lookup_app_l by done. intros Hna.
        destruct (Hab Hna) as [[? _]|[? _]]; done.
      * done.
    + split; unfold_ok; cbn; try done.
      destruct Ht as (Hl & Ht & Hu). split; [done|]. split; [|done].
      intros t task Htask. destruct (Ht t task Htask) as (? & ? & ? & Hab).
      rewrite !length_app. cbn. split; [done|]. split; [lia|]. split; [lia|].
      rewrite lookup_app_l by done. done.
  - (* ready *)
    open_world w; simplify_eq.
    destruct Hs as (Hp & Hk & Hfresh).
    unfold connect, is_aborted. cbn. rewrite Hk. cbn.
    destruct Hh as (Hme & Hpx & Hpxs & Hca). subst.
    destruct Ht as (Hl & Ht & Hu). destruct Hc as (Hw & Hc).
    split; unfold_ok; cbn.
    + done.
    + done.
    + split; [rewrite !length_app; cbn; lia|]. split.
      * intros t task [Htask|[Hlen Htask]]%lookup_app_Some.
        -- destruct (Ht t task Htask) as (? & ? & ? & Hab).
           split; [done|]. split; [done|]. split; [done|].
           intros Hna. destruct (Hab Hna) as [[? _]|[? _]]; done.
        -- cbn. apply lookup_lt_Some in Hp, Hk.
           destruct (t - length tk) as [|n] eqn:Hn; [|done].
           cbn in Htask. injection Htask as <-. cbn.
           split; [lia|]. split; [done|]. split; [done|].
           intros _. left. done.
      * intros t t' task task' [H1|[Hlen1 H1]]%lookup_app_Some
          [H2|[Hlen2 H2]]%lookup_app_Some Heq.
        -- by eapply Hu.
        -- destruct (t' - length tk) as [|n] eqn:Hn; [|done]. cbn in H2.
           injection H2 as <-. cbn in Heq.
           destruct (Hfresh t task H1). done.
        -- destruct (t - length tk) as [|n] eqn:Hn; [|done]. cbn in H1.
           injection H1 as <-. cbn in Heq.
           destruct (Hfresh t' task' H2). done.
        -- destruct (t - length tk) as [|n] eqn:Hn; [|done].
           destruct (t' - length tk) as [|n'] eqn:Hn'; [|done]. lia.
    + split; [rewrite length_app; cbn; lia|].
      intros j c [Hj|[Hlen Hj]]%lookup_app_Some.
      * destruct (Hc j c Hj) as (? & ? & He). split; [done|]. split; [done|].
        intros id [t|i] Hin; specialize (He _ _ Hin); cbn in *; [|done].
        destruct He as (? & ? & task & Htask & ?). split; [done|]. split; [done|].
        exists task. split; [|done]. by apply lookup_app_l_Some.
      * destruct (j - length cn) as [|n] eqn:Hn; [|done]. cbn in Hj.
        injection Hj as <-. cbn. split; [lia|]. split; [by eexists|].
        intros id r0 [= -> ->]%list_elem_of_singleton. cbn.
        split; [lia|]. split; [done|]. eexists. split.
        { rewrite lookup_app_r by lia. rewrite Nat.sub_diag. done. }
        done.
Qed.

Lemma the_state_set_state s w :
  _instance w ≠ None → the_state (set_state s w) = s.
Proof. unfold the_state, set_state. by destruct (_instance w). Qed.

Lemma the_state_instance w :
  the_state w ≠ Disconnected → _instance w ≠ None.
Proof. unfold the_state. by destruct (_instance w). Qed.

Lemma ready_Core w : Core w → Core (ready w).
Proof.
  intros HC. unfold ready.
  destruct (the_state w) as [|r k|r k|r k|c k] eqn:Hst; cbn; try done.
  - destruct HC as [Hh Hs Ht Hc]. open_world w; simplify_eq.
    + split; unfold_ok; cbn.
      * done.
      * split; [by rewrite lookup_app_r, Nat.sub_diag by lia|].
        split; [by rewrite lookup_app_r, Nat.sub_diag by lia|].
        intros t task Htask. destruct Ht as (_ & Ht & _).
        destruct (Ht t task Htask) as (_ & ? & ? & _). lia.
      * destruct Ht as (Hl & Ht & Hu). split; [done|]. split; [|done].
        intros t task Htask. destruct (Ht t task Htask) as (? & ? & ? & Hab).
        rewrite !length_app. cbn. split; [done|]. split; [lia|]. split; [lia|].
        rewrite lookup_app_l by done. intros Hna.
        destruct (Hab Hna) as [[? _]|[? _]]; done.
      * done.
    + split; unfold_ok; cbn; try done.
      destruct Ht as (Hl & Ht & Hu). split; [done|]. split; [|done].
      intros t task Htask. destruct (Ht t task Htask) as (? & ? & ? & Hab).
      rewrite !length_app. cbn. split; [done|]. split; [lia|]. split; [lia|].
      rewrite lookup_app_l by done. done.
  - apply tryConnect_Core. destruct HC as [Hh Hs Ht Hc].
    open_world w; simplify_eq. split; unfold_ok; cbn; try done.
    destruct Ht as (Hl & Ht & Hu). split; [done|]. split; [|done].
    intros t task Htask. destruct (Ht t task Htask) as (? & ? & ? & Hab).
    split; [done|]. split; [done|]. split; [done|]. intros Hna.
    destruct (Hab Hna) as [[? _]|[? _]]; done.
Qed.

Lemma disconnect_Core w : Core w → Core (disconnect w).
Proof.
  intros HC. unfold disconnect.
  assert (Habort : ∀ k, state_controller (the_state w) = Some k →
    Core (set_state Disconnected (abort k w))).
  { intros k Hk. destruct HC as [Hh Hs Ht Hc]. open_world w; simplify_eq.
    split; unfold_ok; cbn; try done.
    destruct Ht as (Hl & Ht & Hu). split; [done|]. split; [|done].
    intros t task Htask. destruct (Ht t task Htask) as (? & ? & ? & Hab).
    rewrite length_insert. split; [done|]. split; [done|]. split; [done|].
    intros Hna. destruct (decide (task_controller task = k)) as [Heq|Hne].
    - rewrite Heq in *. rewrite list_lookup_insert_eq in Hna by done. done.
    - rewrite list_lookup_insert_ne in Hna by done.
      destruct (Hab Hna) as [[Hst' _]|[Hst' _]]; rewrite Hst' in Hk;
        cbn in Hk; congruence. }
  destruct (the_state w) as [|r k|r k|r k|c k] eqn:Hst; cbn; try done;
    try (by apply Habort).
  specialize (Habort k eq_refl). revert Habort.
  unfold disposeConnection, abort. cbn.
  destruct (connections w !! c) as [conn|] eqn:Hconn; [|done].
  intros [Hh Hs Ht Hc]. clear HC Hst.
  open_world w; simplify_eq.
  all: split; unfold_ok; cbn; try done.
  all: try (destruct Ht as (Hl & Ht & Hu); split;
            [by rewrite length_insert|done]).
  all: destruct Hc as (Hw & Hc); (split; [by rewrite length_insert|]).
  all: intros j c0 [[-> [<- Hlt]]|[Hne Hj]]%list_lookup_insert_Some;
    [cbn; apply (Hc j conn Hconn)|by apply Hc].
Qed.

Lemma ensureInstance_Core w : Core w → Core (ensureInstance w).2.
Proof.
  intros [Hh Hs Ht Hc]. unfold ensureInstance.
  destruct (_instance w) eqn:Hi; cbn; [done|].
  open_world w; simplify_eq. split; unfold_ok; cbn; done.
Qed.

Lemma getMethod_Core m w : Core w → Core (getMethod m w).2.
Proof.
  intros [Hh Hs Ht Hc]. unfold getMethod.
  destruct (_instance w) as [p|] eqn:Hi; cbn; [|done].
  destruct (methods p !! m); cbn; [done|].
  clear Hi. split; unfold_ok; cbn; done.
Qed.

Lemma set_refCount_Core n w : Core w → Core (set_refCount n w).
Proof. intros [Hh Hs Ht Hc]. split; unfold_ok; cbn; done. Qed.

Lemma tryConnect_calls w : Core w → calls (tryConnect w).2 = calls w.
Proof.
  intros [Hh Hs Ht Hc]. unfold tryConnect.
  destruct (the_state w) as [|r k|r k|r k|c k] eqn:Hst; cbn; try done.
  - open_world w; simplify_eq; done.
  - open_world w; simplify_eq. destruct Hs as (Hp & Hk & Hfresh).
    unfold connect, is_aborted. cbn. rewrite Hk. done.
Qed.

Lemma append_call_Core m w : Core w → Core (set_calls (calls w ++ [m]) w).
Proof.
  intros [Hh Hs Ht Hc]. split; unfold_ok; try done.
  destruct Hc as [Hw Hc]. split; [done|]. intros j c Hj.
  destruct (Hc j c Hj) as (? & ? & He). split; [done|]. split; [done|].
  intros id [t|i] Hin; specialize (He _ _ Hin); cbn in He; [done|].
  destruct (calls w !! i) as [m'|] eqn:Hm; [|done].
  by rewrite (lookup_app_l_Some _ _ _ _ Hm).
Qed.

Lemma resumeCall_Core r st w i : Core w → Core (resumeCall r st w i).
Proof.
  intros [Hh Hs Ht Hc]. pose proof (resumeCall_reacts r st w i) as Hre. split.
  - by eapply handle_ok_reacts.
  - eapply state_ok_reacts; [done| |done]. intros. by rewrite resumeCall_promises.
  - by eapply tasks_ok_reacts.
  - by apply resumeCall_connections_ok.
Qed.

Lemma forward_Core i conn w tg :
  call_status i w = Some (AwaitingConnection tg) →
  Core w → Core (forward i conn w).
Proof.
  intros Hst [Hh Hs Ht Hc]. pose proof (forward_reacts i conn w) as Hre. split.
  - by eapply handle_ok_reacts.
  - eapply state_ok_reacts; [done| |done]. intros. by rewrite forward_promises.
  - by eapply tasks_ok_reacts.
  - by eapply forward_connections_ok.
Qed.

Lemma forwardingCall_Core m a w : Core w → Core (forwardingCall m a w).2.
Proof.
  intros HC. unfold forwardingCall.
  pose proof (tryConnect_Core w HC) as HC1.
  pose proof (tryConnect_calls w HC) as Hcalls.
  destruct (tryConnect w) as [target w1]. cbn in *.
  set (mc := {| methodName := m; args := a; status := AwaitingConnection target |}).
  pose proof (append_call_Core mc w1 HC1) as HC2.
  destruct target as [r|conn k].
  - cbn. destruct (promises w1 !! r); [|done]. by apply resumeCall_Core.
  - eapply forward_Core; [|done]. unfold call_status. cbn.
    rewrite <- Hcalls. rewrite lookup_app_r by lia. by rewrite Nat.sub_diag.
Qed.

Lemma the_state_setTaskStatus t s w :
  the_state (setTaskStatus t s w) = the_state w.
Proof. unfold setTaskStatus. by destruct (tasks w !! t). Qed.

Lemma the_state_disposeConnection c w :
  the_state (disposeConnection c w) = the_state w.
Proof. unfold disposeConnection. by destruct (connections w !! c). Qed.

Lemma disposeConnection_Core c w :
  (∀ k, the_state w ≠ Connected c k) → Core w → Core (disposeConnection c w).
Proof.
  intros Hne [Hh Hs Ht Hc]. unfold disposeConnection.
  destruct (connections w !! c) as [conn|] eqn:Hconn; [|done].
  split; unfold_ok.
  - done.
  - destruct (match _instance w with Some p => connectionState p | None => Disconnected end)
      as [|r k|r k|r k|c' k] eqn:Hst; try done.
    destruct Hs as (Hk & Htask & (c0 & Hc0 & Hatt)).
    split; [done|]. split; [done|]. exists c0.
    rewrite list_lookup_insert_ne; [done|]. intros ->. by eapply Hne.
  - destruct Ht as (Hl & Ht & Hu). by rewrite length_insert.
  - destruct Hc as (Hw & Hc). split; [by rewrite length_insert|].
    intros j c0 [[? [? ?]]|[? Hj]]%list_lookup_insert_Some; subst.
    + cbn. apply (Hc _ _ Hconn).
    + by apply Hc.
Qed.

Lemma setTaskStatus_Core t s w :
  s ≠ TaskFulfilled →
  (∀ task, tasks w !! t = Some task →
           task_status task ≠ TaskFulfilled
           ∨ is_aborted (task_controller task) w = true) →
  Core w → Core (setTaskStatus t s w).
Proof.
  intros Hs' Hold [Hh Hs Ht Hc]. unfold setTaskStatus.
  destruct (tasks w !! t) as [task|] eqn:Htask; [|done].
  specialize (Hold task eq_refl).
  split; unfold_ok.
  - done.
  - destruct (match _instance w with Some p => connectionState p | None => Disconnected end)
      as [|r k|r k|r k|c' k] eqn:Hst; try done.
    + destruct Hs as (? & ? & Hfr). split; [done|]. split; [done|].
      intros t' task' [[? [? ?]]|[? ?]]%list_lookup_insert_Some;
        subst; cbn; by eapply Hfr.
    + destruct Hs as (? & ? & Hfr). split; [done|]. split; [done|].
      intros t' task' [[? [? ?]]|[? ?]]%list_lookup_insert_Some;
        subst; cbn; by eapply Hfr.
    + destruct Hs as (Hk & (task' & Htask' & Hk' & Hf) & Hconn).
      split; [done|]. split; [|done]. exists task'.
      rewrite list_lookup_insert_ne; [done|]. intros ->.
      rewrite Htask in Htask'. injection Htask' as <-.
      destruct Hold as [?|Hab]; [done|]. rewrite Hk', Hk in Hab. done.
  - destruct Ht as (Hl & Ht & Hu). split; [by rewrite length_insert|]. split.
    + intros t' task' [[? [? ?]]|[? Ht']]%list_lookup_insert_Some; subst; cbn.
      * destruct (Ht _ _ Htask) as (? & ? & ? & Hab).
        split; [done|]. split; [done|]. split; [done|]. intros Hna.
        destruct (Hab Hna) as [[? ?]|[? ?]].
        -- left. done.
        -- destruct Hold as [?|Hab']; [done|]. congruence.
      * by apply Ht.
    + intros t1 t2 task1 task2
        [[? [? ?]]|[? H1]]%list_lookup_insert_Some
        [[? [? ?]]|[? H2]]%list_lookup_insert_Some; subst; cbn; try done.
      * intros. by eapply Hu.
      * intros. by eapply Hu.
      * by eapply Hu.
  - destruct Hc as [Hw Hc]. split; [done|].
    intros j c0 Hj. destruct (Hc j c0 Hj) as (? & ? & He).
    split; [done|]. split; [done|].
    intros id r Hin. specialize (He _ _ Hin). destruct r as [t0|i]; [|done].
    destruct He as (-> & -> & task0 & Ht0 & Hf0).
    split; [done|]. split; [done|].
    destruct (decide (j = t)) as [->|Hne].
    + eexists. rewrite list_lookup_insert_eq by (by eapply lookup_lt_Some).
      split; [done|]. done.
    + exists task0. by rewrite list_lookup_insert_ne.
Qed.

Lemma connected_Core t task w :
  Core w → tasks w !! t = Some task →
  task_status task ≠ TaskFulfilled →
  is_aborted (task_controller task) w = false →
  (∃ c, connections w !! t = Some c ∧ attached c = true
        ∧ ∀ r, (1, r) ∉ requests c) →
  Core (set_state (Connected (rawConnection task) (task_controller task))
          (setTaskStatus t TaskFulfilled w)).
Proof.
  intros [Hh Hs Ht Hc] Htask Hnf Hna (c & Hcn & Hatt & Hno).
  destruct Ht as (Hl & Ht & Hu).
  destruct (Ht t task Htask) as (Hraw & Hrq & Hct & Hab).
  destruct (Hab Hna) as [[Hst _]|[_ ?]]; [|done]. clear Hab.
  unfold setTaskStatus. rewrite Htask, Hraw.
  assert (Hk : controllers w !! task_controller task = Some false).
  { unfold is_aborted in Hna.
    destruct (controllers w !! task_controller task) as [b|] eqn:Hb.
    - cbn in Hna. by subst.
    - apply lookup_ge_None in Hb. lia. }
  unfold set_state. cbn.
  destruct (_instance w) as [p|] eqn:Hp; [|by unfold the_state in Hst; rewrite Hp in Hst].
  split; unfold_ok; rewrite ?Hp in *; cbn in *.
  - done.
  - split; [done|]. split.
    + eexists. rewrite list_lookup_insert_eq by (by eapply lookup_lt_Some).
      split; [done|]. done.
    + by exists c.
  - split; [by rewrite length_insert|]. split.
    + intros t' task' [[? [? ?]]|[? Ht']]%list_lookup_insert_Some; subst; cbn.
      * split; [done|]. split; [done|]. split; [done|]. intros _. by right.
      * destruct (Ht _ _ Ht') as (? & ? & ? & Hab).
        split; [done|]. split; [done|]. split; [done|]. intros Hna'.
        destruct (Hab Hna') as [[Heq _]|[Heq _]]; rewrite Hst in Heq; [|done].
        injection Heq as Hr Hc'. exfalso.
        by specialize (Hu _ _ _ _ Htask Ht' Hc').
    + intros t1 t2 task1 task2
        [[? [? ?]]|[? H1]]%list_lookup_insert_Some
        [[? [? ?]]|[? H2]]%list_lookup_insert_Some; subst; cbn; try done.
      * intros. by eapply Hu.
      * intros. by eapply Hu.
      * by eapply Hu.
  - destruct Hc as [Hw Hc]. split; [done|].
    intros j c0 Hj. destruct (Hc j c0 Hj) as (? & ? & He).
    split; [done|]. split; [done|].
    intros id r Hin. specialize (He _ _ Hin). destruct r as [t0|i]; [|done].
    destruct He as (-> & -> & task0 & Ht0 & Hf0).
    split; [done|]. split; [done|].
    destruct (decide (j = t)) as [->|Hne].
    + rewrite Hcn in Hj. injection Hj as <-. by apply Hno in Hin.
    + exists task0. by rewrite list_lookup_insert_ne.
Qed.

Lemma connectResumed_Core conn t o w :
  Core w → settle_pre conn w (ConnectAwait t, o) →
  Core (connectResumed t o w).
Proof.
  intros HC [(task & Htask & Hnf) Hpre]. cbn in Hpre.
  unfold connectResumed. rewrite Htask.
  assert (Hreq : ∀ w', the_state w' = the_state w
                       ∨ (∃ c k, the_state w' = Connected c k) →
     ∀ r' k, the_state w' = Blocked r' k ∨ the_state w' = Ready r' k →
             r' ≠ task_request task).
  { intros w' Hw' r' k Hst. pose proof (core_state _ HC) as Hs.
    unfold state_ok in Hs.
    destruct Hw' as [Hw'|(c & k' & Hw')]; [|destruct Hst; congruence].
    rewrite Hw' in Hst.
    destruct Hst as [Hst|Hst]; rewrite Hst in Hs;
      destruct Hs as (_ & _ & Hfresh); by destruct (Hfresh t task Htask). }
  destruct o as [v|e].
  - destruct (is_aborted (task_controller task) w) eqn:Hab.
    + (* the attempt was abandoned *)
      apply settleRequest_Core.
      { apply Hreq. left.
        by rewrite the_state_setTaskStatus, the_state_disposeConnection. }
      apply setTaskStatus_Core; [done| |].
      { intros task'. unfold disposeConnection.
        destruct (connections w !! rawConnection task); cbn;
          rewrite Htask; intros [= <-]; by right. }
      apply disposeConnection_Core; [|done].
      intros k Hst. pose proof (core_state _ HC) as Hs.
      pose proof (core_tasks _ HC) as (_ & Ht & _).
      destruct (Ht t task Htask) as (Hraw & _).
      unfold state_ok in Hs. rewrite Hst, Hraw in Hs.
      destruct Hs as (Hk & (task' & Htask' & Hk' & _) & _).
      rewrite Htask in Htask'. injection Htask' as <-.
      unfold is_aborted in Hab. rewrite Hk', Hk in Hab. done.
    + destruct Hpre as (-> & Hcn).
      apply settleRequest_Core.
      { apply Hreq. right. eexists _, _. apply the_state_set_state.
        unfold setTaskStatus. rewrite Htask. cbn.
        pose proof (core_tasks _ HC) as (_ & Ht & _).
        destruct (Ht _ _ Htask) as (_ & _ & _ & Hst).
        destruct (Hst Hab) as [[Hst' _]|[Hst' _]];
          unfold the_state in Hst'; by destruct (_instance w). }
      by apply connected_Core.
  - apply settleRequest_Core.
    { apply Hreq. left. by rewrite the_state_setTaskStatus. }
    apply setTaskStatus_Core; [done| |done].
    intros task'. rewrite Htask. intros [= <-]. by left.
Qed.

Lemma settle_Core conn w s : Core w → settle_pre conn w s → Core (settle w s).
Proof.
  intros HC Hpre. destruct s as [[t|i] o]; unfold settle; cbn.
  - by eapply connectResumed_Core.
  - destruct (calls w !! i) as [m|] eqn:Hm; [|done].
    destruct (status m) as [tg|a b|o'] eqn:Hst; try done.
    unfold settle_pre in Hpre. cbn in Hpre.
    destruct (Hpre a b) as (-> & Hno).
    { unfold call_status. rewrite Hm. cbn. by rewrite Hst. }
    destruct HC as [Hh Hs Ht Hc]. split; unfold_ok; try done.
    destruct Hc as [Hw Hc]. split; [done|]. intros j c Hj.
    destruct (Hc j c Hj) as (? & ? & He). split; [done|]. split; [done|].
    intros id [t|i'] Hin; specialize (He _ _ Hin); cbn in He; [done|].
    destruct (decide (i' = i)) as [->|Hne].
    + rewrite Hm in He. cbn in He. rewrite Hst in He.
      injection He as -> ->. exfalso. by eapply Hno.
    + by rewrite list_lookup_insert_ne.
Qed.

(** Replacing the table of a connection by a part of it. *)
Lemma table_Core conn c reqs wn w :
  connections w !! conn = Some c →
  (∀ e, e ∈ reqs → e ∈ requests c) →
  Core w →
  Core (set_warnings wn
          (set_connections
             (<[conn := {| worker := worker c; requests := reqs;
                           nextCallId := nextCallId c;
                           attached := attached c; posted := posted c |}]>
                (connections w)) w)).
Proof.
  intros Hconn Hsub [Hh Hs Ht Hc]. split; unfold_ok.
  - done.
  - destruct (match _instance w with Some p => connectionState p | None => Disconnected end)
      as [|r k|r k|r k|c' k] eqn:Hst; try done.
    destruct Hs as (Hk & Htask & (c0 & Hc0 & Hatt)).
    split; [done|]. split; [done|].
    destruct (decide (c' = conn)) as [->|Hne].
    + eexists. rewrite list_lookup_insert_eq by (by eapply lookup_lt_Some).
      split; [done|]. cbn. congruence.
    + exists c0. by rewrite list_lookup_insert_ne.
  - destruct Ht as (Hl & Ht & Hu). by rewrite length_insert.
  - destruct Hc as (Hw & Hc). split; [by rewrite length_insert|].
    intros j c0 [[? [? ?]]|[? Hj]]%list_lookup_insert_Some; subst.
    + cbn. destruct (Hc _ _ Hconn) as (? & ? & He).
      split; [done|]. split; [done|]. intros id r Hin. apply He. by apply Hsub.
    + by apply Hc.
Qed.

Lemma workerMessage_Core conn msg w :
  Core w → Core (workerMessage conn msg w).
Proof.
  intros HC. unfold workerMessage.
  destruct (connections w !! conn) as [c|] eqn:Hconn; [|done].
  destruct (attached c) eqn:Hatt; [|done].
  unfold onMessage.
  destruct (map_get (msg_id msg) (requests c)) as [request|] eqn:Hget.
  - pose proof (map_get_elem_of _ _ _ Hget) as Hin.
    pose proof (core_connections _ HC) as (_ & Hc).
    destruct (Hc _ _ Hconn) as (_ & _ & He). specialize (He _ _ Hin).
    assert (HC1 : ∀ wn, Core (set_warnings wn
          (set_connections
             (<[conn := {| worker := worker c;
                           requests := map_delete (msg_id msg) (requests c);
                           nextCallId := nextCallId c;
                           attached := attached c; posted := posted c |}]>
                (connections w)) w))).
    { intros wn. apply table_Core; [done| |done].
      intros [id r] Hd. by apply elem_of_map_delete in Hd as [_ ?]. }
    assert (Hpre : ∀ wn o, (∀ v, o = Fulfilled v → msg = Success (msg_id msg) v) →
      settle_pre conn (set_warnings wn
          (set_connections
             (<[conn := {| worker := worker c;
                           requests := map_delete (msg_id msg) (requests c);
                           nextCallId := nextCallId c;
                           attached := attached c; posted := posted c |}]>
                (connections w)) w)) (request, o)).
    { intros wn o Ho. unfold settle_pre. cbn. destruct request as [t|i].
      - destruct He as (-> & Hid & task & Htask & Hnf). split; [by exists task|].
        destruct o as [v|e]; [|done]. split; [done|].
        eexists. rewrite list_lookup_insert_eq by (by eapply lookup_lt_Some).
        split; [done|]. cbn. split; [done|]. intros r Hd.
        apply elem_of_map_delete in Hd as [? _]. congruence.
      - unfold entry_ok in He. unfold call_status in *. cbn.
        intros a b Hab. rewrite He in Hab. injection Hab as <- <-.
        split; [done|]. intros c0 r.
        rewrite list_lookup_insert_eq by (by eapply lookup_lt_Some).
        intros [= <-]. cbn. intros Hd.
        by apply elem_of_map_delete in Hd as [? _]. }
    destruct msg as [id m a|id v|id e|ty id]; cbn.
    + apply HC1.
    + eapply settle_Core; [apply HC1|]. apply Hpre. by intros ? [= ->].
    + eapply settle_Core; [apply HC1|]. by apply Hpre.
    + apply HC1.
  - cbn. rewrite app_nil_r. rewrite list_insert_id by done.
    destruct HC as [Hh Hs Ht Hc]. split; unfold_ok; done.
Qed.

Lemma quiet_refl w : quiet w w.
Proof. split; [done|]. split; [done|]. intros t task ??. by exists task. Qed.

Lemma quiet_trans w1 w2 w3 : quiet w1 w2 → quiet w2 w3 → quiet w1 w3.
Proof.
  intros (Hc1 & Hi1 & Ht1) (Hc2 & Hi2 & Ht2). split; [congruence|]. split.
  - intros i a b H. by apply Hi1, Hi2.
  - intros t task H Hnf. destruct (Ht1 _ _ H Hnf) as (task' & ? & ?).
    by eapply Ht2.
Qed.

Lemma resumeCall_quiet r e w i : quiet w (resumeCall r (RequestRejected e) w i).
Proof.
  unfold resumeCall.
  destruct (calls w !! i) as [m|] eqn:Hm; [|apply quiet_refl].
  destruct (status m) as [[r'|]| |] eqn:Hs; try apply quiet_refl.
  destruct (Nat.eqb r' r); [|apply quiet_refl].
  split; [done|]. split; [|intros t task ??; by exists task].
  intros i' a b. unfold call_status. cbn.
  destruct (decide (i' = i)) as [->|Hne].
  - rewrite list_lookup_insert_eq by (by eapply lookup_lt_Some). done.
  - by rewrite list_lookup_insert_ne.
Qed.

Lemma settleRequest_quiet r e w : quiet w (settleRequest r (RequestRejected e) w).
Proof.
  unfold settleRequest. repeat case_match; try apply quiet_refl.
  generalize (seq 0 (length (calls w))). intros l.
  apply (quiet_trans _ (set_promises (<[r:=RequestRejected e]> (promises w)) w)).
  { split; [done|]. split; [done|]. intros t task ??. by exists task. }
  generalize (set_promises (<[r:=RequestRejected e]> (promises w)) w).
  induction l as [|a l IH]; intros w0; simpl; [apply quiet_refl|].
  eapply quiet_trans; [apply resumeCall_quiet|apply IH].
Qed.

Lemma settle_quiet w r e : quiet w (settle w (r, Rejected e)).
Proof.
  unfold settle. cbn. destruct r as [t|i].
  - unfold connectResumed. destruct (tasks w !! t) as [task|] eqn:Htask;
      [|apply quiet_refl].
    eapply quiet_trans; [|apply settleRequest_quiet].
    unfold setTaskStatus. rewrite Htask. split; [done|]. split; [done|].
    intros t' task' Ht' Hnf. cbn. destruct (decide (t' = t)) as [->|Hne].
    + eexists. rewrite list_lookup_insert_eq by (by eapply lookup_lt_Some).
      split; [done|]. done.
    + exists task'. by rewrite list_lookup_insert_ne.
  - destruct (calls w !! i) as [m|] eqn:Hm; [|apply quiet_refl].
    destruct (status m) eqn:Hs; try apply quiet_refl.
    split; [done|]. split; [|intros t task ??; by exists task].
    intros i' a b. unfold call_status. cbn.
    destruct (decide (i' = i)) as [->|Hne].
    + rewrite list_lookup_insert_eq by (by eapply lookup_lt_Some). done.
    + by rewrite list_lookup_insert_ne.
Qed.

Lemma reject_pre_quiet conn w w' r :
  quiet w w' → reject_pre conn w r → reject_pre conn w' r.
Proof.
  intros (Hc & Hi & Ht). destruct r as [t|i]; cbn.
  - intros (task & ? & ?). by eapply Ht.
  - intros H a b Hab. eapply H. by apply Hi.
Qed.

Lemma foldl_settle_rejected_Core conn e (l : list WorkerRequest) w :
  Core w →
  (∀ c, connections w !! conn = Some c → requests c = []) →
  (∀ r, r ∈ l → reject_pre conn w r) →
  Core (foldl settle w (map (λ r, (r, Rejected e)) l)).
Proof.
  revert w. induction l as [|r l IH]; intros w HC Hempty Hpre; simpl; [done|].
  pose proof (settle_quiet w r e) as Hq.
  apply IH.
  - eapply settle_Core; [done|]. unfold settle_pre. cbn.
    specialize (Hpre r (list_elem_of_here _ _)). destruct r as [t|i]; cbn in *.
    + done.
    + intros a b Hab. split; [by eapply Hpre|].
      intros c r' Hc. rewrite (Hempty _ Hc). apply not_elem_of_nil.
  - destruct Hq as (-> & _). done.
  - intros r' Hr'. eapply reject_pre_quiet; [done|]. apply Hpre. by right.
Qed.

Lemma workerError_Core conn e w : Core w → Core (workerError conn e w).
Proof.
  intros HC. unfold workerError.
  destruct (connections w !! conn) as [c|] eqn:Hconn; [|done].
  destruct (attached c) eqn:Hatt; [|done].
  unfold onError.
  pose proof (table_Core conn c [] (warnings w) w Hconn) as HC1.
  apply (foldl_settle_rejected_Core conn).
  - apply HC1; [|done]. intros ? []%elem_of_nil.
  - cbn. intros c0. rewrite list_lookup_insert_eq by (by eapply lookup_lt_Some).
    by intros [= <-].
  - intros r [[id r'] [-> Hin]]%list_elem_of_fmap. cbn.
    pose proof (core_connections _ HC) as (_ & Hc).
    destruct (Hc _ _ Hconn) as (_ & _ & He). specialize (He _ _ Hin).
    destruct r' as [t|i]; cbn in *.
    + destruct He as (_ & _ & ?). done.
    + intros a b. unfold call_status in *. cbn. rewrite He. by intros [= <- <-].
Qed.

Lemma count_ok_alt w :
  count_ok w ↔
  (_instance w = None → _refCount w = 0%Z)
  ∧ (if committed (the_state w) then (0 < _refCount w)%Z
     else (_refCount w <= 0)%Z).
Proof. unfold count_ok. by destruct (the_state w). Qed.

Lemma tryConnect_state w :
  Core w → _instance w ≠ None →
  _refCount (tryConnect w).2 = _refCount w
  ∧ _instance (tryConnect w).2 ≠ None
  ∧ committed (the_state (tryConnect w).2) = committed (the_state w)
  ∧ the_state (tryConnect w).2 =
      match the_state w with
      | Disconnected => Blocked (length (promises w)) (length (controllers w))
      | Ready r k => Connecting r k
      | s => s
      end.
Proof.
  intros [Hh Hs Ht Hc] Hi. unfold tryConnect.
  destruct (the_state w) as [|r k|r k|r k|c k] eqn:Hst; cbn; try done;
    open_world w; simplify_eq; try done.
  destruct Hs as (Hp & Hk & Hfresh).
  unfold connect, is_aborted. cbn. rewrite Hk. done.
Qed.

Lemma ready_state w :
  Core w → _instance w ≠ None →
  _refCount (ready w) = _refCount w
  ∧ _instance (ready w) ≠ None
  ∧ committed (the_state (ready w)) = true
  ∧ the_state (ready w) =
      match the_state w with
      | Disconnected => Ready (length (promises w)) (length (controllers w))
      | Blocked r k => Connecting r k
      | s => s
      end.
Proof.
  intros HC Hi. unfold ready.
  destruct (the_state w) as [|r k|r k|r k|c k] eqn:Hst; cbn.
  1, 3, 4, 5: by (rewrite ?Hst; open_world w; simplify_eq).
  - assert (HC' : Core (set_state (Ready r k) w)).
    { destruct HC as [Hh Hs Ht Hc].
      open_world w; simplify_eq. split; unfold_ok; cbn; try done.
      destruct Ht as (Hl & Ht & Hu). split; [done|]. split; [|done].
      intros t task Htask. destruct (Ht t task Htask) as (? & ? & ? & Hab).
      split; [done|]. split; [done|]. split; [done|]. intros Hna.
      destruct (Hab Hna) as [[? _]|[? _]]; done. }
    assert (Hi' : _instance (set_state (Ready r k) w) ≠ None).
    { unfold set_state. by destruct (_instance w). }
    destruct (tryConnect_state _ HC' Hi') as (Hr & Hin & Hcm & Hs').
    rewrite the_state_set_state in Hs' by done.
    split; [|by rewrite Hs'].
    rewrite Hr. unfold set_state. by destruct (_instance w).
Qed.

Lemma disconnect_state w :
  _instance w ≠ None →
  _refCount (disconnect w) = _refCount w
  ∧ _instance (disconnect w) ≠ None
  ∧ the_state (disconnect w) = Disconnected.
Proof.
  intros Hi. unfold disconnect, disposeConnection.
  unfold the_state, set_state. destruct (_instance w) as [[[] ? ? ?]|] eqn:Hp;
    try done; cbn; rewrite ?Hp; try done.
  destruct (connections w !! connection); cbn; rewrite Hp; done.
Qed.

Lemma settle_state w s :
  Core w →
  _refCount (settle w s) = _refCount w
  ∧ (_instance (settle w s) = None ↔ _instance w = None)
  ∧ committed (the_state (settle w s)) = committed (the_state w).
Proof.
  intros HC. destruct s as [[t|i] o]; unfold settle; cbn.
  - unfold connectResumed. destruct (tasks w !! t) as [task|] eqn:Htask; [|done].
    assert (Hset : ∀ st w0, _refCount (settleRequest (task_request task) st w0)
                             = _refCount w0
         ∧ _instance (settleRequest (task_request task) st w0) = _instance w0).
    { intros st w0. pose proof (settleRequest_reacts (task_request task) st w0) as H.
      split; [apply (re_refCount _ _ H)|apply (re_instance _ _ H)]. }
    assert (Hts : ∀ s0 w0, _refCount (setTaskStatus t s0 w0) = _refCount w0
         ∧ _instance (setTaskStatus t s0 w0) = _instance w0).
    { intros. unfold setTaskStatus. by destruct (tasks w0 !! t). }
    assert (Hdc : ∀ c w0, _refCount (disposeConnection c w0) = _refCount w0
         ∧ _instance (disposeConnection c w0) = _instance w0).
    { intros. unfold disposeConnection. by destruct (connections w0 !! c). }
    destruct o as [v|e].
    + destruct (is_aborted (task_controller task) w) eqn:Hab.
      * unfold the_state.
        rewrite !(proj1 (Hset _ _)), !(proj2 (Hset _ _)),
          !(proj1 (Hts _ _)), !(proj2 (Hts _ _)),
          !(proj1 (Hdc _ _)), !(proj2 (Hdc _ _)). done.
      * pose proof (core_tasks _ HC) as (_ & Ht & _).
        destruct (Ht _ _ Htask) as (_ & _ & _ & Hst). specialize (Hst Hab).
        assert (Hcm : committed (the_state w) = true).
        { destruct Hst as [[-> _]|[-> _]]; done. }
        assert (Hi : _instance w ≠ None).
        { apply the_state_instance. by destruct (the_state w). }
        unfold the_state.
        rewrite !(proj1 (Hset _ _)), !(proj2 (Hset _ _)).
        unfold set_state.
        rewrite !(proj2 (Hts _ _)).
        destruct (_instance w) as [p|] eqn:Hp; [|done]. cbn.
        rewrite !(proj1 (Hts _ _)). unfold the_state in Hcm. rewrite Hp in Hcm.
        done.
    + unfold the_state.
      rewrite !(proj1 (Hset _ _)), !(proj2 (Hset _ _)),
        !(proj1 (Hts _ _)), !(proj2 (Hts _ _)). done.
  - destruct (calls w !! i) as [m|]; [|done]. by destruct (status m).
Qed.

Lemma foldl_settle_rejected_state conn e (l : list WorkerRequest) w :
  Core w →
  (∀ c, connections w !! conn = Some c → requests c = []) →
  (∀ r, r ∈ l → reject_pre conn w r) →
  let w' := foldl settle w (map (λ r, (r, Rejected e)) l) in
  _refCount w' = _refCount w
  ∧ (_instance w' = None ↔ _instance w = None)
  ∧ committed (the_state w') = committed (the_state w).
Proof.
  revert w. induction l as [|r l IH]; intros w HC Hempty Hpre; simpl; [done|].
  pose proof (settle_quiet w r e) as Hq.
  destruct (settle_state w (r, Rejected e) HC) as (H1 & H2 & H3).
  destruct (IH (settle w (r, Rejected e))) as (H4 & H5 & H6).
  - eapply settle_Core; [done|]. unfold settle_pre. cbn.
    specialize (Hpre r (list_elem_of_here _ _)). destruct r as [t|i]; cbn in *.
    + done.
    + intros a b Hab. split; [by eapply Hpre|].
      intros c r' Hc. rewrite (Hempty _ Hc). apply not_elem_of_nil.
  - destruct Hq as (-> & _). done.
  - intros r' Hr'. eapply reject_pre_quiet; [done|]. apply Hpre. by right.
  - split; [congruence|]. split; [|congruence]. by rewrite H5.
Qed.

Lemma forwardingCall_state m a w :
  Core w → _instance w ≠ None →
  _refCount (forwardingCall m a w).2 = _refCount w
  ∧ _instance (forwardingCall m a w).2 ≠ None
  ∧ committed (the_state (forwardingCall m a w).2) = committed (the_state w)
  ∧ the_state (forwardingCall m a w).2 = the_state (tryConnect w).2.
Proof.
  intros HC Hi. unfold forwardingCall.
  destruct (tryConnect_state w HC Hi) as (Hr & Hin & Hcm & _).
  destruct (tryConnect w) as [target w1]. cbn in *.
  set (w2 := set_calls _ w1).
  assert (Hre : ∀ w3, reacts w2 w3 →
    _refCount w3 = _refCount w ∧ _instance w3 ≠ None
    ∧ committed (the_state w3) = committed (the_state w)
    ∧ the_state w3 = the_state w1).
  { intros w3 H. rewrite (the_state_reacts _ _ H).
    rewrite (re_refCount _ _ H), (re_instance _ _ H). done. }
  destruct target as [r|conn k].
  - change (promises w2) with (promises w1). destruct (promises w1 !! r).
    + apply Hre, resumeCall_reacts.
    + apply Hre, reacts_refl.
  - apply Hre, forward_reacts.
Qed.

Lemma workerMessage_state conn msg w :
  Core w →
  _refCount (workerMessage conn msg w) = _refCount w
  ∧ (_instance (workerMessage conn msg w) = None ↔ _instance w = None)
  ∧ committed (the_state (workerMessage conn msg w)) = committed (the_state w).
Proof.
  intros HC. unfold workerMessage.
  destruct (connections w !! conn) as [c|] eqn:Hconn; [|done].
  destruct (attached c) eqn:Hatt; [|done].
  unfold onMessage.
  destruct (map_get (msg_id msg) (requests c)) as [request|] eqn:Hget; [|done].
  assert (HC1 : ∀ wn, Core (set_warnings wn
          (set_connections
             (<[conn := {| worker := worker c;
                           requests := map_delete (msg_id msg) (requests c);
                           nextCallId := nextCallId c;
                           attached := attached c; posted := posted c |}]>
                (connections w)) w))).
  { intros wn. apply table_Core; [done| |done].
    intros [id r] Hd. by apply elem_of_map_delete in Hd as [_ ?]. }
  destruct msg as [id m a|id v|id e|ty id]; cbn; try done.
  - apply (settle_state _ _ (HC1 _)).
  - apply (settle_state _ _ (HC1 _)).
Qed.

Lemma workerError_state conn e w :
  Core w →
  _refCount (workerError conn e w) = _refCount w
  ∧ (_instance (workerError conn e w) = None ↔ _instance w = None)
  ∧ committed (the_state (workerError conn e w)) = committed (the_state w).
Proof.
  intros HC. unfold workerError.
  destruct (connections w !! conn) as [c|] eqn:Hconn; [|done].
  destruct (attached c) eqn:Hatt; [|done].
  unfold onError.
  pose proof (table_Core conn c [] (warnings w) w Hconn) as HC1.
  match goal with |- context [foldl settle ?w0 _] =>
    change (_refCount w) with (_refCount w0);
    change (_instance w) with (_instance w0);
    change (the_state w) with (the_state w0)
  end.
  apply (foldl_settle_rejected_state conn).
  - apply HC1; [|done]. intros ? []%elem_of_nil.
  - cbn. intros c0. rewrite list_lookup_insert_eq by (by eapply lookup_lt_Some).
    by intros [= <-].
  - intros r [[id r'] [-> Hin]]%list_elem_of_fmap. cbn.
    pose proof (core_connections _ HC) as (_ & Hc).
    destruct (Hc _ _ Hconn) as (_ & _ & He). specialize (He _ _ Hin).
    destruct r' as [t|i]; cbn in *.
    + destruct He as (_ & _ & ?). done.
    + intros a b. unfold call_status in *. cbn. rewrite He. by intros [= <- <-].
Qed.

Lemma getMethod_state m w :
  _refCount (getMethod m w).2 = _refCount w
  ∧ _instance (getMethod m w).2 = _instance w
  ∧ ((getMethod m w).1 = None ↔ _instance w = None).
Proof.
  unfold getMethod. destruct (_instance w) as [p|] eqn:Hp; [|by cbn; rewrite Hp].
  destruct (methods p !! m); cbn; rewrite ?Hp; done.
Qed.

Lemma ensureInstance_state w :
  _refCount (ensureInstance w).2 = _refCount w
  ∧ _instance (ensureInstance w).2 ≠ None
  ∧ the_state (ensureInstance w).2 = the_state w.
Proof.
  unfold ensureInstance, the_state. destruct (_instance w) eqn:Hi; cbn; [|done].
  by rewrite Hi.
Qed.

Lemma Inv_init a : Inv (refCountedWorker a).
Proof.
  split; [split|]; unfold_ok; cbn; done.
Qed.

Lemma Inv_step e w : Inv w → Inv (step e w).2.
Proof.
  intros [HC Hcnt]. apply count_ok_alt in Hcnt as [Hnone Hcls].
  destruct e as [| | | |p|f a|m a|conn msg|conn err]; cbn.
  - split; [done|]. by apply count_ok_alt.
  - (* getProxy *)
    unfold getProxy. pose proof (ensureInstance_Core w HC) as HC1.
    destruct (ensureInstance_state w) as (Hr & Hi & Hs).
    destruct (ensureInstance w) as [p w1]. cbn in *.
    split; [done|]. apply count_ok_alt. rewrite Hr, Hs. done.
  - (* acquire *)
    unfold acquire. pose proof (ensureInstance_Core w HC) as HC1.
    destruct (ensureInstance_state w) as (Hr & Hi & Hs).
    destruct (ensureInstance w) as [p w1]. cbn in *.
    pose proof (set_refCount_Core (_refCount w1 + 1) w1 HC1) as HC2.
    set (w2 := set_refCount (_refCount w1 + 1) w1) in *.
    assert (Hi2 : _instance w2 ≠ None) by done.
    destruct (Z.ltb_spec 0 (_refCount w1 + 1)) as [Hpos|Hneg]; cbn.
    + split; [by apply ready_Core|].
      destruct (ready_state w2 HC2 Hi2) as (Hr' & Hi' & Hcm & _).
      apply count_ok_alt. rewrite Hr', Hcm. done.
    + split; [done|]. apply count_ok_alt. split; [done|].
      change (the_state w2) with (the_state w1). rewrite Hs. cbn.
      rewrite Hr in *. destruct (committed (the_state w)); lia.
  - (* release *)
    unfold release. destruct (_instance w) as [p|] eqn:Hp.
    + pose proof (set_refCount_Core (_refCount w - 1) w HC) as HC2. cbn.
      set (w2 := set_refCount (_refCount w - 1) w) in *.
      assert (Hi2 : _instance w2 ≠ None) by (cbn; congruence).
      destruct (Z.leb_spec (_refCount w - 1) 0) as [Hneg|Hpos]; cbn.
      * split; [by apply disconnect_Core|].
        destruct (disconnect_state w2 Hi2) as (Hr' & Hi' & Hs').
        apply count_ok_alt. rewrite Hr', Hs'. done.
      * split; [done|]. apply count_ok_alt. split; [cbn; intros ?; congruence|].
        change (the_state w2) with (the_state w). cbn.
        destruct (committed (the_state w)); lia.
    + split; [done|]. apply count_ok_alt. split; [intros _; by apply Hnone|done].
  - (* proxy[property] *)
    pose proof (getMethod_Core p w HC) as HC1.
    destruct (getMethod_state p w) as (Hr & Hi & _).
    destruct (getMethod p w) as [[f|] w1]; cbn in *.
    all: split; [done|]; apply count_ok_alt; unfold the_state in *;
      rewrite Hr, Hi; done.
  - (* f(...args) *)
    destruct (_instance w) as [p|] eqn:Hp; cbn.
    2:{ split; [done|]. apply count_ok_alt. by rewrite Hp. }
    destruct (functions w !! f) as [name|]; cbn.
    2:{ split; [done|]. apply count_ok_alt. by rewrite Hp. }
    assert (Hi : _instance w ≠ None) by congruence.
    pose proof (forwardingCall_Core name a w HC) as HC1.
    destruct (forwardingCall_state name a w HC Hi) as (Hr & Hi' & Hcm & _).
    destruct (forwardingCall name a w) as [i w1]. cbn in *.
    split; [done|]. apply count_ok_alt. rewrite Hr, Hcm. done.
  - (* proxy.method(...args) *)
    pose proof (getMethod_Core m w HC) as HC1.
    destruct (getMethod_state m w) as (Hr & Hi & Hn).
    destruct (getMethod m w) as [[f|] w1]; cbn in *.
    2:{ split; [done|]. apply count_ok_alt. unfold the_state in *.
        rewrite Hr, Hi. done. }
    assert (Hi1 : _instance w1 ≠ None).
    { rewrite Hi. intros H. by apply Hn in H. }
    pose proof (forwardingCall_Core m a w1 HC1) as HC2.
    destruct (forwardingCall_state m a w1 HC1 Hi1) as (Hr' & Hi' & Hcm & _).
    destruct (forwardingCall m a w1) as [i w2]. cbn in *.
    split; [done|]. apply count_ok_alt. rewrite Hr', Hcm.
    unfold the_state. rewrite Hr, Hi. done.
  - split; [by apply workerMessage_Core|].
    destruct (workerMessage_state conn msg w HC) as (Hr & Hi & Hcm).
    apply count_ok_alt. rewrite Hr, Hcm, Hi. done.
  - split; [by apply workerError_Core|].
    destruct (workerError_state conn err w HC) as (Hr & Hi & Hcm).
    apply count_ok_alt. rewrite Hr, Hcm, Hi. done.
Qed.

Lemma Inv_run es w : Inv w → Inv (run es w).
Proof.
  revert w. induction es as [|e es IH]; intros w Hw; [done|].
  apply IH. by apply Inv_step.
Qed.

(** ** What events never undo *)

Lemma evolves_refl w : evolves w w.
Proof. split; eauto. Qed.

Lemma evolves_trans w1 w2 w3 : evolves w1 w2 → evolves w2 w3 → evolves w1 w3.
Proof.
  intros H1 H2. split.
  - by rewrite (ev_args _ _ H2), (ev_args _ _ H1).
  - intros k Hk. by apply (ev_aborted _ _ H2), (ev_aborted _ _ H1).
  - intros t task Ht. destruct (ev_tasks _ _ H1 _ _ Ht) as (task2 & Ht2 & Hc2).
    destruct (ev_tasks _ _ H2 _ _ Ht2) as (task3 & Ht3 & Hc3).
    exists task3. split; [done|congruence].
  - intros j c Hj. destruct (ev_connections _ _ H1 _ _ Hj) as (c2 & Hj2 & Ha2).
    destruct (ev_connections _ _ H2 _ _ Hj2) as (c3 & Hj3 & Ha3).
    exists c3. split; [done|auto].
Qed.

Lemma reacts_evolves w w' : reacts w w' → evolves w w'.
Proof.
  intros H. split.
  - apply (re_args _ _ H).
  - intros k. by rewrite (is_aborted_reacts _ _ _ H).
  - intros t task Ht. exists task. by rewrite (re_tasks _ _ H).
  - intros j c Hj. destruct (re_connection _ _ H j c Hj) as (c' & ? & Ha & _).
    exists c'. split; [done|congruence].
Qed.

(** Updates of fields that [evolves] does not read. *)
Lemma evolves_same w w' :
  _workerArguments w' = _workerArguments w →
  controllers w' = controllers w → tasks w' = tasks w →
  connections w' = connections w → evolves w w'.
Proof.
  intros Ha Hc Ht Hn. split; unfold is_aborted; rewrite ?Hc, ?Ht, ?Hn; eauto.
Qed.

Lemma set_state_evolves s w : evolves w (set_state s w).
Proof. apply evolves_same; unfold set_state; by destruct (_instance w). Qed.

Lemma makeBlockedState_evolves w : evolves w (makeBlockedState w).2.
Proof.
  split; cbn; eauto. intros k. unfold is_aborted. cbn.
  destruct (controllers w !! k) as [b|] eqn:Hk; [|done].
  by rewrite (lookup_app_l_Some _ _ _ _ Hk).
Qed.

Lemma abort_evolves k w : evolves w (abort k w).
Proof.
  split; cbn; eauto. intros k'. unfold is_aborted. cbn.
  destruct (decide (k' = k)) as [->|Hne].
  - destruct (controllers w !! k) as [b|] eqn:Hk; [|done].
    rewrite list_lookup_insert_eq by (by eapply lookup_lt_Some). done.
  - by rewrite list_lookup_insert_ne.
Qed.

Lemma disposeConnection_evolves c w : evolves w (disposeConnection c w).
Proof.
  unfold disposeConnection.
  destruct (connections w !! c) as [conn|] eqn:Hc; [|apply evolves_refl].
  split; cbn; eauto. intros j c0 Hj. destruct (decide (j = c)) as [->|Hne].
  - rewrite list_lookup_insert_eq by (by eapply lookup_lt_Some). eauto.
  - rewrite list_lookup_insert_ne by done. eauto.
Qed.

Lemma setTaskStatus_evolves t s w : evolves w (setTaskStatus t s w).
Proof.
  unfold setTaskStatus.
  destruct (tasks w !! t) as [task|] eqn:Ht; [|apply evolves_refl].
  split; cbn; eauto. intros t' task' Ht'. destruct (decide (t' = t)) as [->|Hne].
  - rewrite list_lookup_insert_eq by (by eapply lookup_lt_Some).
    eexists. split; [done|]. cbn. congruence.
  - rewrite list_lookup_insert_ne by done. eauto.
Qed.

Lemma connect_evolves r k w : evolves w (connect r k w).
Proof.
  unfold connect. destruct (is_aborted k w).
  - apply reacts_evolves, settleRequest_reacts.
  - split; cbn; eauto.
    + intros t task Ht. exists task. split; [|done]. by apply lookup_app_l_Some.
    + intros j c Hj. exists c. split; [|done]. by apply lookup_app_l_Some.
Qed.

Lemma tryConnect_evolves w : evolves w (tryConnect w).2.
Proof.
  unfold tryConnect. destruct (the_state w); cbn; try apply evolves_refl.
  - eapply evolves_trans; [apply makeBlockedState_evolves|apply set_state_evolves].
  - eapply evolves_trans; [apply connect_evolves|apply set_state_evolves].
Qed.

Lemma ready_evolves w : evolves w (ready w).
Proof.
  unfold ready. destruct (the_state w); cbn; try apply evolves_refl.
  - eapply evolves_trans; [apply makeBlockedState_evolves|apply set_state_evolves].
  - eapply evolves_trans; [apply set_state_evolves|apply tryConnect_evolves].
Qed.

Lemma disconnect_evolves w : evolves w (disconnect w).
Proof.
  unfold disconnect. destruct (the_state w); cbn; try apply evolves_refl.
  1-3: eapply evolves_trans; [apply abort_evolves|apply set_state_evolves].
  eapply evolves_trans; [apply abort_evolves|].
  eapply evolves_trans; [apply disposeConnection_evolves|apply set_state_evolves].
Qed.

Lemma forwardingCall_evolves m a w : evolves w (forwardingCall m a w).2.
Proof.
  unfold forwardingCall. pose proof (tryConnect_evolves w) as H.
  destruct (tryConnect w) as [target w1]. cbn in *.
  eapply evolves_trans; [done|].
  match goal with |- context [set_calls ?l w1] =>
    apply (evolves_trans _ (set_calls l w1)); [by apply evolves_same|]
  end.
  destruct target as [r|conn k]; cbn.
  - destruct (promises w1 !! r); [|apply evolves_refl].
    apply reacts_evolves, resumeCall_reacts.
  - apply reacts_evolves, forward_reacts.
Qed.

Lemma settle_evolves w s : evolves w (settle w s).
Proof.
  destruct s as [[t|i] o]; unfold settle; cbn.
  - unfold connectResumed. destruct (tasks w !! t) as [task|]; [|apply evolves_refl].
    destruct o as [v|e]; [destruct (is_aborted (task_controller task) w)|].
    + eapply evolves_trans; [apply disposeConnection_evolves|].
      eapply evolves_trans; [apply setTaskStatus_evolves|].
      apply reacts_evolves, settleRequest_reacts.
    + eapply evolves_trans; [apply setTaskStatus_evolves|].
      eapply evolves_trans; [apply set_state_evolves|].
      apply reacts_evolves, settleRequest_reacts.
    + eapply evolves_trans; [apply setTaskStatus_evolves|].
      apply reacts_evolves, settleRequest_reacts.
  - destruct (calls w !! i) as [m|]; [|apply evolves_refl].
    destruct (status m); try apply evolves_refl. by apply evolves_same.
Qed.

Lemma foldl_settle_evolves l w : evolves w (foldl settle w l).
Proof.
  revert w. induction l as [|s l IH]; intros w; simpl; [apply evolves_refl|].
  eapply evolves_trans; [apply settle_evolves|apply IH].
Qed.

Lemma table_evolves conn c reqs w :
  connections w !! conn = Some c →
  evolves w (set_connections
               (<[conn := {| worker := worker c; requests := reqs;
                             nextCallId := nextCallId c;
                             attached := attached c; posted := posted c |}]>
                  (connections w)) w).
Proof.
  intros Hc. split; cbn; eauto. intros j c0 Hj.
  destruct (decide (j = conn)) as [->|Hne].
  - rewrite list_lookup_insert_eq by (by eapply lookup_lt_Some).
    eexists. split; [done|]. cbn. congruence.
  - rewrite list_lookup_insert_ne by done. eauto.
Qed.

Lemma workerMessage_evolves conn msg w : evolves w (workerMessage conn msg w).
Proof.
  unfold workerMessage.
  destruct (connections w !! conn) as [c|] eqn:Hc; [|apply evolves_refl].
  destruct (attached c); [|apply evolves_refl].
  unfold onMessage.
  destruct (map_get (msg_id msg) (requests c)) as [request|].
  - assert (H : ∀ wn, evolves w (set_warnings wn (set_connections
       (<[conn := {| worker := worker c;
                     requests := map_delete (msg_id msg) (requests c);
                     nextCallId := nextCallId c;
                     attached := attached c; posted := posted c |}]>
          (connections w)) w))).
    { intros wn. eapply evolves_trans; [by apply table_evolves|].
      by apply evolves_same. }
    destruct msg; cbn; try apply H.
    + eapply evolves_trans; [apply H|]. apply settle_evolves.
    + eapply evolves_trans; [apply H|]. apply settle_evolves.
  - cbn. rewrite list_insert_id by done. by apply evolves_same.
Qed.

Lemma workerError_evolves conn e w : evolves w (workerError conn e w).
Proof.
  unfold workerError.
  destruct (connections w !! conn) as [c|] eqn:Hc; [|apply evolves_refl].
  destruct (attached c); [|apply evolves_refl].
  unfold onError.
  eapply evolves_trans; [by apply (table_evolves conn c [])|].
  apply foldl_settle_evolves.
Qed.

Lemma ensureInstance_evolves w : evolves w (ensureInstance w).2.
Proof.
  unfold ensureInstance. destruct (_instance w); cbn;
    [apply evolves_refl|by apply evolves_same].
Qed.

Lemma step_evolves e w : evolves w (step e w).2.
Proof.
  destruct e as [| | | |p|f a|m a|conn msg|conn err]; cbn.
  - apply evolves_refl.
  - unfold getProxy. pose proof (ensureInstance_evolves w).
    by destruct (ensureInstance w).
  - unfold acquire. pose proof (ensureInstance_evolves w) as H.
    destruct (ensureInstance w) as [inst w1]. cbn [fst snd] in *.
    eapply evolves_trans; [done|].
    apply (evolves_trans _ (set_refCount (_refCount w1 + 1) w1));
      [by apply evolves_same|].
    destruct (0 <? _)%Z; [apply ready_evolves|apply evolves_refl].
  - unfold release. destruct (_instance w); [|apply evolves_refl]. cbn.
    destruct (_refCount w - 1 <=? 0)%Z.
    + eapply evolves_trans; [|apply disconnect_evolves]. by apply evolves_same.
    + by apply evolves_same.
  - unfold getMethod. destruct (_instance w) as [q|]; [|apply evolves_refl].
    destruct (methods q !! p); cbn; [apply evolves_refl|by apply evolves_same].
  - destruct (_instance w); [|apply evolves_refl].
    destruct (functions w !! f); [|apply evolves_refl].
    pose proof (forwardingCall_evolves s a w).
    by destruct (forwardingCall s a w).
  - unfold getMethod. destruct (_instance w) as [q|]; [|apply evolves_refl].
    destruct (methods q !! m).
    + pose proof (forwardingCall_evolves m a w).
      by destruct (forwardingCall m a w).
    + pose proof (forwardingCall_evolves m a (set_functions (functions w ++ [m]) w)).
      destruct (forwardingCall m a _). cbn in *.
      eapply evolves_trans; [|done]. by apply evolves_same.
  - apply workerMessage_evolves.
  - apply workerError_evolves.
Qed.

Lemma run_evolves es w : evolves w (run es w).
Proof.
  revert w. induction es as [|e es IH]; intros w; [apply evolves_refl|].
  eapply evolves_trans; [apply step_evolves|apply IH].
Qed.

(** ** Which calls an event leaves alone *)

Lemma kept_refl i w : kept i w w.
Proof. by intros s. Qed.

Lemma kept_trans i w1 w2 w3 : kept i w1 w2 → kept i w2 w3 → kept i w1 w3.
Proof. intros H1 H2 s Hs Hna. apply H2; [|done]. by apply H1. Qed.

Lemma kept_same i w w' : calls w' = calls w → kept i w w'.
Proof. intros Hc s. unfold call_status. by rewrite Hc. Qed.

Lemma kept_app i m w : kept i w (set_calls (calls w ++ [m]) w).
Proof.
  intros s Hs _. unfold call_status in *. cbn.
  destruct (calls w !! i) as [m'|] eqn:Hm; [|done].
  by rewrite (lookup_app_l_Some _ _ _ _ Hm).
Qed.

Lemma forward_kept i j conn w : i ≠ j → kept i w (forward j conn w).
Proof.
  intros Hne. unfold forward.
  destruct (calls w !! j) as [m|]; [|apply kept_refl].
  destruct (connections w !! conn) as [c|]; [|apply kept_refl].
  intros s Hs _. unfold call_status in *. cbn.
  by rewrite list_lookup_insert_ne.
Qed.

Lemma resumeCall_kept i r st w j : kept i w (resumeCall r st w j).
Proof.
  unfold resumeCall.
  destruct (calls w !! j) as [m|] eqn:Hm; [|apply kept_refl].
  destruct (status m) as [[r'|]| |] eqn:Hs; try apply kept_refl.
  destruct (Nat.eqb r' r); [|apply kept_refl].
  destruct (decide (i = j)) as [->|Hne].
  - intros s Hs' Hna. unfold call_status in Hs'. rewrite Hm in Hs'.
    cbn in Hs'. rewrite Hs in Hs'. injection Hs' as <-. by destruct (Hna (AwaitRequest r')).
  - destruct st as [|conn k|e]; [apply kept_refl|by apply forward_kept|].
    intros s Hs' _. unfold call_status in *. cbn.
    by rewrite list_lookup_insert_ne.
Qed.

Lemma settleRequest_kept i r st w : kept i w (settleRequest r st w).
Proof.
  unfold settleRequest. repeat case_match; try apply kept_refl.
  generalize (seq 0 (length (calls w))). intros l.
  apply (kept_trans _ _ (set_promises (<[r:=st]> (promises w)) w));
    [by apply kept_same|].
  generalize (set_promises (<[r:=st]> (promises w)) w).
  induction l as [|a l IH]; intros w0; simpl; [apply kept_refl|].
  eapply kept_trans; [apply resumeCall_kept|apply IH].
Qed.

Lemma set_state_kept i s w : kept i w (set_state s w).
Proof. apply kept_same. unfold set_state. by destruct (_instance w). Qed.

Lemma connect_kept i r k w : kept i w (connect r k w).
Proof.
  unfold connect. destruct (is_aborted k w);
    [apply settleRequest_kept|by apply kept_same].
Qed.

Lemma tryConnect_kept i w : kept i w (tryConnect w).2.
Proof.
  unfold tryConnect. destruct (the_state w); cbn; try apply kept_refl.
  - eapply kept_trans; [|apply set_state_kept]. by apply kept_same.
  - eapply kept_trans; [apply connect_kept|apply set_state_kept].
Qed.

Lemma ready_kept i w : kept i w (ready w).
Proof.
  unfold ready. destruct (the_state w); cbn; try apply kept_refl.
  - eapply kept_trans; [|apply set_state_kept]. by apply kept_same.
  - eapply kept_trans; [apply set_state_kept|apply tryConnect_kept].
Qed.

Lemma disposeConnection_calls c w : calls (disposeConnection c w) = calls w.
Proof. unfold disposeConnection. by destruct (connections w !! c). Qed.

Lemma setTaskStatus_calls t s w : calls (setTaskStatus t s w) = calls w.
Proof. unfold setTaskStatus. by destruct (tasks w !! t). Qed.

Lemma disconnect_kept i w : kept i w (disconnect w).
Proof.
  unfold disconnect. destruct (the_state w); cbn; try apply kept_refl.
  1-3: eapply kept_trans; [|apply set_state_kept]; by apply kept_same.
  eapply kept_trans; [|apply set_state_kept].
  apply kept_same. by rewrite disposeConnection_calls.
Qed.

Lemma forwardingCall_kept i m a w :
  Core w → is_Some (calls w !! i) → kept i w (forwardingCall m a w).2.
Proof.
  intros HC Hi. unfold forwardingCall.
  pose proof (tryConnect_kept i w) as H.
  pose proof (tryConnect_calls w HC) as Hcalls.
  destruct (tryConnect w) as [target w1]. cbn [fst snd] in *.
  eapply kept_trans; [done|].
  match goal with |- context [set_calls ?l w1] =>
    apply (kept_trans _ _ (set_calls l w1)); [by apply kept_app|]
  end.
  destruct target as [r|conn k]; cbn.
  - destruct (promises w1 !! r); [|apply kept_refl]. apply resumeCall_kept.
  - apply forward_kept. apply lookup_lt_is_Some in Hi. lia.
Qed.

Lemma connectResumed_kept i t o w : kept i w (connectResumed t o w).
Proof.
  unfold connectResumed. destruct (tasks w !! t) as [task|]; [|apply kept_refl].
  destruct o as [v|e]; [destruct (is_aborted (task_controller task) w)|].
  - eapply kept_trans; [|apply settleRequest_kept].
    apply kept_same. by rewrite setTaskStatus_calls, disposeConnection_calls.
  - eapply kept_trans; [|apply settleRequest_kept].
    eapply kept_trans; [|apply set_state_kept].
    apply kept_same. by rewrite setTaskStatus_calls.
  - eapply kept_trans; [|apply settleRequest_kept].
    apply kept_same. by rewrite setTaskStatus_calls.
Qed.

Lemma settle_kept i w s : s.1 ≠ MethodAwait i → kept i w (settle w s).
Proof.
  intros Hne. destruct s as [[t|j] o]; unfold settle; cbn.
  - apply connectResumed_kept.
  - destruct (calls w !! j) as [m|]; [|apply kept_refl].
    destruct (status m); try apply kept_refl.
    intros s Hs _. unfold call_status in *. cbn.
    rewrite list_lookup_insert_ne; [done|]. intros ->. by apply Hne.
Qed.

Lemma foldl_settle_kept i l w :
  (∀ s, s ∈ l → s.1 ≠ MethodAwait i) → kept i w (foldl settle w l).
Proof.
  revert w. induction l as [|s l IH]; intros w Hl; simpl; [apply kept_refl|].
  eapply kept_trans; [apply settle_kept, Hl; left|].
  apply IH. intros s' Hs'. apply Hl. by right.
Qed.

Lemma workerMessage_kept i conn msg w :
  (∀ c, connections w !! conn = Some c → attached c = true →
        map_get (msg_id msg) (requests c) ≠ Some (MethodAwait i)) →
  kept i w (workerMessage conn msg w).
Proof.
  intros Hno. unfold workerMessage.
  destruct (connections w !! conn) as [c|] eqn:Hc; [|apply kept_refl].
  destruct (attached c) eqn:Hatt; [|apply kept_refl].
  specialize (Hno c eq_refl Hatt). unfold onMessage.
  destruct (map_get (msg_id msg) (requests c)) as [request|];
    [|by apply kept_same].
  destruct msg; cbn; try (by apply kept_same).
  - eapply kept_trans; [|apply settle_kept; cbn; congruence]. by apply kept_same.
  - eapply kept_trans; [|apply settle_kept; cbn; congruence]. by apply kept_same.
Qed.

Lemma workerError_kept i conn e w :
  (∀ c, connections w !! conn = Some c → attached c = true →
        ∀ id, (id, MethodAwait i) ∉ requests c) →
  kept i w (workerError conn e w).
Proof.
  intros Hno. unfold workerError.
  destruct (connections w !! conn) as [c|] eqn:Hc; [|apply kept_refl].
  destruct (attached c) eqn:Hatt; [|apply kept_refl].
  specialize (Hno c eq_refl Hatt). unfold onError.
  eapply kept_trans; [|apply foldl_settle_kept].
  - by apply kept_same.
  - intros s [r [-> [[id r'] [-> Hin]]%list_elem_of_fmap]]%list_elem_of_fmap.
    cbn. intros ->. by eapply Hno.
Qed.

(** A call in flight on a disposed connection is left alone by every
    event. *)
Lemma step_kept_detached e w i a b :
  Inv w →
  call_status i w = Some (InFlight a b) →
  (∀ c, connections w !! a = Some c → attached c = false) →
  call_status i (step e w).2 = Some (InFlight a b).
Proof.
  intros [HC _] Hst Hdet.
  assert (Hi : is_Some (calls w !! i)).
  { unfold call_status in Hst. by destruct (calls w !! i). }
  assert (Hentry : ∀ conn c id, connections w !! conn = Some c →
            attached c = true → (id, MethodAwait i) ∉ requests c).
  { intros conn c id Hc Hatt Hin.
    pose proof (core_connections _ HC) as (_ & Hcs).
    destruct (Hcs _ _ Hc) as (_ & _ & He). specialize (He _ _ Hin). cbn in He.
    rewrite Hst in He. injection He as -> ->.
    specialize (Hdet _ Hc). congruence. }
  assert (K : kept i w (step e w).2); [|by apply K].
  destruct e as [| | | |p|f args|m args|conn msg|conn err]; cbn.
  - apply kept_refl.
  - unfold getProxy, ensureInstance. destruct (_instance w); cbn;
      [apply kept_refl|by apply kept_same].
  - unfold acquire.
    assert (H : kept i w (ensureInstance w).2).
    { unfold ensureInstance. destruct (_instance w); cbn;
        [apply kept_refl|by apply kept_same]. }
    destruct (ensureInstance w) as [inst w1]. cbn [fst snd] in *.
    eapply kept_trans; [done|].
    apply (kept_trans _ _ (set_refCount (_refCount w1 + 1) w1));
      [by apply kept_same|].
    destruct (0 <? _)%Z; [apply ready_kept|apply kept_refl].
  - unfold release. destruct (_instance w); [|apply kept_refl].
    apply (kept_trans _ _ (set_refCount (_refCount w - 1) w));
      [by apply kept_same|].
    destruct (_ <=? 0)%Z; [apply disconnect_kept|apply kept_refl].
  - unfold getMethod. destruct (_instance w) as [q|]; [|apply kept_refl].
    destruct (methods q !! p); cbn; [apply kept_refl|by apply kept_same].
  - destruct (_instance w); [|apply kept_refl].
    destruct (functions w !! f) as [name|]; [|apply kept_refl].
    pose proof (forwardingCall_kept i name args w HC Hi).
    by destruct (forwardingCall name args w).
  - pose proof (getMethod_Core m w HC) as HC1.
    assert (H : calls (getMethod m w).2 = calls w).
    { unfold getMethod. destruct (_instance w) as [q|]; [|done].
      by destruct (methods q !! m). }
    destruct (getMethod m w) as [[f|] w1]; cbn [fst snd] in *;
      [|by apply kept_same].
    assert (Hi1 : is_Some (calls w1 !! i)) by by rewrite H.
    pose proof (forwardingCall_kept i m args w1 HC1 Hi1).
    destruct (forwardingCall m args w1). cbn in *.
    eapply kept_trans; [|done]. by apply kept_same.
  - apply workerMessage_kept. intros c Hc Hatt Hget.
    apply map_get_elem_of in Hget. by eapply Hentry.
  - apply workerError_kept. intros c Hc Hatt id. by eapply Hentry.
Qed.

(** ** The worker side *)

Section WorkerSide.
Context {Handler : Type}.
Variable factory : list Value -> Handler + Value.
Variable invoke : Handler -> string -> list Value -> Handler * (Value + Value).

Lemma onmessage_keeps_handler h m :
  is_Some (onmessage factory invoke (Some h) m).1.
Proof.
  destruct m as [id method a| | |]; simpl; eauto.
  destruct (invoke h method a) as [h' [r|e]]; simpl; eauto.
Qed.

Lemma worker_run_initialised h ms :
  is_Some (worker_run factory invoke (Some h) ms).1.
Proof.
  revert h. induction ms as [|m ms IH]; intros h; simpl; [eauto|].
  destruct (onmessage_keeps_handler h m) as [h1 Hh1].
  destruct (onmessage factory invoke (Some h) m) as [o out1]. simpl in Hh1.
  subst o. specialize (IH h1).
  destruct (worker_run factory invoke (Some h1) ms) as [h2 out2]. done.
Qed.

Lemma worker_run_uninitialised ms :
  (worker_run factory invoke None ms).1 = None ↔
  existsb (successful_constructor factory) ms = false.
Proof.
  induction ms as [|m ms IH]; simpl; [done|].
  destruct m as [id method a|id r|id e|ty id]; simpl.
  - destruct (String.eqb method "constructor"); simpl.
    + destruct (factory a) as [h|err]; simpl.
      * pose proof (worker_run_initialised h ms) as [h' Hh'].
        destruct (worker_run factory invoke (Some h) ms) as [h2 out2].
        simpl in *. subst. done.
      * destruct (worker_run factory invoke None ms) as [h2 out2]. done.
    + destruct (worker_run factory invoke None ms) as [h2 out2]. done.
  - destruct (worker_run factory invoke None ms) as [h2 out2]. done.
  - destruct (worker_run factory invoke None ms) as [h2 out2]. done.
  - destruct (worker_run factory invoke None ms) as [h2 out2]. done.
Qed.
End WorkerSide.

(** Before a ["constructor"] call has succeeded, every answer is an error
    envelope. *)
Lemma worker_run_refuses {Handler : Type}
    (factory : list Value -> Handler + Value)
    (invoke : Handler -> string -> list Value -> Handler * (Value + Value))
    (ms : list Message) :
  existsb (successful_constructor factory) ms = false →
  Forall (λ r, ∃ id e, r = Error id e) (worker_run factory invoke None ms).2.
Proof.
  induction ms as [|m ms IH]; intros H; simpl; [constructor|].
  simpl in H. apply orb_false_iff in H as [Hm Hms]. specialize (IH Hms).
  destruct m as [id method a| | |]; simpl in *;
    try (destruct (worker_run factory invoke None ms); exact IH).
  destruct (String.eqb method "constructor"); simpl in Hm.
  - destruct (factory a) as [h|err]; [done|].
    destruct (worker_run factory invoke None ms). simpl in *.
    constructor; eauto.
  - destruct (worker_run factory invoke None ms). simpl in *.
    constructor; eauto.
Qed.

(** C8: on the worker side, as long as no ["constructor"] call has
    succeeded the worker is uninitialised and every answer so far is an
    error envelope; a call whose method is not ["constructor"] is then
    answered with the error envelope of its id and leaves the worker
    uninitialised; a ["constructor"] call hands its arguments to the
    constructor of the connected class: when that returns an instance, the
    call is accepted, the instance becomes the handler and the answer is the
    success envelope of its id with an undefined result; when it throws, the
    answer is the error envelope of its id with what was thrown and the
    worker stays uninitialised; and no other call is accepted in that
    situation. *)
Theorem connectWorker_constructor_first
    {Handler : Type} (factory : list Value -> Handler + Value)
    (invoke : Handler -> string -> list Value -> Handler * (Value + Value))
    (before : list Message) (id : nat) (method : string) (a : list Value) :
  existsb (successful_constructor factory) before = false →
  let handler := (worker_run factory invoke None before).1 in
  handler = None
  ∧ Forall (λ r, ∃ id' e, r = Error id' e)
      (worker_run factory invoke None before).2
  ∧ (method ≠ "constructor" →
     onmessage factory invoke handler (Call id method a)
     = (None, [Error id notInitialized]))
  ∧ (∀ h, factory a = inl h →
       onmessage factory invoke handler (Call id "constructor" a)
       = (Some h, [Success id VUndefined]))
  ∧ (∀ err, factory a = inr err →
       onmessage factory invoke handler (Call id "constructor" a)
       = (None, [Error id err]))
  ∧ (∀ h out,
       onmessage factory invoke handler (Call id method a) = (Some h, out) →
       method = "constructor" ∧ factory a = inl h
       ∧ out = [Success id VUndefined]).
Proof.
  intros Hbefore handler.
  assert (handler = None) as -> by by apply worker_run_uninitialised.
  split; [done|]. split; [by apply worker_run_refuses|].
  split; [|split; [|split]].
  - intros Hm. simpl.
    destruct (String.eqb_spec method "constructor"); [done|done].
  - intros h Hf. simpl. by rewrite Hf.
  - intros err Hf. simpl. by rewrite Hf.
  - intros h out. simpl.
    destruct (String.eqb_spec method "constructor") as [->|]; [|done].
    destruct (factory a) as [h'|err]; [|done].
    by intros [= -> <-].
Qed.

Lemma connectWorker_constructor_first_witness :
  let factory := λ a : list Value,
      match a with [VNumber n] => inl n | _ => inr (VError "bad options") end in
  let invoke := λ (h : Z) (m : string) (a : list Value),
      (h, @inl Value Value (VNumber h)) in
  let before := [Call 1 "add" [VNumber 1]; Call 2 "constructor" []] in
  existsb (successful_constructor factory) before = false
  ∧ (worker_run factory invoke None before).2
    = [Error 1 notInitialized; Error 2 (VError "bad options")]
  ∧ onmessage factory invoke (worker_run factory invoke None before).1
      (Call 3 "add" [VNumber 1; VNumber 2])
    = (None, [Error 3 notInitialized])
  ∧ onmessage factory invoke (worker_run factory invoke None before).1
      (Call 3 "constructor" [VNumber 5])
    = (Some 5%Z, [Success 3 VUndefined])
  ∧ worker_run factory invoke None
      (before ++ [Call 3 "constructor" [VNumber 5]; Call 4 "add" []])
    = (Some 5%Z, [Error 1 notInitialized; Error 2 (VError "bad options");
                  Success 3 VUndefined; Success 4 (VNumber 5)]).
Proof.
  intros factory invoke before.
  assert (H : existsb (successful_constructor factory) before = false)
    by reflexivity.
  split; [exact H|]. split; [reflexivity|].
  destruct (connectWorker_constructor_first factory invoke before 3 "add"
              [VNumber 1; VNumber 2] H) as (_ & _ & Hrefuse & _).
  destruct (connectWorker_constructor_first factory invoke before 3 "add"
              [VNumber 5] H) as (_ & _ & _ & Haccept & _).
  split; [apply Hrefuse; discriminate|].
  split; [exact (Haccept 5%Z eq_refl)|reflexivity].
Defined.

(** ** The handle: one instance, one proxy *)

Lemma step_instance e w :
  Inv w → _instance w ≠ None → _instance (step e w).2 ≠ None.
Proof.
  intros [HC Hcnt] Hi.
  destruct e as [| | | |p|f a|m a|conn msg|conn err]; cbn.
  - done.
  - unfold getProxy. destruct (ensureInstance_state w) as (_ & ? & _).
    by destruct (ensureInstance w).
  - unfold acquire. pose proof (ensureInstance_Core w HC) as HC1.
    destruct (ensureInstance_state w) as (_ & Hi1 & _).
    destruct (ensureInstance w) as [p w1]. cbn in *.
    destruct (0 <? _refCount w1 + 1)%Z; cbn; [|done].
    apply ready_state; [by apply set_refCount_Core|done].
  - unfold release. destruct (_instance w) as [p|] eqn:Hp; [|done]. cbn.
    destruct (_refCount w - 1 <=? 0)%Z; cbn; [|congruence].
    apply disconnect_state. cbn. congruence.
  - destruct (getMethod_state p w) as (_ & Hi1 & _).
    destruct (getMethod p w) as [[f|] w1]; cbn in *; congruence.
  - destruct (_instance w) as [p|] eqn:Hp; [|done]. cbn.
    destruct (functions w !! f) as [name|]; cbn; [|congruence].
    assert (Hi' : _instance w ≠ None) by congruence.
    destruct (forwardingCall_state name a w HC Hi') as (_ & Hi1 & _).
    by destruct (forwardingCall name a w).
  - pose proof (getMethod_Core m w HC) as HC1.
    destruct (getMethod_state m w) as (_ & Hi1 & _).
    destruct (getMethod m w) as [[f|] w1]; cbn in *; [|congruence].
    assert (Hi2 : _instance w1 ≠ None) by congruence.
    destruct (forwardingCall_state m a w1 HC1 Hi2) as (_ & Hi3 & _).
    by destruct (forwardingCall m a w1).
  - destruct (workerMessage_state conn msg w HC) as (_ & Hi1 & _).
    intros H. by apply Hi1 in H.
  - destruct (workerError_state conn err w HC) as (_ & Hi1 & _).
    intros H. by apply Hi1 in H.
Qed.

Lemma run_instance es w :
  Inv w → _instance w ≠ None → _instance (run es w) ≠ None.
Proof.
  revert w. induction es as [|e es IH]; intros w Hw Hi; [done|].
  apply IH; [by apply Inv_step|by apply step_instance].
Qed.

Lemma step_proxy e w p : Inv w → (step e w).1 = OProxy p → p = 0.
Proof.
  intros [[Hh _ _ _] _]. unfold handle_ok in Hh.
  destruct e as [| | | |prop|f a|m a|conn msg|conn err]; cbn; try done.
  - unfold getProxy, ensureInstance. revert Hh.
    destruct (_instance w) as [q|]; cbn; intros Hh [= <-];
      [by destruct Hh as (_ & ? & _)|done].
  - unfold acquire, ensureInstance. revert Hh.
    destruct (_instance w) as [q|]; cbn; intros Hh [= <-];
      [by destruct Hh as (_ & ? & _)|done].
  - by destruct (getMethod prop w) as [[?|] ?].
  - destruct (_instance w); [|done]. destruct (functions w !! f); [|done].
    by destruct (forwardingCall _ a w).
  - destruct (getMethod m w) as [[?|] w1]; [|done].
    by destruct (forwardingCall m a w1).
Qed.

Lemma outputs_proxy es w p : Inv w → OProxy p ∈ outputs es w → p = 0.
Proof.
  revert w. induction es as [|e es IH]; intros w Hw; simpl.
  - by intros ?%elem_of_nil.
  - intros [Hp|Hp]%elem_of_cons.
    + by eapply step_proxy.
    + eapply IH; [|done]. by apply Inv_step.
Qed.

Lemma run_app es1 es2 w : run (es1 ++ es2) w = run es2 (run es1 w).
Proof. unfold run. by rewrite foldl_app. Qed.

(** C10: the callable surface is one stable object.  Over any sequence of
    events (disconnects and reconnects included) every [getProxy()] and
    [acquire()] returns the same proxy object, and the lazy-connection
    instance, once created, is never discarded: it is still there after any
    further events, with the same proxy. *)
Theorem proxy_is_stable (a : list Value) (es more : list Event)
    (p q : nat) (inst : LazyWorkerProxy) :
  OProxy p ∈ outputs es (refCountedWorker a) →
  OProxy q ∈ outputs es (refCountedWorker a) →
  _instance (run es (refCountedWorker a)) = Some inst →
  p = q
  ∧ ∃ inst', _instance (run (es ++ more) (refCountedWorker a)) = Some inst'
             ∧ proxy inst' = proxy inst
             ∧ proxy inst = p.
Proof.
  intros Hp Hq Hinst.
  pose proof (Inv_init a) as H0.
  rewrite (outputs_proxy _ _ _ H0 Hp), (outputs_proxy _ _ _ H0 Hq).
  split; [done|].
  pose proof (Inv_run es _ H0) as H1.
  pose proof (Inv_run more _ H1) as H2.
  assert (Hi : _instance (run es (refCountedWorker a)) ≠ None) by congruence.
  pose proof (run_instance more _ H1 Hi) as Hi2.
  rewrite run_app.
  destruct (_instance (run more (run es (refCountedWorker a)))) as [inst'|] eqn:Hi';
    [|done].
  exists inst'. split; [done|].
  destruct H1 as [[Hh1 _ _ _] _]. destruct H2 as [[Hh2 _ _ _] _].
  unfold handle_ok in *. rewrite Hinst in Hh1. rewrite Hi' in Hh2.
  destruct Hh1 as (_ & -> & _). destruct Hh2 as (_ & -> & _). done.
Qed.

Lemma proxy_is_stable_witness :
  let es := [GetProxy; Acquire; Invoke "add" [VNumber 1; VNumber 2];
             WorkerMessage 0 (Success 1 VUndefined); Release; Acquire] in
  OProxy 0 ∈ outputs es (refCountedWorker [VNumber 1])
  ∧ 0 = 0
  ∧ ∃ inst', _instance (run (es ++ [Release; GetProxy])
                          (refCountedWorker [VNumber 1])) = Some inst'
             ∧ proxy inst' = 0.
Proof.
  intros es.
  assert (H : OProxy 0 ∈ outputs es (refCountedWorker [VNumber 1])).
  { vm_compute. left. }
  split; [exact H|].
  destruct (proxy_is_stable [VNumber 1] es [Release; GetProxy] 0 0
              {| connectionState := Ready 1 1; methods := ∅; proxy := 0;
                 constructorArgs := [VNumber 1] |} H H)
    as (Heq & inst' & Hi & Hp & _).
  { reflexivity. }
  split; [exact Heq|]. exists inst'. split; [exact Hi|exact Hp].
Defined.

(** C9 (the code does not cache): on every reachable world, two successive
    reads of the same method name from the proxy return two different
    forwarding functions, and the [methods] table of the instance is empty. *)
Theorem getMethod_is_not_cached (a : list Value) (es : list Event)
    (name : string) :
  let w := run es (refCountedWorker a) in
  (∀ p, _instance w = Some p → methods p = ∅)
  ∧ ∃ p f1 f2,
      outputs [GetProxy; Get name; Get name] w
      = [OProxy p; OFunction f1; OFunction f2]
      ∧ f1 ≠ f2.
Proof.
  intros w. pose proof (Inv_run es _ (Inv_init a)) as Hw. fold w in Hw.
  split.
  { intros p Hp. destruct Hw as [[Hh _ _ _] _]. unfold handle_ok in Hh.
    rewrite Hp in Hh. by destruct Hh. }
  destruct Hw as [HC _]. pose proof (ensureInstance_Core w HC) as H1.
  cbn [outputs step]. unfold getProxy.
  destruct (ensureInstance_state w) as (_ & Hi & _).
  destruct (ensureInstance w) as [inst w1]. cbn in *.
  destruct H1 as [Hh _ _ _]. unfold handle_ok in Hh.
  destruct (_instance w1) as [q|] eqn:Hq; [|done].
  destruct Hh as (Hm & _).
  unfold getMethod. rewrite Hq, Hm, lookup_empty. cbn. rewrite Hq, Hm, lookup_empty.
  cbn. eexists _, _, _. split; [done|]. rewrite length_app. cbn. lia.
Qed.

(** ** Reference count and state *)

Lemma getState_the_state w : getState w = state_type (the_state w).
Proof. unfold getState, the_state. by destruct (_instance w). Qed.

Lemma state_type_connected s :
  state_type s = "connected" ↔ ∃ c k, s = Connected c k.
Proof.
  destruct s; cbn; split; try done; try (by intros (? & ? & ?)). eauto.
Qed.

Lemma state_controller_live w k :
  Inv w → state_controller (the_state w) = Some k →
  controllers w !! k = Some false.
Proof.
  intros [[_ Hs _ _] _]. unfold state_ok in Hs. revert Hs.
  destruct (the_state w); cbn; intros Hs [= <-]; try done.
  all: tauto.
Qed.

Lemma constructionCompleted_connected w :
  Inv w →
  constructionCompleted w = true ↔ ∃ c k, the_state w = Connected c k.
Proof.
  intros Hw. unfold constructionCompleted. split.
  - destruct (state_controller (the_state w)) as [k|] eqn:Hk; [|done].
    intros (task & Hin & Htask)%existsb_exists.
    apply andb_true_iff in Htask as [Hc%Nat.eqb_eq Hf].
    apply list_elem_of_In, list_elem_of_lookup in Hin as [t Ht].
    pose proof (state_controller_live w k Hw Hk) as Hlive.
    destruct Hw as [[_ _ (_ & Htasks & _) _] _].
    destruct (Htasks t task Ht) as (_ & _ & _ & Hst).
    unfold is_aborted in Hst. rewrite Hc, Hlive in Hst.
    destruct (Hst eq_refl) as [[_ Hnf]|[Hs _]]; [|eauto].
    by destruct (task_status task).
  - intros (c & k & Hs). rewrite Hs. cbn.
    destruct Hw as [[_ Hst _ _] _]. unfold state_ok in Hst. rewrite Hs in Hst.
    destruct Hst as (_ & (task & Ht & Hk & Hf) & _).
    apply existsb_exists. exists task. split.
    + apply list_elem_of_In, list_elem_of_lookup. eauto.
    + rewrite Hk, Hf, Nat.eqb_refl. done.
Qed.

(** C2, as the code has it: on every reachable world the state reported by
    [getState()] is ["connected"] exactly when the reference count is
    positive and the construction of the current attempt has completed; with
    a count of zero or below the state is ["disconnected"] or ["blocked"]
    (a method call was issued), with a positive count it is ["ready"],
    ["connecting"] or ["connected"]; and after acquire, acquire, release the
    connection is still up, the second release takes it down. *)
Theorem state_follows_count (a : list Value) (es : list Event) :
  let w := run es (refCountedWorker a) in
  (getState w = "connected"
   ↔ (0 < _refCount w)%Z ∧ constructionCompleted w = true)
  ∧ ((_refCount w <= 0)%Z →
     getState w = "disconnected" ∨ getState w = "blocked")
  ∧ ((0 < _refCount w)%Z →
     getState w = "ready" ∨ getState w = "connecting"
     ∨ getState w = "connected")
  ∧ let w3 := run [Acquire; Acquire; Invoke "add" [VNumber 1; VNumber 2];
                   WorkerMessage 0 (Success 1 VUndefined); Release]
                (refCountedWorker a) in
    getState w3 = "connected"
    ∧ attached <$> connections w3 !! 0 = Some true
    ∧ getState (run [Release] w3) = "disconnected"
    ∧ attached <$> connections (run [Release] w3) !! 0 = Some false.
Proof.
  intros w. pose proof (Inv_run es _ (Inv_init a)) as Hw. fold w in Hw.
  pose proof (constructionCompleted_connected w Hw) as Hcc.
  destruct Hw as [_ [_ Hcnt]].
  rewrite getState_the_state. split; [|split; [|split]].
  - rewrite state_type_connected, Hcc. split; [|tauto].
    intros (c & k & Hs). split; [|eauto]. by rewrite Hs in Hcnt.
  - intros Hle. destruct (the_state w); cbn; auto; lia.
  - intros Hlt. destruct (the_state w); cbn; auto; lia.
  - vm_compute. done.
Qed.

(** C2, as stated, fails: after a method call on the proxy and no
    [acquire()], the count is zero and the state is ["blocked"], not
    ["disconnected"]. *)
Lemma blocked_at_count_zero :
  let w := run [GetProxy; Invoke "add" [VNumber 111; VNumber 222]]
             (refCountedWorker [VNumber 1]) in
  (_refCount w <= 0)%Z
  ∧ getState w = "blocked"
  ∧ getState w ≠ "disconnected".
Proof. vm_compute. repeat split; discriminate. Qed.

(** ** Unknown envelopes *)

(** C6 (the code removes the entry): an envelope of unknown kind whose id is
    pending is logged, no callback runs, and the pending entry is deleted
    from the table, so the call it belonged to can no longer be settled. *)
Theorem unknown_kind_deletes_pending (c : WorkerConnection) (type : string)
    (id : nat) (request : WorkerRequest) :
  map_get id (requests c) = Some request →
  ∃ c',
    onMessage c (Unknown type id)
    = (c', [], [String.append "Unexpected worker response type: " type])
    ∧ map_get id (requests c') = None
    ∧ ∀ result, onMessage c' (Success id result) = (c', [], []).
Proof.
  intros Hget. unfold onMessage. cbn. rewrite Hget.
  eexists. split; [done|]. cbn. rewrite map_get_delete_eq. done.
Qed.

Lemma unknown_kind_deletes_pending_witness :
  let c := {| worker := 0; requests := [(2, MethodAwait 0)]; nextCallId := 3;
              attached := true; posted := [] |} in
  map_get 2 (requests c) = Some (MethodAwait 0)
  ∧ ∃ c', onMessage c (Unknown "bogus" 2)
          = (c', [], ["Unexpected worker response type: bogus"])
          ∧ map_get 2 (requests c') = None.
Proof.
  intros c. split; [reflexivity|].
  destruct (unknown_kind_deletes_pending c "bogus" 2 (MethodAwait 0) eq_refl)
    as (c' & H1 & H2 & _).
  exists c'. split; [exact H1|exact H2].
Defined.

(** The same on a whole run: the call stays pending although its response
    arrives afterwards. *)
Lemma unknown_kind_scenario (v : Value) :
  let w := run [Acquire; Invoke "add" [VNumber 1; VNumber 2];
                WorkerMessage 0 (Success 1 VUndefined);
                WorkerMessage 0 (Unknown "bogus" 2)]
             (refCountedWorker [VNumber 1]) in
  call_status 0 w = Some (InFlight 0 2)
  ∧ requests <$> connections w !! 0 = Some []
  ∧ warnings w = ["Unexpected worker response type: bogus"]
  ∧ call_status 0 (run [WorkerMessage 0 (Success 2 v)] w)
    = Some (InFlight 0 2).
Proof. vm_compute. done. Qed.

(** ** Release while a call is in flight *)

Lemma call_stuck_forever es w i conn id :
  Inv w →
  call_status i w = Some (InFlight conn id) →
  (∃ c, connections w !! conn = Some c ∧ attached c = false) →
  call_status i (run es w) = Some (InFlight conn id).
Proof.
  revert w. induction es as [|e es IH]; intros w Hw Hst (c & Hc & Hatt); [done|].
  apply IH.
  - by apply Inv_step.
  - apply step_kept_detached; [done|done|]. intros c'. rewrite Hc. by intros [= <-].
  - destruct (ev_connections _ _ (step_evolves e w) _ _ Hc) as (c' & ? & ?).
    exists c'. auto.
Qed.

Lemma release_disposes w c k :
  the_state w = Connected c k → _refCount w = 1%Z →
  (∃ conn, connections w !! c = Some conn) →
  ∃ conn', connections (release w) !! c = Some conn' ∧ attached conn' = false.
Proof.
  intros Hs Hr (conn & Hc). unfold release.
  unfold the_state in Hs. destruct (_instance w) as [p|] eqn:Hp; [|done].
  cbn. rewrite Hr. change (1 - 1 <=? 0)%Z with true. cbn.
  unfold disconnect, the_state. cbn. rewrite Hp, Hs.
  unfold disposeConnection, abort, set_state. cbn. rewrite Hc. cbn. rewrite Hp. cbn.
  rewrite list_lookup_insert_eq by (by eapply lookup_lt_Some). eauto.
Qed.

(** C1 (the code lets the call hang): when [release()] takes the count from
    one to zero while the state is ["connected"], a call that is in flight on
    the connection stays pending over every further sequence of events: it is
    neither rejected with a cancellation error nor settled at all. *)
Theorem release_leaves_call_pending (a : list Value) (es more : list Event)
    (c k i id : nat) :
  let w := run es (refCountedWorker a) in
  the_state w = Connected c k →
  _refCount w = 1%Z →
  call_status i w = Some (InFlight c id) →
  getState (run [Release] w) = "disconnected"
  ∧ call_status i (run (Release :: more) w) = Some (InFlight c id).
Proof.
  intros w Hs Hr Hst.
  pose proof (Inv_run es _ (Inv_init a)) as Hw. fold w in Hw.
  pose proof (Inv_step Release w Hw) as Hw1.
  assert (Hconn : ∃ conn, connections w !! c = Some conn).
  { destruct Hw as [[_ Hso _ _] _]. unfold state_ok in Hso. rewrite Hs in Hso.
    destruct Hso as (_ & _ & (conn & ? & _)). eauto. }
  split.
  - cbn. unfold release.
    assert (Hi : _instance w ≠ None) by (apply the_state_instance; congruence).
    destruct (_instance w) as [p|] eqn:Hp; [|done]. cbn. rewrite Hr.
    change (1 - 1 <=? 0)%Z with true. cbn iota.
    destruct (disconnect_state (set_refCount (1 - 1) w)) as (_ & _ & Hd);
      [cbn; congruence|].
    rewrite getState_the_state, Hd. done.
  - change (run (Release :: more) w) with (run more (step Release w).2).
    apply call_stuck_forever; [done| |].
    + cbn. unfold release.
      destruct (_instance w) as [p|] eqn:Hp; [|done]. cbn. rewrite Hr.
      change (1 - 1 <=? 0)%Z with true. cbn iota.
      by apply disconnect_kept.
    + cbn. by eapply release_disposes.
Qed.

Lemma release_leaves_call_pending_witness :
  let es := [Acquire; Invoke "add" [VNumber 111; VNumber 222];
             WorkerMessage 0 (Success 1 VUndefined)] in
  let w := run es (refCountedWorker [VNumber 1]) in
  the_state w = Connected 0 0
  ∧ _refCount w = 1%Z
  ∧ call_status 0 w = Some (InFlight 0 2)
  ∧ call_status 0
      (run [Release; WorkerMessage 0 (Success 2 (VNumber 333));
            WorkerError 0 (VError "terminated"); Acquire]
         w) = Some (InFlight 0 2).
Proof.
  intros es w.
  assert (H1 : the_state w = Connected 0 0) by reflexivity.
  assert (H2 : _refCount w = 1%Z) by reflexivity.
  assert (H3 : call_status 0 w = Some (InFlight 0 2)) by reflexivity.
  split; [exact H1|]. split; [exact H2|]. split; [exact H3|].
  exact (proj2 (release_leaves_call_pending [VNumber 1] es
           [WorkerMessage 0 (Success 2 (VNumber 333));
            WorkerError 0 (VError "terminated"); Acquire] 0 0 0 2 H1 H2 H3)).
Defined.

(** ** Faults of the worker and errors of one call *)

Lemma settle_in_flight i a b o w :
  call_status i w = Some (InFlight a b) →
  call_status i (settle w (MethodAwait i, o)) = Some (Settled o).
Proof.
  unfold call_status, settle. cbn.
  destruct (calls w !! i) as [m|] eqn:Hm; [|done]. cbn. intros [= Hs].
  rewrite Hs. cbn. rewrite list_lookup_insert_eq by (by eapply lookup_lt_Some).
  done.
Qed.

Lemma settle_settled i o s w :
  call_status i w = Some (Settled o) →
  call_status i (settle w s) = Some (Settled o).
Proof.
  intros Hst. destruct (decide (s.1 = MethodAwait i)) as [Heq|Hne].
  - destruct s as [r o']. cbn in Heq. subst r. unfold settle. cbn.
    unfold call_status in *. destruct (calls w !! i) as [m|] eqn:Hm; [|done].
    cbn in Hst. injection Hst as Hst. rewrite Hst. by rewrite Hm; cbn; rewrite Hst.
  - by apply settle_kept.
Qed.

Lemma foldl_settle_rejects i a b e (l : list WorkerRequest) w :
  (call_status i w = Some (InFlight a b) ∧ MethodAwait i ∈ l)
  ∨ call_status i w = Some (Settled (Rejected e)) →
  call_status i (foldl settle w (map (λ r, (r, Rejected e)) l))
  = Some (Settled (Rejected e)).
Proof.
  revert w. induction l as [|r l IH]; intros w; simpl.
  - intros [[_ []%elem_of_nil]|?]; done.
  - intros [[Hst Hin]|Hst]; apply IH.
    + destruct (decide (r = MethodAwait i)) as [->|Hne].
      * right. by eapply settle_in_flight.
      * left. split.
        -- by apply settle_kept.
        -- apply elem_of_cons in Hin as [?|?]; [congruence|done].
    + right. by apply settle_settled.
Qed.

(** ** Reconnection *)

Lemma run_workerArguments a es :
  _workerArguments (run es (refCountedWorker a)) = a.
Proof. apply (ev_args _ _ (run_evolves es (refCountedWorker a))). Qed.

(** A call made while connected is sent at once on the current connection
    and is fulfilled by the success envelope that carries its id. *)
Lemma invoke_connected w c k conn m args v :
  Inv w → the_state w = Connected c k →
  connections w !! c = Some conn → attached conn = true →
  let i := length (calls w) in
  let id := nextCallId conn in
  call_status i (run [Invoke m args] w) = Some (InFlight c id)
  ∧ call_status i (run [Invoke m args; WorkerMessage c (Success id v)] w)
    = Some (Settled (Fulfilled v)).
Proof.
  intros [[Hh _ _ _] _] Hs Hc Hatt i id. subst i id.
  unfold handle_ok, the_state in *.
  destruct w as [wa [[st me px ca]|] rc pr ct cn tk cl fn wk pxs wn];
    cbn in *; [|done].
  destruct Hh as (-> & _). subst st.
  unfold run, step, getMethod, forwardingCall, tryConnect, the_state, forward.
  cbn. rewrite !lookup_empty. cbn.
  rewrite !(list_lookup_middle cl [] _ (length cl) eq_refl).
  rewrite !Hc. cbn.
  unfold call_status. cbn.
  split.
  - rewrite list_lookup_insert_eq by (rewrite length_app; cbn; lia). done.
  - unfold workerMessage. cbn.
    rewrite list_lookup_insert_eq by (by eapply lookup_lt_Some). cbn.
    rewrite Hatt. unfold onMessage. cbn. rewrite map_get_set_eq. cbn.
    rewrite list_lookup_insert_eq by (rewrite length_app; cbn; lia). cbn.
    rewrite list_lookup_insert_eq
      by (rewrite length_insert, length_app; cbn; lia).
    done.
Qed.


(** ** The moves of the state machine *)

Lemma same_size_refl w : same_size w w.
Proof. done. Qed.

Lemma same_size_trans w1 w2 w3 :
  same_size w1 w2 → same_size w2 w3 → same_size w1 w3.
Proof. intros [] []. split; congruence. Qed.

Lemma reacts_same_size w w' : reacts w w' → same_size w w'.
Proof. intros H. split; [apply (re_workers _ _ H)|apply (re_connections _ _ H)]. Qed.

Lemma set_state_same_size s w : same_size w (set_state s w).
Proof. unfold set_state. by destruct (_instance w). Qed.

Lemma setTaskStatus_same_size t s w : same_size w (setTaskStatus t s w).
Proof. unfold setTaskStatus. by destruct (tasks w !! t). Qed.

Lemma disposeConnection_same_size c w : same_size w (disposeConnection c w).
Proof.
  unfold disposeConnection. destruct (connections w !! c); [|done].
  split; cbn; [done|by rewrite length_insert].
Qed.

Lemma settle_same_size w s : same_size w (settle w s).
Proof.
  destruct s as [[t|i] o]; unfold settle; cbn.
  - unfold connectResumed. destruct (tasks w !! t) as [task|]; [|done].
    destruct o as [v|e]; [destruct (is_aborted (task_controller task) w)|].
    + eapply same_size_trans; [apply disposeConnection_same_size|].
      eapply same_size_trans; [apply setTaskStatus_same_size|].
      apply reacts_same_size, settleRequest_reacts.
    + eapply same_size_trans; [apply setTaskStatus_same_size|].
      eapply same_size_trans; [apply set_state_same_size|].
      apply reacts_same_size, settleRequest_reacts.
    + eapply same_size_trans; [apply setTaskStatus_same_size|].
      apply reacts_same_size, settleRequest_reacts.
  - destruct (calls w !! i) as [m|]; [|done]. by destruct (status m).
Qed.

Lemma foldl_settle_same_size l w : same_size w (foldl settle w l).
Proof.
  revert w. induction l as [|s l IH]; intros w; simpl; [done|].
  eapply same_size_trans; [apply settle_same_size|apply IH].
Qed.

Lemma workerError_same_size conn e w : same_size w (workerError conn e w).
Proof.
  unfold workerError. destruct (connections w !! conn) as [c|]; [|done].
  destruct (attached c); [|done]. unfold onError.
  eapply same_size_trans; [|apply foldl_settle_same_size].
  split; cbn; [done|by rewrite length_insert].
Qed.

Lemma workerMessage_same_size conn msg w :
  same_size w (workerMessage conn msg w).
Proof.
  unfold workerMessage. destruct (connections w !! conn) as [c|]; [|done].
  destruct (attached c); [|done].
  destruct (onMessage c msg) as [[c' settled] warned].
  eapply same_size_trans; [|apply foldl_settle_same_size].
  split; cbn; [done|by rewrite length_insert].
Qed.

Lemma disconnect_same_size w : same_size w (disconnect w).
Proof.
  unfold disconnect. destruct (the_state w); try done.
  1-3: by eapply same_size_trans; [|apply set_state_same_size].
  eapply same_size_trans; [|apply set_state_same_size].
  apply (same_size_trans _ (abort controller w)); [done|].
  apply disposeConnection_same_size.
Qed.

Lemma settle_rejected_state w r e :
  the_state (settle w (r, Rejected e)) = the_state w.
Proof.
  destruct r as [t|i]; unfold settle; cbn.
  - unfold connectResumed. destruct (tasks w !! t) as [task|]; [|done].
    rewrite (the_state_reacts _ _ (settleRequest_reacts _ _ _)).
    apply the_state_setTaskStatus.
  - destruct (calls w !! i) as [m|]; [|done]. by destruct (status m).
Qed.

Lemma workerError_the_state conn e w :
  the_state (workerError conn e w) = the_state w.
Proof.
  unfold workerError. destruct (connections w !! conn) as [c|]; [|done].
  destruct (attached c); [|done]. unfold onError.
  generalize (map snd (requests c)). intros l.
  match goal with |- the_state (foldl settle ?w0 _) = _ =>
    change (the_state w) with (the_state w0); generalize w0 end.
  induction l as [|r l IH]; intros w0; simpl; [done|].
  rewrite IH. apply settle_rejected_state.
Qed.

(** What [tryConnect] does in the state ["ready"]. *)
Lemma tryConnect_ready w r k :
  Core w → the_state w = Ready r k →
  the_state (tryConnect w).2 = Connecting r k
  ∧ workers (tryConnect w).2 = S (workers w)
  ∧ connections (tryConnect w).2 = connections w ++ [first_connection w]
  ∧ promises (tryConnect w).2 = promises w
  ∧ (tryConnect w).1 = AwaitRequest r.
Proof.
  intros [Hh Hs _ _] Hst. unfold tryConnect. rewrite Hst.
  unfold state_ok in Hs. rewrite Hst in Hs. destruct Hs as (_ & Hk & _).
  unfold connect, is_aborted. rewrite Hk. cbn.
  unfold handle_ok in Hh. unfold first_connection, set_state, the_state in *.
  destruct (_instance w) as [p|] eqn:Hp; [|done]. cbn. rewrite Hp. cbn.
  destruct Hh as (_ & _ & _ & ->). done.
Qed.

(** What [tryConnect] does in the other states. *)
Lemma tryConnect_other w :
  (∀ r k, the_state w ≠ Ready r k) →
  same_size w (tryConnect w).2
  ∧ connections (tryConnect w).2 = connections w.
Proof.
  intros Hst. unfold tryConnect.
  destruct (the_state w) as [|r k|r k|r k|c k] eqn:Hs; cbn; try done.
  - unfold set_state. cbn. by destruct (_instance w).
  - by destruct (Hst r k).
Qed.

Lemma resumeCall_pending r w i : resumeCall r RequestPending w i = w.
Proof. unfold resumeCall. by repeat case_match. Qed.

Lemma forwardingCall_ready m a w r k :
  Core w → the_state w = Ready r k →
  the_state (forwardingCall m a w).2 = Connecting r k
  ∧ workers (forwardingCall m a w).2 = S (workers w)
  ∧ connections (forwardingCall m a w).2
    = connections w ++ [first_connection w].
Proof.
  intros HC Hst.
  destruct (tryConnect_ready w r k HC Hst) as (Hs & Hw & Hc & Hp & Ht).
  pose proof (core_state _ HC) as Hso. unfold state_ok in Hso.
  rewrite Hst in Hso. destruct Hso as (Hpend & _).
  unfold forwardingCall. destruct (tryConnect w) as [target w1].
  cbn [fst snd] in *. subst target. cbn. rewrite Hp, Hpend.
  rewrite resumeCall_pending. done.
Qed.

Lemma forwardingCall_other m a w :
  (∀ r k, the_state w ≠ Ready r k) →
  same_size w (forwardingCall m a w).2.
Proof.
  intros Hst. destruct (tryConnect_other w Hst) as (Hsz & _).
  unfold forwardingCall. destruct (tryConnect w) as [target w1].
  cbn [fst snd] in *.
  eapply same_size_trans; [done|].
  match goal with |- context [set_calls ?l w1] =>
    apply (same_size_trans _ (set_calls l w1)); [done|]
  end.
  destruct target as [r|conn k]; cbn.
  - destruct (promises w1 !! r); [|done].
    apply reacts_same_size, resumeCall_reacts.
  - apply reacts_same_size, forward_reacts.
Qed.

Lemma forwardingCall_cases m a w :
  Core w → _instance w ≠ None →
  let w' := (forwardingCall m a w).2 in
  (same_size w w'
   ∧ (the_state w' = the_state w
      ∨ (the_state w = Disconnected
         ∧ ∃ r k, the_state w' = Blocked r k ∨ the_state w' = Ready r k)))
  ∨ (∃ r k, the_state w = Ready r k
            ∧ the_state w' = Connecting r k
            ∧ workers w' = S (workers w)
            ∧ connections w' = connections w ++ [first_connection w]).
Proof.
  intros HC Hi w'. subst w'.
  destruct (the_state w) as [|r k|r k|r k|c k] eqn:Hst.
  3:{ right. exists r, k. split; [done|]. by apply forwardingCall_ready. }
  all: left; (split; [apply forwardingCall_other; intros ??; congruence|]).
  all: destruct (forwardingCall_state m a w HC Hi) as (_ & _ & _ & ->).
  all: destruct (tryConnect_state w HC Hi) as (_ & _ & _ & ->); rewrite Hst.
  - right. split; [done|]. eauto.
  - by left.
  - by left.
  - by left.
Qed.

Lemma settle_fulfilled_state w r v :
  Core w →
  the_state (settle w (r, Fulfilled v)) = the_state w
  ∨ ∃ t task, r = ConnectAwait t ∧ tasks w !! t = Some task
      ∧ is_aborted (task_controller task) w = false
      ∧ the_state (settle w (r, Fulfilled v))
        = Connected (rawConnection task) (task_controller task).
Proof.
  intros HC. destruct r as [t|i]; unfold settle; cbn.
  - unfold connectResumed. destruct (tasks w !! t) as [task|] eqn:Ht; [|by left].
    destruct (is_aborted (task_controller task) w) eqn:Hab;
      rewrite (the_state_reacts _ _ (settleRequest_reacts _ _ _)).
    + left. by rewrite the_state_setTaskStatus, the_state_disposeConnection.
    + right. exists t, task. split; [done|]. split; [done|]. split; [done|].
      apply the_state_set_state.
      pose proof (core_tasks _ HC) as (_ & Htasks & _).
      destruct (Htasks _ _ Ht) as (_ & _ & _ & Hst).
      unfold setTaskStatus. rewrite Ht. cbn.
      apply the_state_instance. destruct (Hst Hab) as [[-> _]|[-> _]]; done.
  - left. destruct (calls w !! i) as [m|]; [|done]. by destruct (status m).
Qed.

(** The ways the state can change in one event.  Either no worker is made
    and the state stays, leaves ["disconnected"] for ["blocked"] or
    ["ready"], becomes ["disconnected"], or becomes ["connected"] on the
    success envelope of the ["constructor"] call; or construction starts. *)
Lemma step_cases e w :
  Inv w →
  let w' := (step e w).2 in
  (same_size w w'
   ∧ (the_state w' = the_state w
      ∨ (the_state w = Disconnected
         ∧ ∃ r k, the_state w' = Blocked r k ∨ the_state w' = Ready r k)
      ∨ the_state w' = Disconnected
      ∨ (∃ r c k v conn,
           e = WorkerMessage c (Success 1 v)
           ∧ the_state w = Connecting r k
           ∧ the_state w' = Connected c k
           ∧ connections w !! c = Some conn
           ∧ map_get 1 (requests conn) = Some (ConnectAwait c))))
  ∨ (∃ r k,
       (the_state w = Ready r k ∨ (the_state w = Blocked r k ∧ e = Acquire))
       ∧ the_state w' = Connecting r k
       ∧ workers w' = S (workers w)
       ∧ connections w' = connections w ++ [first_connection w]).
Proof.
  intros [HC Hcnt] w'. subst w'.
  destruct e as [| | | |p|f a|m a|conn msg|conn err]; cbn [step snd].
  - left. split; [done|by left].
  - (* getProxy *)
    left. unfold getProxy. destruct (ensureInstance_state w) as (_ & _ & Hs).
    assert (Hsz : same_size w (ensureInstance w).2).
    { unfold ensureInstance. by destruct (_instance w). }
    destruct (ensureInstance w) as [inst w1]. cbn in *. split; [done|by left].
  - (* acquire *)
    unfold acquire. pose proof (ensureInstance_Core w HC) as HC1.
    destruct (ensureInstance_state w) as (_ & Hi & Hs).
    assert (Hsz : same_size w (ensureInstance w).2
                  ∧ connections (ensureInstance w).2 = connections w
                  ∧ first_connection (ensureInstance w).2 = first_connection w).
    { unfold ensureInstance. by destruct (_instance w). }
    destruct Hsz as (Hsz & Hcn & Hfc).
    destruct (ensureInstance w) as [inst w1]. cbn [fst snd] in *.
    pose proof (set_refCount_Core (_refCount w1 + 1) w1 HC1) as HC2.
    set (w2 := set_refCount (_refCount w1 + 1) w1) in *.
    change (_refCount w2) with (_refCount w1 + 1)%Z.
    destruct (0 <? _refCount w1 + 1)%Z; cbn [snd]; [|left; split; [done|by left]].
    unfold ready. change (the_state w2) with (the_state w1). rewrite Hs.
    destruct (the_state w) as [|r k|r k|r k|c k] eqn:Hst.
    + left. split.
      { eapply same_size_trans; [done|]. unfold makeBlockedState.
        eapply same_size_trans; [|apply set_state_same_size]. done. }
      right. left. split; [done|]. eexists _, _. right. cbn.
      apply the_state_set_state. done.
    + right. exists r, k. split; [by right|].
      assert (HC3 : Core (set_state (Ready r k) w2)).
      { destruct HC2 as [Hh2 Hs2 Ht2 Hc2].
        assert (Hst2 : the_state w2 = Blocked r k)
          by (change (the_state w2) with (the_state w1); congruence).
        clear -Hh2 Hs2 Ht2 Hc2 Hst2 Hi.
        assert (Hi2 : _instance w2 ≠ None) by done. clearbody w2.
        open_world w2; simplify_eq. split; unfold_ok; cbn; try done.
        destruct Ht2 as (Hl & Ht & Hu). split; [done|]. split; [|done].
        intros t task Htask. destruct (Ht t task Htask) as (? & ? & ? & Hab).
        split; [done|]. split; [done|]. split; [done|]. intros Hna.
        destruct (Hab Hna) as [[? _]|[? _]]; done. }
      assert (Hst3 : the_state (set_state (Ready r k) w2) = Ready r k)
        by (by apply the_state_set_state).
      destruct (tryConnect_ready _ r k HC3 Hst3) as (H1 & H2 & H3 & _).
      split; [done|]. destruct Hsz as [Hwk _].
      assert (Hsame : workers (set_state (Ready r k) w2) = workers w1
                      ∧ connections (set_state (Ready r k) w2) = connections w1
                      ∧ first_connection (set_state (Ready r k) w2)
                        = first_connection w1).
      { unfold set_state. by destruct (_instance w2). }
      destruct Hsame as (E1 & E2 & E3).
      rewrite H2, H3, E1, E2, E3, Hwk, Hcn, Hfc. done.
    + left. split; [done|by left].
    + left. split; [done|by left].
    + left. split; [done|by left].
  - (* release *)
    left. unfold release. destruct (_instance w) as [q|] eqn:Hq;
      [|split; [done|by left]].
    cbn. destruct (_refCount w - 1 <=? 0)%Z; [|split; [done|by left]].
    split.
    + apply (same_size_trans _ (set_refCount (_refCount w - 1) w)); [done|].
      apply disconnect_same_size.
    + right. right. left. apply disconnect_state. cbn. congruence.
  - (* proxy[property] *)
    left. unfold getMethod. destruct (_instance w) as [q|] eqn:Hq;
      [|split; [done|by left]].
    destruct (methods q !! p); cbn; (split; [done|left]);
      unfold the_state; cbn; by rewrite ?Hq.
  - (* f(...args) *)
    destruct (_instance w) as [q|] eqn:Hq; [|left; split; [done|by left]].
    destruct (functions w !! f) as [name|]; [|left; split; [done|by left]].
    assert (Hi : _instance w ≠ None) by congruence.
    pose proof (forwardingCall_cases name a w HC Hi) as H.
    destruct (forwardingCall name a w) as [i w1]. cbn [snd] in *.
    destruct H as [(Hsz & [?|?])|(r & k & ? & ?)].
    + left. split; [done|by left].
    + left. split; [done|]. right. by left.
    + right. exists r, k. split; [by left|done].
  - (* proxy.method(...args) *)
    pose proof (getMethod_Core m w HC) as HC1.
    destruct (getMethod_state m w) as (_ & Hi & Hn).
    assert (Hsame : same_size w (getMethod m w).2
                    ∧ connections (getMethod m w).2 = connections w
                    ∧ first_connection (getMethod m w).2 = first_connection w).
    { unfold getMethod. destruct (_instance w) as [q|]; [|done].
      by destruct (methods q !! m). }
    destruct Hsame as (Hsz & Hcn & Hfc).
    destruct (getMethod m w) as [[f|] w1]; cbn [fst snd] in *.
    2:{ left. split; [done|]. left. unfold the_state. by rewrite Hi. }
    assert (Hi1 : _instance w1 ≠ None).
    { rewrite Hi. intros H. by apply Hn in H. }
    assert (Hs1 : the_state w1 = the_state w)
      by (unfold the_state; by rewrite Hi).
    pose proof (forwardingCall_cases m a w1 HC1 Hi1) as H.
    destruct (forwardingCall m a w1) as [i w2]. cbn [snd] in *.
    rewrite Hs1 in H.
    destruct H as [(Hsz2 & [?|?])|(r & k & ? & ? & Hw & Hc)].
    + left. split; [by eapply same_size_trans|by left].
    + left. split; [by eapply same_size_trans|]. right. by left.
    + right. exists r, k. split; [by left|]. split; [done|].
      destruct Hsz as [Hwk _]. rewrite Hw, Hc, Hwk, Hcn, Hfc. done.
  - (* message of the worker *)
    left. split; [apply workerMessage_same_size|].
    unfold workerMessage. destruct (connections w !! conn) as [c|] eqn:Hc;
      [|by left].
    destruct (attached c) eqn:Hatt; [|by left]. unfold onMessage.
    destruct (map_get (msg_id msg) (requests c)) as [request|] eqn:Hget;
      [|by left].
    assert (HC1 : ∀ wn, Core (set_warnings wn
          (set_connections
             (<[conn := {| worker := worker c;
                           requests := map_delete (msg_id msg) (requests c);
                           nextCallId := nextCallId c;
                           attached := attached c; posted := posted c |}]>
                (connections w)) w))).
    { intros wn. apply table_Core; [done| |done].
      intros [id r] Hd. by apply elem_of_map_delete in Hd as [_ ?]. }
    destruct msg as [id m a|id v|id e|ty id]; cbn [foldl]; try (by left).
    2:{ left. by rewrite settle_rejected_state. }
    destruct (settle_fulfilled_state _ request v (HC1 (warnings w ++ [])))
      as [Hsame|(t & task & -> & Htask & Hab & Hst)]; [by left|].
    cbn in Htask, Hab. cbn [msg_id] in Hget.
    pose proof (core_connections _ HC) as (_ & Hcs).
    destruct (Hcs _ _ Hc) as (_ & _ & He).
    specialize (He _ _ (map_get_elem_of _ _ _ Hget)). cbn in He.
    destruct He as (-> & -> & task' & Htask' & Hnf).
    rewrite Htask in Htask'. injection Htask' as <-.
    pose proof (core_tasks _ HC) as (_ & Htasks & _).
    destruct (Htasks _ _ Htask) as (Hraw & _ & _ & Hstate).
    destruct (Hstate Hab) as [[Hconnecting _]|[_ ?]]; [|done].
    right. right. right.
    exists (task_request task), conn, (task_controller task), v, c.
    rewrite Hraw in Hst. done.
  - left. split; [apply workerError_same_size|].
    left. apply workerError_the_state.
Qed.

(** C4: whenever an event brings the state machine into ["connecting"]
    (from ["ready"], or from ["blocked"] through the ["ready"] that
    [acquire()] passes), the worker factory is called once and one connection
    is added, on the new worker, whose only message so far is the call
    [1] of ["constructor"] with the configured arguments; and the state
    becomes ["connected"] only from ["connecting"], on the success envelope
    of that call [1], received on that connection while the call is still
    pending. *)
Theorem connecting_sends_constructor_first (a : list Value)
    (es : list Event) (e : Event) :
  let w := run es (refCountedWorker a) in
  let w' := (step e w).2 in
  (∀ r k, the_state w' = Connecting r k → the_state w ≠ Connecting r k →
     (the_state w = Ready r k ∨ (the_state w = Blocked r k ∧ e = Acquire))
     ∧ workers w' = S (workers w)
     ∧ connections w'
       = connections w ++
         [{| worker := workers w;
             requests := [(1, ConnectAwait (length (tasks w)))];
             nextCallId := 2;
             attached := true;
             posted := [Call 1 "constructor" a] |}])
  ∧ (∀ c k, the_state w' = Connected c k → the_state w ≠ Connected c k →
     ∃ r v conn,
       e = WorkerMessage c (Success 1 v)
       ∧ the_state w = Connecting r k
       ∧ connections w !! c = Some conn
       ∧ head (posted conn) = Some (Call 1 "constructor" a)
       ∧ map_get 1 (requests conn) = Some (ConnectAwait c)).
Proof.
  intros w w'.
  pose proof (Inv_run es _ (Inv_init a)) as Hw. fold w in Hw.
  pose proof (run_workerArguments a es) as Ha. fold w in Ha.
  pose proof (step_cases e w Hw) as H. cbv zeta in H. fold w' in H.
  split.
  - intros r k Hs' Hs.
    destruct H as [(_ & [H|[(_ & r' & k' & [H|H])|[H|H]]])
                  |(r' & k' & H1 & H2 & H3 & H4)]; try congruence.
    + destruct H as (? & ? & ? & ? & ? & _ & _ & ? & _). congruence.
    + rewrite H2 in Hs'. injection Hs' as <- <-.
      unfold first_connection in H4. rewrite Ha in H4. done.
  - intros c k Hs' Hs.
    destruct H as [(_ & [H|[(_ & r' & k' & [H|H])|[H|H]]])
                  |(r' & k' & H1 & H2 & H3 & H4)]; try congruence.
    destruct H as (r & c' & k' & v & conn & -> & H1 & H2 & H3 & H4).
    rewrite H2 in Hs'. injection Hs' as <- <-.
    exists r, v, conn. repeat (split; [done|]). split; [|done].
    destruct Hw as [[_ _ _ (_ & Hcs)] _].
    destruct (Hcs _ _ H3) as (_ & (rest & ->) & _). by rewrite Ha.
Qed.

Lemma connecting_sends_constructor_first_witness :
  let a := [VNumber 1] in
  let es1 := [GetProxy; Invoke "add" [VNumber 1; VNumber 2]] in
  let es2 := es1 ++ [Acquire] in
  (the_state (run es1 (refCountedWorker a)) = Blocked 0 0
   ∧ the_state (run es2 (refCountedWorker a)) = Connecting 0 0
   ∧ connections (run es2 (refCountedWorker a))
     = [{| worker := 0; requests := [(1, ConnectAwait 0)]; nextCallId := 2;
           attached := true; posted := [Call 1 "constructor" a] |}])
  ∧ (the_state (step (WorkerMessage 0 (Success 1 VUndefined))
                  (run es2 (refCountedWorker a))).2 = Connected 0 0
     ∧ ∃ r v conn,
         WorkerMessage 0 (Success 1 VUndefined) = WorkerMessage 0 (Success 1 v)
         ∧ the_state (run es2 (refCountedWorker a)) = Connecting r 0
         ∧ connections (run es2 (refCountedWorker a)) !! 0 = Some conn
         ∧ head (posted conn) = Some (Call 1 "constructor" a)
         ∧ map_get 1 (requests conn) = Some (ConnectAwait 0)).
Proof.
  intros a es1 es2. split.
  - split; [reflexivity|]. split; [reflexivity|].
    destruct (connecting_sends_constructor_first a es1 Acquire) as [H _].
    destruct (H 0 0) as (_ & _ & Hc); [reflexivity|discriminate|].
    exact Hc.
  - split; [reflexivity|].
    destruct (connecting_sends_constructor_first a es2
                (WorkerMessage 0 (Success 1 VUndefined))) as [_ H].
    apply (H 0 0); [reflexivity|discriminate].
Defined.

(** ** Calls made before [acquire()] *)

Lemma forward_other_call i j c w :
  i ≠ j → calls (forward j c w) !! i = calls w !! i.
Proof.
  intros Hne. unfold forward. destruct (calls w !! j); [|done].
  destruct (connections w !! c); [|done]. cbn. by rewrite list_lookup_insert_ne.
Qed.

Lemma resumeCall_waits i r c k w j :
  i ≠ j → waits_for i r c w →
  waits_for i r c (resumeCall r (RequestFulfilled c k) w j).
Proof.
  intros Hne (Hst & conn & Hc & Hatt).
  pose proof (resumeCall_reacts r (RequestFulfilled c k) w j) as Hre.
  split.
  - unfold call_status in *. unfold resumeCall.
    destruct (calls w !! j) as [m|]; [|done].
    destruct (status m) as [[r'|]| |]; try done.
    destruct (Nat.eqb r' r); [|done]. by rewrite forward_other_call.
  - destruct (re_connection _ _ Hre _ _ Hc) as (conn' & ? & ? & _).
    exists conn'. split; [done|congruence].
Qed.

Lemma resumeCall_sends i r c k w :
  waits_for i r c w →
  sent_on i c (resumeCall r (RequestFulfilled c k) w i).
Proof.
  intros (Hst & conn & Hc & Hatt). unfold call_status in Hst.
  unfold resumeCall, forward.
  destruct (calls w !! i) as [m|] eqn:Hm; [|done]. cbn in Hst.
  injection Hst as Hst. rewrite Hst, Nat.eqb_refl, Hc. cbn.
  exists (nextCallId conn),
    {| worker := worker conn;
       requests := map_set (nextCallId conn) (MethodAwait i) (requests conn);
       nextCallId := S (nextCallId conn);
       attached := attached conn;
       posted := posted conn ++ [Call (nextCallId conn) (methodName m) (args m)] |}.
  unfold call_status. cbn.
  rewrite !list_lookup_insert_eq by (by eapply lookup_lt_Some). cbn.
  rewrite map_get_set_eq. repeat split; try done. lia.
Qed.

Lemma resumeCall_sent i r st w j :
  ∀ c, sent_on i c w → sent_on i c (resumeCall r st w j).
Proof.
  intros c (id & conn & Hst & Hc & Hatt & Hget & Hlt).
  unfold resumeCall.
  destruct (calls w !! j) as [m|] eqn:Hm; [|by exists id, conn].
  destruct (status m) as [[r'|]| |] eqn:Hs; try (by exists id, conn).
  destruct (Nat.eqb r' r); [|by exists id, conn].
  assert (Hne : i ≠ j).
  { intros ->. unfold call_status in Hst. rewrite Hm in Hst. cbn in Hst.
    congruence. }
  destruct st as [|c' k|e]; [by exists id, conn| |].
  - unfold forward. rewrite Hm.
    destruct (connections w !! c') as [conn'|] eqn:Hc'; [|by exists id, conn].
    cbn. unfold call_status in *. cbn.
    destruct (decide (c' = c)) as [->|Hnc].
    + rewrite Hc in Hc'. injection Hc' as <-.
      exists id,
        {| worker := worker conn;
           requests := map_set (nextCallId conn) (MethodAwait j) (requests conn);
           nextCallId := S (nextCallId conn);
           attached := attached conn;
           posted := posted conn ++ [Call (nextCallId conn) (methodName m) (args m)] |}.
      unfold call_status. cbn.
      rewrite list_lookup_insert_ne by done.
      rewrite list_lookup_insert_eq by (by eapply lookup_lt_Some). cbn.
      rewrite map_get_set_ne by lia. repeat split; try done. lia.
    + exists id, conn. unfold call_status. cbn.
      rewrite !list_lookup_insert_ne by done. done.
  - exists id, conn. unfold call_status in *. cbn.
    rewrite list_lookup_insert_ne by done. done.
Qed.

Lemma foldl_resumeCall_sent i r st c l w :
  sent_on i c w → sent_on i c (foldl (resumeCall r st) w l).
Proof.
  revert w. induction l as [|j l IH]; intros w H; simpl; [done|].
  by apply IH, resumeCall_sent.
Qed.

Lemma foldl_resumeCall_sends i r c k l w :
  i ∈ l → waits_for i r c w →
  sent_on i c (foldl (resumeCall r (RequestFulfilled c k)) w l).
Proof.
  revert w. induction l as [|j l IH]; intros w Hin Hw; simpl.
  - by apply elem_of_nil in Hin.
  - destruct (decide (i = j)) as [<-|Hne].
    + by apply foldl_resumeCall_sent, resumeCall_sends.
    + apply IH; [|by apply resumeCall_waits].
      apply elem_of_cons in Hin as [?|?]; [done|done].
Qed.

(** The success envelope of a sent call fulfils it. *)
Lemma success_fulfils i c id v w :
  call_status i w = Some (InFlight c id) →
  (∃ conn, connections w !! c = Some conn ∧ attached conn = true
           ∧ map_get id (requests conn) = Some (MethodAwait i)) →
  call_status i (workerMessage c (Success id v) w)
  = Some (Settled (Fulfilled v)).
Proof.
  intros Hst (conn & Hc & Hatt & Hget).
  unfold workerMessage. rewrite Hc, Hatt. unfold onMessage. cbn [msg_id].
  rewrite Hget. cbn [foldl]. by apply (settle_in_flight i c id).
Qed.

(** [acquire()] at count zero with a blocked call starts construction. *)
Lemma acquire_blocked w r k :
  Inv w → the_state w = Blocked r k → _refCount w = 0%Z →
  let w1 := (step Acquire w).2 in
  the_state w1 = Connecting r k
  ∧ workers w1 = S (workers w)
  ∧ connections w1 = connections w ++ [first_connection w]
  ∧ calls w1 = calls w
  ∧ promises w1 = promises w
  ∧ controllers w1 = controllers w
  ∧ tasks w1 = tasks w ++ [{| task_request := r; task_controller := k;
                              rawConnection := length (connections w);
                              task_status := TaskPending |}].
Proof.
  intros [[Hh Hs _ _] _] Hst Hr. unfold state_ok in Hs. rewrite Hst in Hs.
  destruct Hs as (_ & Hk & _). unfold handle_ok, the_state in *.
  destruct w as [wa [[st me px ca]|] rc pr ct cn tk cl fn wk pxs wn];
    cbn in *; [|done].
  destruct Hh as (_ & _ & _ & ->). subst st rc.
  unfold first_connection, acquire, ensureInstance, ready, the_state. cbn.
  unfold tryConnect, the_state. cbn. unfold connect, is_aborted. cbn.
  rewrite Hk. cbn. done.
Qed.

(** The success envelope of the ["constructor"] call connects and sends the
    calls that wait for the connection. *)
Lemma constructed_sends w r k c t i v :
  _instance w ≠ None →
  connections w !! c
  = Some {| worker := c; requests := [(1, ConnectAwait t)]; nextCallId := 2;
            attached := true;
            posted := [Call 1 "constructor" (_workerArguments w)] |} →
  tasks w !! t = Some {| task_request := r; task_controller := k;
                         rawConnection := c; task_status := TaskPending |} →
  controllers w !! k = Some false →
  promises w !! r = Some RequestPending →
  call_status i w = Some (AwaitingConnection (AwaitRequest r)) →
  let w2 := workerMessage c (Success 1 v) w in
  the_state w2 = Connected c k ∧ sent_on i c w2.
Proof.
  intros Hi Hc Ht Hk Hp Hst w2. subst w2.
  unfold workerMessage. rewrite Hc. cbn [attached]. unfold onMessage.
  cbn [msg_id requests map_get Nat.eqb foldl]. unfold settle.
  cbn [fst snd]. unfold connectResumed. cbn [tasks set_warnings set_connections].
  rewrite Ht. cbn [task_controller task_request rawConnection].
  unfold is_aborted. cbn [controllers set_warnings set_connections].
  rewrite Hk. change (default false (Some false)) with false. cbv iota.
  match goal with |- context [settleRequest r ?st ?w0] =>
    set (w0' := w0); set (st' := st)
  end.
  assert (Hs0 : the_state w0' = Connected c k).
  { apply the_state_set_state. unfold setTaskStatus. cbn. rewrite Ht. cbn. done. }
  assert (Hp0 : promises w0' !! r = Some RequestPending).
  { unfold w0', set_state, setTaskStatus. cbn. rewrite Ht. cbn.
    by destruct (_instance w). }
  assert (Hcalls : calls w0' = calls w).
  { unfold w0', set_state, setTaskStatus. cbn. rewrite Ht. cbn.
    by destruct (_instance w). }
  assert (Hconn : connections w0' !! c
            = Some {| worker := c; requests := []; nextCallId := 2;
                      attached := true;
                      posted := [Call 1 "constructor" (_workerArguments w)] |}).
  { unfold w0', set_state, setTaskStatus. cbn. rewrite Ht. cbn.
    destruct (_instance w); cbn;
      by rewrite list_lookup_insert_eq by (by eapply lookup_lt_Some). }
  split.
  - by rewrite (the_state_reacts _ _ (settleRequest_reacts _ _ _)).
  - unfold settleRequest. rewrite Hp0.
    apply foldl_resumeCall_sends.
    + rewrite Hcalls. apply elem_of_seq. unfold call_status in Hst.
      destruct (calls w !! i) eqn:Hm; [|done].
      apply lookup_lt_Some in Hm. lia.
    + split.
      * unfold call_status in *. cbn. by rewrite Hcalls.
      * eexists. split; [apply Hconn|done].
Qed.

Lemma step_refCount e w :
  Inv w → e ≠ Acquire → (_refCount (step e w).2 <= _refCount w)%Z.
Proof.
  intros [HC _] He.
  destruct e as [| | | |p|f a|m a|conn msg|conn err]; cbn [step snd]; try done.
  - unfold getProxy. destruct (ensureInstance_state w) as (Hr & _).
    destruct (ensureInstance w). cbn in *. lia.
  - unfold release. destruct (_instance w) as [q|] eqn:Hq; [|done].
    cbn. destruct (_refCount w - 1 <=? 0)%Z; [|cbn; lia].
    destruct (disconnect_state (set_refCount (_refCount w - 1) w)) as (Hr & _);
      [cbn; congruence|].
    rewrite Hr. cbn. lia.
  - destruct (getMethod_state p w) as (Hr & _).
    destruct (getMethod p w) as [[f|] w1]; cbn in *; lia.
  - destruct (_instance w) as [q|] eqn:Hq; [|done].
    destruct (functions w !! f) as [name|]; [|done].
    assert (Hi : _instance w ≠ None) by congruence.
    destruct (forwardingCall_state name a w HC Hi) as (Hr & _).
    destruct (forwardingCall name a w). cbn in *. lia.
  - pose proof (getMethod_Core m w HC) as HC1.
    destruct (getMethod_state m w) as (Hr & Hi & Hn).
    destruct (getMethod m w) as [[f|] w1]; cbn [fst snd] in *; [|lia].
    assert (Hi1 : _instance w1 ≠ None).
    { rewrite Hi. intros H. by apply Hn in H. }
    destruct (forwardingCall_state m a w1 HC1 Hi1) as (Hr' & _).
    destruct (forwardingCall m a w1). cbn in *. lia.
  - destruct (workerMessage_state conn msg w HC) as (Hr & _). lia.
  - destruct (workerError_state conn err w HC) as (Hr & _). lia.
Qed.

Lemma uncommitted_builds_nothing e w :
  Inv w → (_refCount w <= 0)%Z → e ≠ Acquire →
  workers (step e w).2 = workers w.
Proof.
  intros Hw Hr He. pose proof Hw as [_ [_ Hcnt]].
  destruct (step_cases e w Hw) as [([? _] & _)|(r & k & Hst & _)]; [done|].
  destruct Hst as [Hst|[_ ?]]; [|done]. rewrite Hst in Hcnt. lia.
Qed.

Lemma no_acquire_builds_nothing es w :
  Inv w → (_refCount w <= 0)%Z → Acquire ∉ es →
  workers (run es w) = workers w ∧ (_refCount (run es w) <= 0)%Z.
Proof.
  revert w. induction es as [|e es IH]; intros w Hw Hr Hno; [done|].
  apply not_elem_of_cons in Hno as [He Hno].
  destruct (IH (step e w).2) as [H1 H2].
  - by apply Inv_step.
  - pose proof (step_refCount e w Hw ltac:(congruence)). lia.
  - done.
  - change (run (e :: es) w) with (run es (step e w).2).
    split; [|done]. rewrite H1.
    apply uncommitted_builds_nothing; [done|done|congruence].
Qed.

(** C3, as stated, fails: after an earlier [release()] the count is below
    zero, [acquire()] brings it to zero only, and neither construction starts
    nor does the pending call move. *)
Lemma acquire_below_zero_starts_nothing :
  let w := run [GetProxy; Release;
                Invoke "add" [VNumber 111; VNumber 222]; Acquire]
             (refCountedWorker [VNumber 1]) in
  getState w = "blocked"
  ∧ _refCount w = 0%Z
  ∧ workers w = 0
  ∧ connections w = []
  ∧ call_status 0 w = Some (AwaitingConnection (AwaitRequest 0)).
Proof. vm_compute. done. Qed.

(** ** Reconnection: the whole cycle *)

(** [acquire()] at count zero in the state ["disconnected"]. *)
Lemma acquire_disconnected w :
  Inv w → the_state w = Disconnected → _refCount w = 0%Z →
  let w1 := (step Acquire w).2 in
  the_state w1 = Ready (length (promises w)) (length (controllers w))
  ∧ workers w1 = workers w
  ∧ connections w1 = connections w
  ∧ tasks w1 = tasks w
  ∧ calls w1 = calls w
  ∧ _workerArguments w1 = _workerArguments w.
Proof.
  intros _ Hst Hr. unfold the_state in *.
  destruct w as [wa [[st me px ca]|] rc pr ct cn tk cl fn wk pxs wn];
    cbn in *; subst; done.
Qed.

(** A method call in the state ["ready"] starts construction and waits. *)
Lemma invoke_ready w r k m args :
  Inv w → the_state w = Ready r k →
  let w1 := (step (Invoke m args) w).2 in
  the_state w1 = Connecting r k
  ∧ workers w1 = S (workers w)
  ∧ connections w1 = connections w ++ [first_connection w]
  ∧ tasks w1 = tasks w ++ [{| task_request := r; task_controller := k;
                              rawConnection := length (connections w);
                              task_status := TaskPending |}]
  ∧ controllers w1 = controllers w
  ∧ promises w1 = promises w
  ∧ call_status (length (calls w)) w1
    = Some (AwaitingConnection (AwaitRequest r)).
Proof.
  intros [[Hh Hs _ _] _] Hst. unfold state_ok in Hs. rewrite Hst in Hs.
  destruct Hs as (Hp & Hk & _). unfold handle_ok, the_state in *.
  destruct w as [wa [[st me px ca]|] rc pr ct cn tk cl fn wk pxs wn];
    cbn in *; [|done].
  destruct Hh as (-> & _ & _ & ->). subst st.
  unfold first_connection, getMethod. cbn. rewrite lookup_empty. cbn.
  unfold forwardingCall, tryConnect, the_state. cbn.
  unfold connect, is_aborted. cbn. rewrite Hk. cbn. rewrite Hp.
  rewrite resumeCall_pending. unfold call_status. cbn.
  rewrite lookup_app_r, Nat.sub_diag by lia. done.
Qed.

(** C7: a connection is never used again after a disconnect.  From any
    point where the state is ["disconnected"] (whatever happened before, a
    fault of the worker included): whenever the state is ["connected"] later,
    the connection in use did not exist at that point, its worker comes from
    a later call of the factory, it is attached, its first message is the
    ["constructor"] call with the configured arguments, and a call made on
    it is sent and is fulfilled by its success envelope; and at count zero
    the cycle [acquire()], method call calls the factory once more, builds
    one new connection, connects on the success envelope of its
    ["constructor"] call and fulfils the call. *)
Theorem reconnect_builds_fresh_channel (a : list Value)
    (es more : list Event) (c k : nat) (m : string) (args : list Value)
    (v : Value) :
  let w0 := run es (refCountedWorker a) in
  the_state w0 = Disconnected →
  (let w := run more w0 in
   the_state w = Connected c k →
   ∃ conn,
     connections w !! c = Some conn
     ∧ (length (connections w0) <= c)%nat
     ∧ (workers w0 <= worker conn < workers w)%nat
     ∧ attached conn = true
     ∧ head (posted conn) = Some (Call 1 "constructor" a)
     ∧ call_status (length (calls w)) (run [Invoke m args] w)
       = Some (InFlight c (nextCallId conn))
     ∧ call_status (length (calls w))
         (run [Invoke m args;
               WorkerMessage c (Success (nextCallId conn) v)] w)
       = Some (Settled (Fulfilled v)))
  ∧ (_refCount w0 = 0%Z →
     let c' := length (connections w0) in
     let i := length (calls w0) in
     let w1 := run [Acquire; Invoke m args] w0 in
     let w2 := run [WorkerMessage c' (Success 1 VUndefined)] w1 in
     getState w1 = "connecting"
     ∧ workers w1 = S (workers w0)
     ∧ connections w1
       = connections w0 ++
         [{| worker := workers w0;
             requests := [(1, ConnectAwait (length (tasks w0)))];
             nextCallId := 2; attached := true;
             posted := [Call 1 "constructor" a] |}]
     ∧ getState w2 = "connected"
     ∧ ∃ id,
         call_status i w2 = Some (InFlight c' id)
         ∧ call_status i (run [WorkerMessage c' (Success id v)] w2)
           = Some (Settled (Fulfilled v))).
Proof.
  intros w0 Hs0.
  pose proof (Inv_run es _ (Inv_init a)) as Hw0. fold w0 in Hw0.
  pose proof (run_workerArguments a es) as Ha. fold w0 in Ha.
  split.
  - intros w Hs.
    pose proof (Inv_run more _ Hw0) as Hw. fold w in Hw.
    pose proof (run_evolves more w0) as Hev. fold w in Hev.
    pose proof Hw as [[_ Hso (Hlen & Htasks & _) (Hwk & Hcs)] _].
    pose proof Hw0 as [[_ _ (Hlen0 & Htasks0 & _) (Hwk0 & _)] _].
    unfold state_ok in Hso. rewrite Hs in Hso.
    destruct Hso as (Hk & (task & Htask & Hctrl & _) & (conn & Hc & Hatt)).
    exists conn. split; [done|].
    assert (Hfresh : (length (connections w0) <= c)%nat).
    { destruct (decide (length (connections w0) <= c)%nat) as [|Hlt]; [done|].
      exfalso. rewrite <- Hlen0 in Hlt.
      destruct (lookup_lt_is_Some_2 (tasks w0) c) as [task0 Htask0]; [lia|].
      destruct (Htasks0 _ _ Htask0) as (_ & _ & _ & Hab0).
      destruct (is_aborted (task_controller task0) w0) eqn:Hab.
      - destruct (ev_tasks _ _ Hev _ _ Htask0) as (task' & Htask' & Hc').
        rewrite Htask in Htask'. injection Htask' as <-.
        apply (ev_aborted _ _ Hev) in Hab. unfold is_aborted in Hab.
        rewrite <- Hc', Hctrl, Hk in Hab. done.
      - destruct (Hab0 eq_refl) as [[? _]|[? _]]; congruence. }
    destruct (Hcs _ _ Hc) as (Hworker & (rest & Hposted) & _).
    split; [done|]. split.
    { rewrite Hworker, Hwk, Hwk0. split; [done|]. by eapply lookup_lt_Some. }
    split; [done|]. split.
    { rewrite Hposted. by rewrite (ev_args _ _ Hev), Ha. }
    by apply invoke_connected with (k := k).
  - intros Hr c' i w1 w2.
    destruct (acquire_disconnected w0 Hw0 Hs0 Hr)
      as (Hs1 & Hwk1 & Hcn1 & Htk1 & Hcl1 & Ha1).
    pose proof (Inv_step Acquire w0 Hw0) as Hwa.
    set (wa := (step Acquire w0).2) in *.
    destruct (invoke_ready wa _ _ m args Hwa Hs1)
      as (Hs2 & Hwk2 & Hcn2 & Htk2 & Hct2 & Hpr2 & Hcall2).
    change (step (Invoke m args) wa).2 with w1 in *.
    pose proof Hwa as [[_ Hso _ _] _]. unfold state_ok in Hso.
    rewrite Hs1 in Hso. destruct Hso as (Hpend & Hctrl & _).
    pose proof Hw0 as [[_ _ _ (Hwk0 & _)] _].
    assert (Ha2 : _workerArguments w1 = a).
    { unfold w1. by rewrite (ev_args _ _ (run_evolves _ w0)). }
    destruct (constructed_sends w1 (length (promises w0))
                (length (controllers w0)) c' (length (tasks w0)) i VUndefined)
      as [Hs3 Hsent].
    { apply the_state_instance. by rewrite Hs2. }
    { rewrite Hcn2, Hcn1. unfold first_connection.
      rewrite Hwk1, Htk1, Hwk0, Ha1, Ha, Ha2. by apply list_lookup_middle. }
    { rewrite Htk2, Htk1, Hcn1. by apply list_lookup_middle. }
    { by rewrite Hct2. }
    { by rewrite Hpr2. }
    { unfold i. by rewrite <- Hcl1. }
    split; [by rewrite getState_the_state, Hs2|].
    split; [by rewrite Hwk2, Hwk1|].
    split.
    { rewrite Hcn2, Hcn1. unfold first_connection.
      by rewrite Hwk1, Htk1, Ha1, Ha. }
    split.
    { rewrite getState_the_state.
      change (the_state w2)
        with (the_state (workerMessage c' (Success 1 VUndefined) w1)).
      by rewrite Hs3. }
    destruct Hsent as (id & conn & Hstat & Hconn & Hatt & Hget & _).
    exists id. split; [done|]. apply success_fulfils; [done|]. by exists conn.
Qed.

Lemma reconnect_builds_fresh_channel_witness :
  let es := [Acquire; Invoke "add" [VNumber 1; VNumber 2];
             WorkerMessage 0 (Success 1 VUndefined);
             WorkerError 0 (VError "crash"); Release] in
  let more := [Acquire; Invoke "add" [VNumber 1; VNumber 2];
               WorkerMessage 1 (Success 1 VUndefined)] in
  let w0 := run es (refCountedWorker [VNumber 1]) in
  let w := run more w0 in
  the_state w0 = Disconnected
  ∧ _refCount w0 = 0%Z
  ∧ call_status 0 w0 = Some (Settled (Rejected (VError "crash")))
  ∧ the_state w = Connected 1 1
  ∧ (∃ conn, connections w !! 1 = Some conn
      ∧ (1 <= worker conn < 2)%nat
      ∧ call_status 2
          (run [Invoke "add" [VNumber 3; VNumber 4];
                WorkerMessage 1 (Success (nextCallId conn) (VNumber 7))] w)
        = Some (Settled (Fulfilled (VNumber 7))))
  ∧ ∃ id,
      call_status 1
        (run [WorkerMessage 1 (Success id (VNumber 7))]
           (run [WorkerMessage 1 (Success 1 VUndefined)]
              (run [Acquire; Invoke "add" [VNumber 3; VNumber 4]] w0)))
      = Some (Settled (Fulfilled (VNumber 7))).
Proof.
  intros es more w0 w.
  assert (H0 : the_state w0 = Disconnected) by reflexivity.
  assert (Hr : _refCount w0 = 0%Z) by reflexivity.
  assert (H1 : the_state w = Connected 1 1) by reflexivity.
  split; [exact H0|]. split; [exact Hr|]. split; [reflexivity|].
  split; [exact H1|].
  destruct (reconnect_builds_fresh_channel [VNumber 1] es more 1 1 "add"
              [VNumber 3; VNumber 4] (VNumber 7) H0) as [Hfresh Hcycle].
  split.
  - destruct (Hfresh H1) as (conn & Hc & _ & Hworker & _ & _ & _ & Hdone).
    exists conn. split; [exact Hc|]. split; [exact Hworker|exact Hdone].
  - destruct (Hcycle Hr) as (_ & _ & _ & _ & id & _ & Hdone).
    exists id. exact Hdone.
Defined.

(** * Further properties of the code *)

(** ** The worker side over a whole conversation *)

Section WorkerRuns.
Context {Handler : Type}.
Variable factory : list Value -> Handler + Value.
Variable invoke : Handler -> string -> list Value -> Handler * (Value + Value).

Lemma worker_run_app h ms1 ms2 :
  worker_run factory invoke h (ms1 ++ ms2)
  = let '(h1, out1) := worker_run factory invoke h ms1 in
    let '(h2, out2) := worker_run factory invoke h1 ms2 in
    (h2, out1 ++ out2).
Proof.
  revert h. induction ms1 as [|m ms1 IH]; intros h; simpl.
  - by destruct (worker_run factory invoke h ms2).
  - destruct (onmessage factory invoke h m) as [h1 out1].
    rewrite IH. destruct (worker_run factory invoke h1 ms1) as [h2 out2].
    destruct (worker_run factory invoke h2 ms2) as [h3 out3].
    by rewrite app_assoc.
Qed.

Lemma onmessage_ids h m :
  map msg_id (onmessage factory invoke h m).2
  = match m with Call id _ _ => [id] | _ => [] end
  ∧ Forall (λ r, match r with Success _ _ | Error _ _ => True | _ => False end)
      (onmessage factory invoke h m).2.
Proof.
  destruct m as [id method a| | |]; simpl; try (split; [done|constructor]).
  destruct h as [h|].
  - destruct (invoke h method a) as [h' [v|e]]; simpl;
      (split; [done|by repeat constructor]).
  - destruct (String.eqb method "constructor"); [destruct (factory a)|]; simpl;
      (split; [done|by repeat constructor]).
Qed.
End WorkerRuns.

Lemma worker_run_initialised_any {Handler : Type}
    (factory factory' : list Value -> Handler + Value) invoke h ms :
  worker_run factory invoke (Some h) ms = worker_run factory' invoke (Some h) ms.
Proof.
  revert h. induction ms as [|m ms IH]; intros h; [done|].
  simpl. destruct m as [id method a| | |]; simpl; try by rewrite IH.
  destruct (invoke h method a) as [h' [v|e]]; by rewrite IH.
Qed.

(** X1: every call envelope is answered once, by a success or an error
    envelope carrying its id, and nothing else is answered. *)
Theorem worker_answers_each_call {Handler : Type}
    (factory : list Value -> Handler + Value)
    (invoke : Handler -> string -> list Value -> Handler * (Value + Value))
    (handler : option Handler) (ms : list Message) :
  let out := (worker_run factory invoke handler ms).2 in
  map msg_id out
  ≡ₚ omap (λ m, match m with Call id _ _ => Some id | _ => None end) ms
  ∧ Forall (λ r, match r with Success _ _ | Error _ _ => True | _ => False end)
      out.
Proof.
  revert handler. induction ms as [|m ms IH]; intros handler; simpl.
  { split; [done|constructor]. }
  destruct (onmessage_ids factory invoke handler m) as [Hid Hall].
  destruct (onmessage factory invoke handler m) as [h1 out1].
  specialize (IH h1).
  destruct (worker_run factory invoke h1 ms) as [h2 out2]. simpl in *.
  destruct IH as [IH1 IH2]. split.
  - rewrite map_app, Hid, IH1. by destruct m.
  - by apply Forall_app.
Qed.

(** X2: the class is constructed once.  Up to the first ["constructor"] call
    that succeeds the worker stays uninitialised; from then on the instance
    is kept and the constructor of the class plays no part any more: the
    rest of the conversation is the same for any other class constructor. *)
Theorem worker_constructs_once {Handler : Type}
    (factory factory' : list Value -> Handler + Value)
    (invoke : Handler -> string -> list Value -> Handler * (Value + Value))
    (before after : list Message) (id : nat) (a : list Value) (h : Handler) :
  existsb (successful_constructor factory) before = false →
  factory a = inl h →
  worker_run factory invoke None (before ++ Call id "constructor" a :: after)
  = ((worker_run factory' invoke (Some h) after).1,
     (worker_run factory invoke None before).2
     ++ Success id VUndefined :: (worker_run factory' invoke (Some h) after).2)
  ∧ is_Some (worker_run factory' invoke (Some h) after).1.
Proof.
  intros Hbefore Hf. split; [|apply worker_run_initialised].
  rewrite worker_run_app.
  pose proof (proj2 (worker_run_uninitialised factory invoke before) Hbefore) as Hn.
  destruct (worker_run factory invoke None before) as [h0 out0]. simpl in Hn.
  subst h0. simpl. rewrite Hf.
  rewrite (worker_run_initialised_any factory factory').
  by destruct (worker_run factory' invoke (Some h) after).
Qed.

Lemma worker_constructs_once_witness :
  let factory := λ a : list Value,
      match a with [VNumber n] => inl n | _ => inr (VError "bad options") end in
  let factory' := λ a : list Value, @inr Z Value (VError "never") in
  let invoke := λ (h : Z) (m : string) (a : list Value),
      ((h + 1)%Z, @inl Value Value (VNumber h)) in
  worker_run factory invoke None
    ([Call 1 "add" []; Call 2 "constructor" []]
     ++ Call 3 "constructor" [VNumber 5]
     :: [Call 4 "constructor" [VNumber 9]; Call 5 "add" []])
  = (Some 7%Z,
     [Error 1 notInitialized; Error 2 (VError "bad options")]
     ++ Success 3 VUndefined
     :: [Success 4 (VNumber 5); Success 5 (VNumber 6)]).
Proof.
  intros factory factory' invoke.
  exact (proj1 (worker_constructs_once factory factory' invoke
           [Call 1 "add" []; Call 2 "constructor" []]
           [Call 4 "constructor" [VNumber 9]; Call 5 "add" []]
           3 [VNumber 5] 5%Z eq_refl eq_refl)).
Defined.

(** ** The wire *)

Lemma map_delete_keys {V} (k : nat) (m : list (nat * V)) :
  NoDup m.*1 → NoDup (map_delete k m).*1.
Proof.
  induction m as [|[k' v] m IH]; simpl; [done|].
  intros [Hn Hd]%NoDup_cons. destruct (Nat.eqb k' k); [by apply IH|].
  simpl. apply NoDup_cons. split; [|by apply IH].
  intros Hin. apply Hn. apply list_elem_of_fmap in Hin as ([k2 v2] & -> & Hin).
  apply elem_of_map_delete in Hin as [_ Hin].
  apply list_elem_of_fmap. by exists (k2, v2).
Qed.

Lemma map_set_keys {V} (k : nat) (v : V) (m : list (nat * V)) :
  NoDup m.*1 → NoDup (map_set k v m).*1.
Proof.
  induction m as [|[k' v'] m IH]; simpl.
  { intros _. apply NoDup_singleton. }
  intros [Hn Hd]%NoDup_cons. destruct (Nat.eqb_spec k' k) as [->|Hne]; simpl.
  - by apply NoDup_cons.
  - apply NoDup_cons. split; [|by apply IH].
    intros Hin. apply list_elem_of_fmap in Hin as ([k2 v2] & -> & Hin).
    apply elem_of_map_set in Hin as [[= -> ->]|Hin]; [done|].
    apply Hn. apply list_elem_of_fmap. by exists (k2, v2).
Qed.

Lemma wire_ok_new n : wire_ok (newWorkerConnection n).
Proof.
  split; [done|]. split; [|split].
  - intros n0 msg. cbn. by rewrite lookup_nil.
  - intros id r Hin. by apply elem_of_nil in Hin.
  - constructor.
Qed.

Lemma wire_ok_call c m a r : wire_ok c → wire_ok (call c m a r).2.
Proof.
  intros (Hn & Hp & Hr & Hd). split; [|split; [|split]]; cbn.
  - rewrite length_app. cbn. lia.
  - intros n msg Hl. apply lookup_app_Some in Hl as [Hl|[Hge Hl]]; [by apply Hp|].
    apply list_lookup_singleton_Some in Hl as [Hz <-].
    assert (n = length (posted c)) as -> by lia. rewrite <- Hn. eauto.
  - intros id r' H. apply elem_of_map_set in H as [[= -> ->]|Hin]; [lia|].
    destruct (Hr _ _ Hin). lia.
  - by apply map_set_keys.
Qed.

Lemma wire_ok_table c reqs :
  wire_ok c → (∀ e, e ∈ reqs → e ∈ requests c) → NoDup reqs.*1 →
  wire_ok {| worker := worker c; requests := reqs; nextCallId := nextCallId c;
             attached := attached c; posted := posted c |}.
Proof.
  intros (Hn & Hp & Hr & Hd) Hsub Hnd. split; [done|]. split; [done|].
  split; [|done]. intros id r H. cbn in *. apply (Hr _ _ (Hsub _ H)).
Qed.

Lemma wire_ok_dispose c : wire_ok c → wire_ok (dispose c).
Proof. by intros (? & ? & ? & ?). Qed.

(** [Wire] reads the connections and the calls only. *)
Lemma Wire_same w w' :
  connections w' = connections w → calls w' = calls w → Wire w → Wire w'.
Proof.
  intros Hc Hl [H1 H2 H3]. split; unfold flight_ok, flights_differ, call_status;
    rewrite ?Hc, ?Hl; done.
Qed.

Lemma Wire_init a : Wire (refCountedWorker a).
Proof.
  split; unfold flight_ok, flights_differ, call_status; cbn; intros *;
    by rewrite ?lookup_nil.
Qed.

Lemma Wire_in_flight w i c id :
  Wire w → call_status i w = Some (InFlight c id) →
  ∃ conn, connections w !! c = Some conn ∧ 1 ≤ id < nextCallId conn.
Proof.
  intros [H1 H2 _] Hs. unfold call_status in Hs.
  destruct (calls w !! i) as [m|] eqn:Hm; [|done]. cbn in Hs.
  injection Hs as Hs. destruct (H2 _ _ _ _ Hm Hs) as (conn & Hc & Hp).
  exists conn. split; [done|]. destruct (H1 _ _ Hc) as (Hn & Hq & _).
  pose proof (lookup_lt_Some _ _ _ Hp) as Hlt.
  destruct (Hq _ _ Hp) as (? & ? & [= Hid _ _]). lia.
Qed.

Lemma set_state_Wire s w : Wire w → Wire (set_state s w).
Proof. apply Wire_same; unfold set_state; by destruct (_instance w). Qed.

Lemma disposeConnection_Wire c w : Wire w → Wire (disposeConnection c w).
Proof.
  intros H. unfold disposeConnection.
  destruct (connections w !! c) as [conn|] eqn:Hc; [|done].
  destruct H as [H1 H2 H3]. split.
  - cbn. intros j c0 Hj. destruct (decide (j = c)) as [->|Hne].
    + rewrite list_lookup_insert_eq in Hj by (by eapply lookup_lt_Some).
      injection Hj as <-. apply wire_ok_dispose. eauto.
    + rewrite list_lookup_insert_ne in Hj by done. eauto.
  - intros i m c0 id Hm Hs. destruct (H2 _ _ _ _ Hm Hs) as (conn0 & Hc0 & Hp).
    cbn. destruct (decide (c0 = c)) as [->|Hne].
    + rewrite list_lookup_insert_eq by (by eapply lookup_lt_Some).
      eexists. split; [done|]. cbn. congruence.
    + rewrite list_lookup_insert_ne by done. eauto.
  - done.
Qed.

Lemma setTaskStatus_Wire t s w : Wire w → Wire (setTaskStatus t s w).
Proof.
  unfold setTaskStatus. destruct (tasks w !! t); [|done]. by apply Wire_same.
Qed.

Lemma table_Wire conn c reqs w :
  connections w !! conn = Some c →
  (∀ e, e ∈ reqs → e ∈ requests c) → NoDup reqs.*1 →
  Wire w →
  Wire (set_connections
          (<[conn := {| worker := worker c; requests := reqs;
                        nextCallId := nextCallId c;
                        attached := attached c; posted := posted c |}]>
             (connections w)) w).
Proof.
  intros Hc Hsub Hnd [H1 H2 H3]. split.
  - cbn. intros j c0 Hj. destruct (decide (j = conn)) as [->|Hne].
    + rewrite list_lookup_insert_eq in Hj by (by eapply lookup_lt_Some).
      injection Hj as <-. apply wire_ok_table; eauto.
    + rewrite list_lookup_insert_ne in Hj by done. eauto.
  - intros i m c0 id Hm Hs. destruct (H2 _ _ _ _ Hm Hs) as (conn0 & Hc0 & Hp).
    cbn. destruct (decide (c0 = conn)) as [->|Hne].
    + rewrite list_lookup_insert_eq by (by eapply lookup_lt_Some).
      eexists. split; [done|]. cbn. congruence.
    + rewrite list_lookup_insert_ne by done. eauto.
  - done.
Qed.

Lemma forward_Wire i conn w : Wire w → Wire (forward i conn w).
Proof.
  intros H. unfold forward.
  destruct (calls w !! i) as [m|] eqn:Hm; [|done].
  destruct (connections w !! conn) as [c|] eqn:Hc; [|done].
  pose proof H as [H1 H2 H3]. cbn. split.
  - cbn. intros j c0 Hj. destruct (decide (j = conn)) as [->|Hne].
    + rewrite list_lookup_insert_eq in Hj by (by eapply lookup_lt_Some).
      injection Hj as <-.
      apply (wire_ok_call c (methodName m) (args m) (MethodAwait i)). eauto.
    + rewrite list_lookup_insert_ne in Hj by done. eauto.
  - intros j m' c0 id. cbn. intros Hj Hs.
    destruct (decide (j = i)) as [->|Hne].
    + rewrite list_lookup_insert_eq in Hj by (by eapply lookup_lt_Some).
      injection Hj as <-. cbn in Hs. injection Hs as <- <-.
      rewrite list_lookup_insert_eq by (by eapply lookup_lt_Some).
      eexists. split; [done|]. cbn.
      destruct (H1 _ _ Hc) as (Hn & _). rewrite Hn. cbn. rewrite Nat.sub_0_r.
      by rewrite lookup_app_r, Nat.sub_diag by lia.
    + rewrite list_lookup_insert_ne in Hj by done.
      destruct (H2 _ _ _ _ Hj Hs) as (conn0 & Hc0 & Hp).
      destruct (decide (c0 = conn)) as [->|Hne'].
      * rewrite list_lookup_insert_eq by (by eapply lookup_lt_Some).
        eexists. split; [done|]. cbn. rewrite Hc in Hc0. injection Hc0 as <-.
        by apply lookup_app_l_Some.
      * rewrite list_lookup_insert_ne by done. eauto.
  - intros j1 j2 c0 id. unfold call_status. cbn. intros Hs1 Hs2.
    assert (Hold : ∀ j, j ≠ i →
      status <$> <[i:=set_status (InFlight conn (nextCallId c)) m]> (calls w) !! j
      = Some (InFlight c0 id) →
      call_status j w = Some (InFlight c0 id)
      ∧ (c0 = conn → id < nextCallId c)).
    { intros j Hne Hs. rewrite list_lookup_insert_ne in Hs by done.
      split; [done|]. intros ->.
      destruct (Wire_in_flight w j conn id H Hs) as (conn' & Hc' & Hid).
      rewrite Hc in Hc'. injection Hc' as <-. lia. }
    destruct (decide (j1 = i)) as [->|Hne1], (decide (j2 = i)) as [->|Hne2];
      [done| | |].
    + rewrite list_lookup_insert_eq in Hs1 by (by eapply lookup_lt_Some).
      cbn in Hs1. injection Hs1 as <- <-.
      destruct (Hold _ Hne2 Hs2) as [_ Hlt]. specialize (Hlt eq_refl). lia.
    + rewrite list_lookup_insert_eq in Hs2 by (by eapply lookup_lt_Some).
      cbn in Hs2. injection Hs2 as <- <-.
      destruct (Hold _ Hne1 Hs1) as [_ Hlt]. specialize (Hlt eq_refl). lia.
    + destruct (Hold _ Hne1 Hs1) as [? _]. destruct (Hold _ Hne2 Hs2) as [? _].
      eauto.
Qed.

(** A call that leaves the flight. *)
Lemma settled_Wire i m o w :
  calls w !! i = Some m →
  Wire w → Wire (set_calls (<[i := set_status (Settled o) m]> (calls w)) w).
Proof.
  intros Hm [H1 H2 H3]. split; [done| |].
  - intros j m' c id. cbn. intros Hj Hs.
    destruct (decide (j = i)) as [->|Hne].
    + rewrite list_lookup_insert_eq in Hj by (by eapply lookup_lt_Some).
      injection Hj as <-. done.
    + rewrite list_lookup_insert_ne in Hj by done. eauto.
  - intros j1 j2 c id. unfold call_status. cbn. intros Hs1 Hs2.
    destruct (decide (j1 = i)) as [->|Hne1].
    { rewrite list_lookup_insert_eq in Hs1 by (by eapply lookup_lt_Some). done. }
    destruct (decide (j2 = i)) as [->|Hne2].
    { rewrite list_lookup_insert_eq in Hs2 by (by eapply lookup_lt_Some). done. }
    rewrite list_lookup_insert_ne in Hs1, Hs2 by done. eauto.
Qed.

Lemma resumeCall_Wire r st w i : Wire w → Wire (resumeCall r st w i).
Proof.
  intros H. unfold resumeCall. destruct (calls w !! i) as [m|] eqn:Hm; [|done].
  destruct (status m) as [[r'|]| |]; try done.
  destruct (Nat.eqb r' r); [|done]. destruct st; [done| |].
  - by apply forward_Wire.
  - by apply settled_Wire.
Qed.

Lemma foldl_resumeCall_Wire r st l w :
  Wire w → Wire (foldl (resumeCall r st) w l).
Proof.
  revert w. induction l as [|i l IH]; intros w H; simpl; [done|].
  by apply IH, resumeCall_Wire.
Qed.

Lemma settleRequest_Wire r st w : Wire w → Wire (settleRequest r st w).
Proof.
  intros H. unfold settleRequest. destruct (promises w !! r) as [[| |]|]; try done.
  apply foldl_resumeCall_Wire. revert H. by apply Wire_same.
Qed.

Lemma connect_Wire r k w : Wire w → Wire (connect r k w).
Proof.
  intros H. unfold connect. destruct (is_aborted k w).
  { by apply settleRequest_Wire. }
  destruct H as [H1 H2 H3]. split.
  - cbn. intros j c Hj. apply lookup_app_Some in Hj as [Hj|[_ Hj]]; [eauto|].
    apply list_lookup_singleton_Some in Hj as [_ <-].
    apply (wire_ok_call (newWorkerConnection (workers w))). apply wire_ok_new.
  - intros i m c id Hm Hs. destruct (H2 _ _ _ _ Hm Hs) as (conn & Hc & Hp).
    exists conn. split; [|done]. cbn. by apply lookup_app_l_Some.
  - done.
Qed.

Lemma tryConnect_Wire w : Wire w → Wire (tryConnect w).2.
Proof.
  intros H. unfold tryConnect. destruct (the_state w); cbn; try done.
  - apply set_state_Wire. revert H. by apply Wire_same.
  - by apply set_state_Wire, connect_Wire.
Qed.

Lemma ready_Wire w : Wire w → Wire (ready w).
Proof.
  intros H. unfold ready. destruct (the_state w); cbn; try done.
  - apply set_state_Wire. revert H. by apply Wire_same.
  - by apply tryConnect_Wire, set_state_Wire.
Qed.

Lemma disconnect_Wire w : Wire w → Wire (disconnect w).
Proof.
  intros H. unfold disconnect.
  assert (Ha : ∀ k, Wire (abort k w)) by (intros k; revert H; by apply Wire_same).
  destruct (the_state w); cbn; try done; try by apply set_state_Wire.
  by apply set_state_Wire, disposeConnection_Wire.
Qed.

Lemma append_call_Wire m a tg w :
  Wire w →
  Wire (set_calls (calls w ++ [{| methodName := m; args := a;
                                  status := AwaitingConnection tg |}]) w).
Proof.
  intros [H1 H2 H3]. split; [done| |].
  - intros i m' c id. cbn. intros Hi Hs.
    apply lookup_app_Some in Hi as [Hi|[_ Hi]]; [eauto|].
    apply list_lookup_singleton_Some in Hi as [_ <-]. done.
  - intros j1 j2 c id. unfold call_status. cbn. intros Hs1 Hs2.
    assert (Hold : ∀ j, status <$> (calls w ++ [{| methodName := m; args := a;
                          status := AwaitingConnection tg |}]) !! j
                        = Some (InFlight c id) →
                        call_status j w = Some (InFlight c id)).
    { intros j Hs. unfold call_status.
      destruct (decide (j < length (calls w))) as [Hlt|Hge].
      - by rewrite lookup_app_l in Hs.
      - rewrite lookup_app_r in Hs by lia.
        destruct (j - length (calls w)) as [|n]; [done|].
        by rewrite lookup_cons, lookup_nil in Hs. }
    eauto.
Qed.

Lemma forwardingCall_Wire m a w : Wire w → Wire (forwardingCall m a w).2.
Proof.
  intros H. unfold forwardingCall. pose proof (tryConnect_Wire w H) as H1.
  destruct (tryConnect w) as [target w1]. cbn [fst snd] in *.
  pose proof (append_call_Wire m a target w1 H1) as H2.
  destruct target as [r|conn k]; cbn.
  - destruct (promises w1 !! r); [|done]. by apply resumeCall_Wire.
  - by apply forward_Wire.
Qed.

Lemma settle_Wire w s : Wire w → Wire (settle w s).
Proof.
  intros H. destruct s as [[t|i] o]; unfold settle; cbn.
  - unfold connectResumed. destruct (tasks w !! t) as [task|]; [|done].
    destruct o as [v|e]; [destruct (is_aborted (task_controller task) w)|].
    + by apply settleRequest_Wire, setTaskStatus_Wire, disposeConnection_Wire.
    + by apply settleRequest_Wire, set_state_Wire, setTaskStatus_Wire.
    + by apply settleRequest_Wire, setTaskStatus_Wire.
  - destruct (calls w !! i) as [m|] eqn:Hm; [|done].
    destruct (status m); try done. by apply settled_Wire.
Qed.

Lemma foldl_settle_Wire l w : Wire w → Wire (foldl settle w l).
Proof.
  revert w. induction l as [|s l IH]; intros w H; simpl; [done|].
  by apply IH, settle_Wire.
Qed.

Lemma workerMessage_Wire conn msg w : Wire w → Wire (workerMessage conn msg w).
Proof.
  intros H. unfold workerMessage.
  destruct (connections w !! conn) as [c|] eqn:Hc; [|done].
  destruct (attached c); [|done]. unfold onMessage.
  destruct (map_get (msg_id msg) (requests c)) as [request|].
  - assert (H' : ∀ wn, Wire (set_warnings wn (set_connections
       (<[conn := {| worker := worker c;
                     requests := map_delete (msg_id msg) (requests c);
                     nextCallId := nextCallId c;
                     attached := attached c; posted := posted c |}]>
          (connections w)) w))).
    { intros wn. eapply Wire_same; [..|apply (table_Wire conn c
        (map_delete (msg_id msg) (requests c)) w Hc)]; try done.
      - intros [id r] Hin. by apply elem_of_map_delete in Hin as [_ ?].
      - apply map_delete_keys. by destruct (wire_connections _ H _ _ Hc) as (_&_&_&?). }
    destruct msg; cbn; try apply H'; by apply settle_Wire.
  - cbn. rewrite list_insert_id by done. revert H. by apply Wire_same.
Qed.

Lemma workerError_Wire conn e w : Wire w → Wire (workerError conn e w).
Proof.
  intros H. unfold workerError.
  destruct (connections w !! conn) as [c|] eqn:Hc; [|done].
  destruct (attached c); [|done]. unfold onError.
  apply foldl_settle_Wire. apply (table_Wire conn c [] w Hc); [|constructor|done].
  intros e0 He0. by apply elem_of_nil in He0.
Qed.

Lemma step_Wire e w : Wire w → Wire (step e w).2.
Proof.
  intros H. destruct e as [| | | |p|f a|m a|conn msg|conn err]; cbn.
  - done.
  - unfold getProxy, ensureInstance. destruct (_instance w); cbn; [done|].
    revert H. by apply Wire_same.
  - unfold acquire.
    assert (H1 : Wire (ensureInstance w).2).
    { unfold ensureInstance. destruct (_instance w); cbn; [done|].
      revert H. by apply Wire_same. }
    destruct (ensureInstance w) as [inst w1]. cbn [fst snd] in *.
    assert (H2 : Wire (set_refCount (_refCount w1 + 1) w1))
      by (revert H1; by apply Wire_same).
    destruct (0 <? _)%Z; [by apply ready_Wire|done].
  - unfold release. destruct (_instance w); [|done]. cbn.
    assert (H2 : Wire (set_refCount (_refCount w - 1) w))
      by (revert H; by apply Wire_same).
    destruct (_refCount w - 1 <=? 0)%Z; [by apply disconnect_Wire|done].
  - unfold getMethod. destruct (_instance w) as [q|]; [|done].
    destruct (methods q !! p); cbn; [done|]. revert H. by apply Wire_same.
  - destruct (_instance w); [|done]. destruct (functions w !! f); [|done].
    pose proof (forwardingCall_Wire s a w H).
    by destruct (forwardingCall s a w).
  - unfold getMethod. destruct (_instance w) as [q|]; [|done].
    destruct (methods q !! m).
    + pose proof (forwardingCall_Wire m a w H).
      by destruct (forwardingCall m a w).
    + assert (H1 : Wire (set_functions (functions w ++ [m]) w))
        by (revert H; by apply Wire_same).
      pose proof (forwardingCall_Wire m a _ H1).
      by destruct (forwardingCall m a _).
  - by apply workerMessage_Wire.
  - by apply workerError_Wire.
Qed.

Lemma run_Wire es w : Wire w → Wire (run es w).
Proof.
  revert w. induction es as [|e es IH]; intros w H; [done|].
  by apply IH, step_Wire.
Qed.

(** X3: the ids of a connection.  On every connection of a reachable world
    the messages posted are calls numbered 1, 2, 3, ... in the order of
    posting, [nextCallId] is the next number, and the pending table holds at
    most one entry per id, each for a call that was posted. *)
Theorem call_ids_are_sequential (a : list Value) (es : list Event) (j : nat)
    (conn : WorkerConnection) :
  connections (run es (refCountedWorker a)) !! j = Some conn →
  map msg_id (posted conn) = seq 1 (length (posted conn))
  ∧ Forall (λ msg, ∃ id method args, msg = Call id method args) (posted conn)
  ∧ nextCallId conn = S (length (posted conn))
  ∧ NoDup (requests conn).*1
  ∧ ∀ id r, (id, r) ∈ requests conn →
      ∃ method args, posted conn !! (id - 1) = Some (Call id method args).
Proof.
  intros Hj.
  pose proof (run_Wire es _ (Wire_init a)) as [Hw _ _].
  destruct (Hw _ _ Hj) as (Hn & Hp & Hr & Hd).
  split; [|split; [|split; [done|split; [done|]]]].
  - apply list_eq. intros n. rewrite list_lookup_fmap.
    destruct (posted conn !! n) as [msg|] eqn:Hl; cbn.
    + destruct (Hp _ _ Hl) as (m & args & ->). cbn.
      symmetry. apply lookup_seq. split; [done|]. by eapply lookup_lt_Some.
    + symmetry. apply lookup_ge_None. rewrite length_seq.
      by apply lookup_ge_None.
  - apply Forall_lookup. intros n msg Hl.
    destruct (Hp _ _ Hl) as (m & args & ->). eauto.
  - intros id r Hin. destruct (Hr _ _ Hin) as [H1 H2].
    destruct (lookup_lt_is_Some_2 (posted conn) (id - 1)) as [msg Hl]; [lia|].
    destruct (Hp _ _ Hl) as (m & args & ->).
    exists m, args. rewrite Hl. f_equal. f_equal. lia.
Qed.

Lemma call_ids_are_sequential_witness :
  let w := run [Acquire; Invoke "add" [VNumber 1; VNumber 2];
                Invoke "push" [VString "x"];
                WorkerMessage 0 (Success 1 VUndefined);
                WorkerMessage 0 (Success 3 (VString "x"))]
             (refCountedWorker [VNumber 1]) in
  ∃ conn,
    connections w !! 0 = Some conn
    ∧ map msg_id (posted conn) = [1; 2; 3]
    ∧ nextCallId conn = 4
    ∧ (requests conn).*1 = [2].
Proof.
  intros w.
  assert (H : connections w !! 0
    = Some {| worker := 0; requests := [(2, MethodAwait 0)]; nextCallId := 4;
              attached := true;
              posted := [Call 1 "constructor" [VNumber 1];
                         Call 2 "add" [VNumber 1; VNumber 2];
                         Call 3 "push" [VString "x"]] |}) by (vm_compute; reflexivity).
  eexists. split; [exact H|].
  destruct (call_ids_are_sequential [VNumber 1] _ 0 _ H) as (H1 & _ & H3 & _).
  split; [exact H1|]. split; [exact H3|reflexivity].
Defined.

(** X4: a response reaches the call it answers.  When the pending table of
    an attached connection holds forwarding call [i] under [id], the message
    posted under [id] is the call of the method name and the arguments of
    [i], no other call is in flight under that id, and the success (error)
    envelope of [id] fulfils (rejects) the promise of [i] with its result
    (error). *)
Theorem response_settles_its_call (a : list Value) (es : list Event)
    (c id i : nat) (conn : WorkerConnection) :
  let w := run es (refCountedWorker a) in
  connections w !! c = Some conn →
  attached conn = true →
  map_get id (requests conn) = Some (MethodAwait i) →
  ∃ m,
    calls w !! i = Some m
    ∧ posted conn !! (id - 1) = Some (Call id (methodName m) (args m))
    ∧ (∀ j, call_status j w = Some (InFlight c id) → j = i)
    ∧ (∀ v, call_status i (run [WorkerMessage c (Success id v)] w)
            = Some (Settled (Fulfilled v)))
    ∧ (∀ e, call_status i (run [WorkerMessage c (Error id e)] w)
            = Some (Settled (Rejected e))).
Proof.
  intros w Hc Hatt Hget.
  pose proof (run_Wire es _ (Wire_init a)) as [_ Hf Hd]. fold w in Hf, Hd.
  pose proof (Inv_run es _ (Inv_init a)) as [HC _]. fold w in HC.
  pose proof (core_connections _ HC) as (_ & Hcs).
  destruct (Hcs _ _ Hc) as (_ & _ & He).
  specialize (He _ _ (map_get_elem_of _ _ _ Hget)). cbn in He.
  unfold call_status in He. destruct (calls w !! i) as [m|] eqn:Hm; [|done].
  cbn in He. injection He as He.
  exists m. split; [done|].
  destruct (Hf _ _ _ _ Hm He) as (conn' & Hc' & Hp).
  rewrite Hc in Hc'. injection Hc' as <-. split; [done|].
  assert (Hst : call_status i w = Some (InFlight c id)).
  { unfold call_status. by rewrite Hm, <- He. }
  split; [intros j Hj; by apply (Hd j i c id)|].
  split.
  - intros v. cbn. apply success_fulfils; [done|]. by exists conn.
  - intros e. cbn. unfold workerMessage. rewrite Hc, Hatt. unfold onMessage.
    cbn [msg_id]. rewrite Hget. cbn [foldl].
    by apply (settle_in_flight i c id).
Qed.

Lemma response_settles_its_call_witness :
  let w := run [Acquire; Invoke "add" [VNumber 1; VNumber 2];
                Invoke "push" [VString "x"];
                WorkerMessage 0 (Success 1 VUndefined)]
             (refCountedWorker [VNumber 1]) in
  ∃ conn m,
    connections w !! 0 = Some conn
    ∧ map_get 3 (requests conn) = Some (MethodAwait 1)
    ∧ calls w !! 1 = Some m
    ∧ posted conn !! 2 = Some (Call 3 (methodName m) (args m))
    ∧ call_status 1 (run [WorkerMessage 0 (Success 3 (VString "x"))] w)
      = Some (Settled (Fulfilled (VString "x"))).
Proof.
  intros w.
  assert (H : connections w !! 0
    = Some {| worker := 0;
              requests := [(2, MethodAwait 0); (3, MethodAwait 1)];
              nextCallId := 4; attached := true;
              posted := [Call 1 "constructor" [VNumber 1];
                         Call 2 "add" [VNumber 1; VNumber 2];
                         Call 3 "push" [VString "x"]] |}) by (vm_compute; reflexivity).
  destruct (response_settles_its_call [VNumber 1] _ 0 3 1 _ H eq_refl eq_refl)
    as (m & Hm & Hp & _ & Hs & _).
  eexists. exists m. split; [exact H|]. split; [vm_compute; reflexivity|].
  split; [exact Hm|]. split; [exact Hp|]. exact (Hs (VString "x")).
Defined.

(** ** The reference count *)

Lemma step_refCount_other e w :
  Inv w → e ≠ Acquire → e ≠ Release → _refCount (step e w).2 = _refCount w.
Proof.
  intros [HC _] He He'.
  destruct e as [| | | |p|f a|m a|conn msg|conn err]; cbn [step snd]; try done.
  - unfold getProxy. destruct (ensureInstance_state w) as (Hr & _).
    by destruct (ensureInstance w).
  - destruct (getMethod_state p w) as (Hr & _).
    by destruct (getMethod p w) as [[f|] w1].
  - destruct (_instance w) as [q|] eqn:Hq; [|done].
    destruct (functions w !! f) as [name|]; [|done].
    assert (Hi : _instance w ≠ None) by congruence.
    destruct (forwardingCall_state name a w HC Hi) as (Hr & _).
    by destruct (forwardingCall name a w).
  - pose proof (getMethod_Core m w HC) as HC1.
    destruct (getMethod_state m w) as (Hr & Hi & Hn).
    destruct (getMethod m w) as [[f|] w1]; cbn [fst snd] in *; [|done].
    assert (Hi1 : _instance w1 ≠ None).
    { rewrite Hi. intros H. by apply Hn in H. }
    destruct (forwardingCall_state m a w1 HC1 Hi1) as (Hr' & _).
    destruct (forwardingCall m a w1). cbn in *. congruence.
  - by destruct (workerMessage_state conn msg w HC) as (Hr & _).
  - by destruct (workerError_state conn err w HC) as (Hr & _).
Qed.

Lemma step_refCount_acquire w :
  Inv w → _refCount (step Acquire w).2 = (_refCount w + 1)%Z.
Proof.
  intros [HC _]. cbn. unfold acquire.
  pose proof (ensureInstance_Core w HC) as HC1.
  destruct (ensureInstance_state w) as (Hr & Hi & _).
  destruct (ensureInstance w) as [inst w1]. cbn [fst snd] in *.
  destruct (0 <? _)%Z; cbn; [|by rewrite Hr].
  destruct (ready_state (set_refCount (_refCount w1 + 1) w1)) as (Hr' & _);
    [by apply set_refCount_Core|done|].
  rewrite Hr'. cbn. by rewrite Hr.
Qed.

Lemma step_refCount_release w :
  _instance w ≠ None → _refCount (step Release w).2 = (_refCount w - 1)%Z.
Proof.
  intros Hi. cbn. unfold release. destruct (_instance w) as [q|] eqn:Hq; [|done].
  cbn. destruct (_refCount w - 1 <=? 0)%Z; [|done].
  destruct (disconnect_state (set_refCount (_refCount w - 1) w)) as (Hr & _);
    [cbn; congruence|].
  by rewrite Hr.
Qed.

(** X5: the reference count is the number of [acquire()] minus the number of
    [release()] since the instance exists, with no lower bound at zero;
    before the instance exists the count is zero and [release()] does
    nothing. *)
Theorem refCount_is_net_count (a : list Value) (es0 es : list Event) :
  let w := run es0 (refCountedWorker a) in
  (_instance w = None →
   _refCount w = 0%Z ∧ (step Release w).2 = w)
  ∧ (_instance w ≠ None →
     _refCount (run es w)
     = (_refCount w + Z.of_nat (count_occ Event_eq_dec es Acquire)
        - Z.of_nat (count_occ Event_eq_dec es Release))%Z).
Proof.
  intros w. pose proof (Inv_run es0 _ (Inv_init a)) as Hw. fold w in Hw.
  split.
  - intros Hi. split; [by destruct Hw as [_ [H _]]; apply H|].
    cbn. unfold release. by rewrite Hi.
  - clearbody w. revert w Hw. induction es as [|e es IH]; intros w Hw Hi.
    { cbn. lia. }
    change (run (e :: es) w) with (run es (step e w).2).
    rewrite IH; [|by apply Inv_step|by apply step_instance].
    cbn [count_occ].
    destruct (decide (e = Acquire)) as [->|Ha].
    { rewrite step_refCount_acquire by done.
      destruct (Event_eq_dec Acquire Acquire); [|done].
      destruct (Event_eq_dec Acquire Release); [done|]. lia. }
    destruct (decide (e = Release)) as [->|Hr].
    { rewrite step_refCount_release by done.
      destruct (Event_eq_dec Release Acquire); [done|].
      destruct (Event_eq_dec Release Release); [|done]. lia. }
    rewrite step_refCount_other by done.
    destruct (Event_eq_dec e Acquire); [done|].
    destruct (Event_eq_dec e Release); [done|]. lia.
Qed.

Lemma refCount_is_net_count_witness :
  let w := run [Release; GetProxy] (refCountedWorker [VNumber 1]) in
  let es := [Release; Release; Invoke "add" []; Acquire; Acquire] in
  _instance w ≠ None
  ∧ _refCount w = 0%Z
  ∧ _refCount (run es w) = (0 + 2 - 2)%Z
  ∧ getState (run es w) = "blocked".
Proof.
  intros w es.
  assert (Hi : _instance w ≠ None) by discriminate.
  split; [exact Hi|]. split; [vm_compute; reflexivity|]. split; [|reflexivity].
  exact (proj2 (refCount_is_net_count [VNumber 1] [Release; GetProxy] es) Hi).
Defined.

(** ** A fault of the worker while connected *)

Lemma foldl_settle_rejected_connections e (l : list WorkerRequest) w :
  connections (foldl settle w (map (λ r, (r, Rejected e)) l)) = connections w.
Proof.
  revert w. induction l as [|r l IH]; intros w; simpl; [done|].
  rewrite IH. apply settle_quiet.
Qed.

Lemma workerError_connections conn e w c :
  connections w !! conn = Some c → attached c = true →
  connections (workerError conn e w)
  = <[conn := {| worker := worker c; requests := [];
                 nextCallId := nextCallId c; attached := attached c;
                 posted := posted c |}]> (connections w).
Proof.
  intros Hc Hatt. unfold workerError. rewrite Hc, Hatt. unfold onError.
  cbn. rewrite foldl_settle_rejected_connections. cbn. by rewrite Hatt.
Qed.

(** X6: a fault of the worker does not disconnect.  After an [error] event
    of the worker in the state ["connected"] the state is still
    ["connected"], the worker is not terminated and no other worker is made,
    and the next call is posted to that same worker. *)
Theorem fault_leaves_connected (a : list Value) (es : list Event)
    (c k : nat) (e : Value) (m : string) (args : list Value) :
  let w := run es (refCountedWorker a) in
  the_state w = Connected c k →
  let w1 := run [WorkerError c e] w in
  let w2 := run [Invoke m args] w1 in
  getState w1 = "connected"
  ∧ workers w2 = workers w
  ∧ ∃ conn,
      connections w1 !! c = Some conn
      ∧ attached conn = true
      ∧ requests conn = []
      ∧ call_status (length (calls w1)) w2
        = Some (InFlight c (nextCallId conn)).
Proof.
  intros w Hs w1 w2.
  pose proof (Inv_run es _ (Inv_init a)) as Hw. fold w in Hw.
  pose proof (Inv_step (WorkerError c e) w Hw) as Hw1.
  change (step (WorkerError c e) w).2 with w1 in Hw1.
  assert (Hs1 : the_state w1 = Connected c k).
  { unfold w1. cbn. by rewrite workerError_the_state. }
  pose proof Hw as [[_ Hso _ _] _]. unfold state_ok in Hso. rewrite Hs in Hso.
  destruct Hso as (_ & _ & conn & Hc & Hatt).
  split; [by rewrite getState_the_state, Hs1|]. split.
  - destruct (step_cases (Invoke m args) w1 Hw1) as [[[Hsz _] _]|(r & k' & H & _)].
    + change (step (Invoke m args) w1).2 with w2 in Hsz. rewrite Hsz.
      unfold w1. cbn. apply workerError_same_size.
    + rewrite Hs1 in H. by destruct H as [?|[? _]].
  - eexists. split; [|split; [|split]].
    + unfold w1. cbn. rewrite (workerError_connections c e w conn Hc Hatt).
      apply list_lookup_insert_eq. by eapply lookup_lt_Some.
    + done.
    + done.
    + refine (proj1 (invoke_connected w1 c k _ m args VUndefined Hw1 Hs1 _ _)).
      * unfold w1. cbn. rewrite (workerError_connections c e w conn Hc Hatt).
        apply list_lookup_insert_eq. by eapply lookup_lt_Some.
      * done.
Qed.

Lemma fault_leaves_connected_witness :
  let w := run [Acquire; Invoke "add" [VNumber 1; VNumber 2];
                WorkerMessage 0 (Success 1 VUndefined)]
             (refCountedWorker [VNumber 1]) in
  let w1 := run [WorkerError 0 (VError "crash")] w in
  the_state w = Connected 0 0
  ∧ call_status 0 w1 = Some (Settled (Rejected (VError "crash")))
  ∧ getState w1 = "connected"
  ∧ workers (run [Invoke "add" [VNumber 3; VNumber 4]] w1) = 1.
Proof.
  intros w w1.
  assert (Hs : the_state w = Connected 0 0) by (vm_compute; reflexivity).
  split; [exact Hs|]. split; [vm_compute; reflexivity|].
  destruct (fault_leaves_connected [VNumber 1] _ 0 0 (VError "crash") "add"
              [VNumber 3; VNumber 4] Hs) as (H1 & H2 & _).
  split; [exact H1|exact H2].
Defined.

(** ** The two sides together *)

(** X7: the caller keeps to the contract of the worker side.  Whatever a
    connection of a reachable world has posted, a worker that runs
    [connectWorker] on a class whose constructor accepts the configured
    arguments is initialised by the first message and answers it with the
    success envelope of id 1; every later message meets the initialised
    instance.  When the constructor throws, the first answer is the error
    envelope of id 1 with what was thrown. *)
Theorem posted_calls_meet_initialised_worker {Handler : Type}
    (factory : list Value -> Handler + Value)
    (invoke : Handler -> string -> list Value -> Handler * (Value + Value))
    (a : list Value) (es : list Event) (j : nat) (conn : WorkerConnection) :
  connections (run es (refCountedWorker a)) !! j = Some conn →
  ∃ rest,
    posted conn = Call 1 "constructor" a :: rest
    ∧ (∀ h, factory a = inl h →
         worker_run factory invoke None (posted conn)
         = ((worker_run factory invoke (Some h) rest).1,
            Success 1 VUndefined
            :: (worker_run factory invoke (Some h) rest).2)
         ∧ is_Some (worker_run factory invoke (Some h) rest).1)
    ∧ (∀ err, factory a = inr err →
         worker_run factory invoke None (posted conn)
         = ((worker_run factory invoke None rest).1,
            Error 1 err :: (worker_run factory invoke None rest).2)).
Proof.
  intros Hj.
  pose proof (Inv_run es _ (Inv_init a)) as [HC _].
  pose proof (core_connections _ HC) as (_ & Hcs).
  destruct (Hcs _ _ Hj) as (_ & (rest & Hp) & _).
  rewrite run_workerArguments in Hp. exists rest. split; [done|].
  rewrite Hp. split.
  - intros h Hf. split; [|apply worker_run_initialised].
    simpl. rewrite Hf.
    by destruct (worker_run factory invoke (Some h) rest).
  - intros err Hf. simpl. rewrite Hf.
    by destruct (worker_run factory invoke None rest).
Qed.

Lemma posted_calls_meet_initialised_worker_witness :
  let factory := λ a : list Value,
      match a with [VNumber n] => inl n | _ => inr (VError "bad options") end in
  let invoke := λ (h : Z) (m : string) (a : list Value),
      (h, match a with
          | [VNumber x; VNumber y] => @inl Value Value (VNumber (x + y + h))
          | _ => inr (VError "bad arguments")
          end) in
  let w := run [Acquire; Invoke "add" [VNumber 1; VNumber 2];
                WorkerMessage 0 (Success 1 VUndefined)]
             (refCountedWorker [VNumber 10]) in
  ∃ conn,
    connections w !! 0 = Some conn
    ∧ worker_run factory invoke None (posted conn)
      = (Some 10%Z, [Success 1 VUndefined; Success 2 (VNumber 13)]).
Proof.
  intros factory invoke w.
  assert (H : connections w !! 0
    = Some {| worker := 0; requests := [(2, MethodAwait 0)]; nextCallId := 3;
              attached := true;
              posted := [Call 1 "constructor" [VNumber 10];
                         Call 2 "add" [VNumber 1; VNumber 2]] |}) by (vm_compute; reflexivity).
  eexists. split; [exact H|].
  destruct (posted_calls_meet_initialised_worker factory invoke [VNumber 10]
              _ 0 _ H) as (rest & Hp & Hok & _).
  injection Hp as <-.
  exact (proj1 (Hok 10%Z eq_refl)).
Defined.

(** ** The forwarding calls that wait *)

Lemma forward_back i conn w j tg :
  call_status j (forward i conn w) = Some (AwaitingConnection tg) →
  j ≠ i ∧ call_status j w = Some (AwaitingConnection tg)
  ∨ connections w !! conn = None
    ∧ call_status j w = Some (AwaitingConnection tg).
Proof.
  unfold forward, call_status.
  destruct (calls w !! i) as [m|] eqn:Hm.
  2:{ intros H. left. split; [|done]. intros ->. by rewrite Hm in H. }
  destruct (connections w !! conn) as [c|] eqn:Hc; [|by right].
  cbn. intros H. left. destruct (decide (j = i)) as [->|Hne].
  - rewrite list_lookup_insert_eq in H by (by eapply lookup_lt_Some). done.
  - by rewrite list_lookup_insert_ne in H.
Qed.

Lemma resumeCall_back r st w i j tg :
  call_status j (resumeCall r st w i) = Some (AwaitingConnection tg) →
  call_status j w = Some (AwaitingConnection tg).
Proof.
  unfold resumeCall. destruct (calls w !! i) as [m|] eqn:Hm; [|done].
  destruct (status m) as [[r'|]| |]; try done.
  destruct (Nat.eqb r' r); [|done]. destruct st; [done| |].
  - intros H. by destruct (forward_back _ _ _ _ _ H) as [[_ ?]|[_ ?]].
  - unfold call_status. cbn. destruct (decide (j = i)) as [->|Hne].
    + rewrite list_lookup_insert_eq by (by eapply lookup_lt_Some). done.
    + by rewrite list_lookup_insert_ne.
Qed.

Lemma foldl_resumeCall_back r st l w j tg :
  call_status j (foldl (resumeCall r st) w l) = Some (AwaitingConnection tg) →
  call_status j w = Some (AwaitingConnection tg).
Proof.
  revert w. induction l as [|i l IH]; intros w; simpl; [done|].
  intros H. by apply IH, resumeCall_back in H.
Qed.

Lemma resumeCall_resumed r st w i :
  st ≠ RequestPending →
  (∀ c k, st = RequestFulfilled c k → is_Some (connections w !! c)) →
  call_status i (resumeCall r st w i)
  ≠ Some (AwaitingConnection (AwaitRequest r)).
Proof.
  intros Hst Hc. unfold resumeCall, call_status.
  destruct (calls w !! i) as [m|] eqn:Hm; [|by rewrite Hm].
  destruct (status m) as [[r'|]| |] eqn:Hs; try (rewrite Hm; cbn; congruence).
  destruct (Nat.eqb_spec r' r) as [->|Hne]; [|rewrite Hm; cbn; congruence].
  destruct st as [|c k|e]; [done| |].
  - destruct (Hc c k eq_refl) as [conn Hconn]. unfold forward.
    rewrite Hm, Hconn. cbn.
    rewrite list_lookup_insert_eq by (by eapply lookup_lt_Some). done.
  - cbn. rewrite list_lookup_insert_eq by (by eapply lookup_lt_Some). done.
Qed.

Lemma foldl_resumeCall_resumed r st l w j :
  st ≠ RequestPending →
  (∀ c k, st = RequestFulfilled c k → is_Some (connections w !! c)) →
  j ∈ l →
  call_status j (foldl (resumeCall r st) w l)
  ≠ Some (AwaitingConnection (AwaitRequest r)).
Proof.
  intros Hst. revert w. induction l as [|i l IH]; intros w Hc Hin; simpl.
  { by apply elem_of_nil in Hin. }
  assert (Hc' : ∀ c k, st = RequestFulfilled c k →
                       is_Some (connections (resumeCall r st w i) !! c)).
  { intros c k E. apply lookup_lt_is_Some.
    rewrite (re_connections _ _ (resumeCall_reacts r st w i)).
    apply lookup_lt_is_Some. eauto. }
  destruct (decide (j ∈ l)) as [Hl|Hl]; [by apply IH|].
  apply elem_of_cons in Hin as [->|?]; [|done].
  intros H. apply foldl_resumeCall_back in H.
  by apply (resumeCall_resumed r st w i).
Qed.

Lemma foldl_resumeCall_promises r st l w :
  promises (foldl (resumeCall r st) w l) = promises w.
Proof.
  revert w. induction l as [|i l IH]; intros w; simpl; [done|].
  by rewrite IH, resumeCall_promises.
Qed.

Lemma settleRequest_settles r st w :
  promises w !! r = Some RequestPending →
  promises (settleRequest r st w) !! r = Some st.
Proof.
  intros Hp. unfold settleRequest. rewrite Hp.
  rewrite foldl_resumeCall_promises. cbn.
  apply list_lookup_insert_eq. by eapply lookup_lt_Some.
Qed.

Lemma settleRequest_await r st w :
  st ≠ RequestPending →
  (∀ c k, st = RequestFulfilled c k →
     is_Some (connections w !! c) ∧ ∀ r' k', the_state w ≠ Connecting r' k') →
  await_ok w → await_ok (settleRequest r st w).
Proof.
  intros Hst Hf [H1 H2].
  pose proof (the_state_reacts _ _ (settleRequest_reacts r st w)) as Hs.
  assert (Hp : promises w !! r = Some RequestPending
               ∨ settleRequest r st w = w).
  { unfold settleRequest. destruct (promises w !! r) as [[| |]|]; auto. }
  destruct Hp as [Hp|E]; [|by rewrite E].
  split.
  - intros j tg Hj.
    assert (Hj0 : call_status j w = Some (AwaitingConnection tg)).
    { revert Hj. unfold settleRequest. rewrite Hp. intros Hj.
      by apply foldl_resumeCall_back in Hj. }
    destruct (H1 _ _ Hj0) as (r' & -> & Hr'). exists r'. split; [done|].
    destruct (decide (r' = r)) as [->|Hne].
    + exfalso. revert Hj. unfold settleRequest. rewrite Hp.
      apply foldl_resumeCall_resumed; [done| |].
      * intros c k E. by destruct (Hf c k E).
      * apply elem_of_seq. split; [lia|]. cbn.
        unfold call_status in Hj0.
        destruct (calls w !! j) eqn:E; [|done]. by eapply lookup_lt_Some.
    + by rewrite settleRequest_promises.
  - intros r' k'. rewrite Hs. intros Hc. unfold unfulfilled.
    destruct (decide (r' = r)) as [->|Hne].
    + rewrite (settleRequest_settles r st w Hp).
      destruct st as [|c k|e]; [done| |eauto].
      destruct (Hf c k eq_refl) as [_ Hn]. by destruct (Hn r k').
    + rewrite settleRequest_promises by done. by apply (H2 r' k').
Qed.

Lemma unfulfilled_mono r w w' :
  (∀ st, promises w !! r = Some st → promises w' !! r = Some st) →
  unfulfilled r w → unfulfilled r w'.
Proof. intros Hp [?|[e ?]]; [left|right; exists e]; eauto. Qed.

(** Updates that leave the calls alone and settle no promise. *)
Lemma await_frame w w' :
  calls w' = calls w →
  (∀ r st, promises w !! r = Some st → promises w' !! r = Some st) →
  (∀ r k, the_state w' = Connecting r k →
     the_state w = Connecting r k ∨ unfulfilled r w) →
  await_ok w → await_ok w'.
Proof.
  intros Hc Hp Hs [H1 H2]. split.
  - intros i tg. unfold call_status. rewrite Hc. intros Hi.
    destruct (H1 _ _ Hi) as (r & -> & Hr). eauto.
  - intros r k Hk. apply (unfulfilled_mono r w); [eauto|].
    destruct (Hs _ _ Hk) as [Hk'|Hr]; eauto.
Qed.

Lemma await_same w w' :
  calls w' = calls w → promises w' = promises w →
  the_state w' = the_state w → await_ok w → await_ok w'.
Proof.
  intros Hc Hp Hs. apply await_frame; [done|by rewrite Hp|rewrite Hs; eauto].
Qed.

Lemma await_but_weaken i w : await_ok w → await_but i w.
Proof. intros [H1 H2]. split; eauto. Qed.

(** Call [i] has resumed. *)
Lemma await_fix i w w' :
  promises w' = promises w → the_state w' = the_state w →
  (∀ j tg, j ≠ i → call_status j w' = Some (AwaitingConnection tg) →
           call_status j w = Some (AwaitingConnection tg)) →
  (∀ tg, call_status i w' = Some (AwaitingConnection tg) →
         ∃ r, tg = AwaitRequest r ∧ promises w !! r = Some RequestPending) →
  await_but i w → await_ok w'.
Proof.
  intros Hp Hs Hj Hi [H1 H2]. split.
  - intros j tg Hst. rewrite Hp. destruct (decide (j = i)) as [->|Hne]; eauto.
  - intros r k. rewrite Hs. intros Hk. unfold unfulfilled. rewrite Hp.
    by apply (H2 r k).
Qed.

Lemma settled_await i m o w :
  calls w !! i = Some m →
  await_ok w → await_ok (set_calls (<[i := set_status (Settled o) m]> (calls w)) w).
Proof.
  intros Hm H. apply (await_fix i w); try done.
  - intros j tg Hne. unfold call_status. cbn.
    by rewrite list_lookup_insert_ne.
  - intros tg. unfold call_status. cbn.
    rewrite list_lookup_insert_eq by (by eapply lookup_lt_Some). done.
  - by apply await_but_weaken.
Qed.

Lemma the_state_set_state_cases s w :
  the_state (set_state s w) = s ∨ the_state (set_state s w) = Disconnected.
Proof.
  unfold the_state, set_state. destruct (_instance w) eqn:Hi; cbn; [by left|].
  rewrite Hi. by right.
Qed.

Lemma set_state_await s w :
  (∀ r k, s = Connecting r k →
     the_state w = Connecting r k ∨ unfulfilled r w) →
  await_ok w → await_ok (set_state s w).
Proof.
  intros Hs. apply await_frame.
  - unfold set_state. by destruct (_instance w).
  - unfold set_state. by destruct (_instance w).
  - intros r k Hk. apply Hs.
    destruct (the_state_set_state_cases s w) as [E|E]; congruence.
Qed.

Lemma makeBlockedState_await w :
  await_ok w → await_ok (makeBlockedState w).2.
Proof.
  apply await_frame; cbn; [done| |eauto].
  intros r st Hr. by apply lookup_app_l_Some.
Qed.

Lemma connect_await r k w :
  await_ok w → await_ok (connect r k w).
Proof.
  intros H. unfold connect. destruct (is_aborted k w).
  - by apply settleRequest_await.
  - revert H. by apply await_same.
Qed.

Lemma connect_promise r k w :
  promises w !! r = Some RequestPending → unfulfilled r (connect r k w).
Proof.
  intros Hp. unfold connect. destruct (is_aborted k w).
  - right. eexists. by apply settleRequest_settles.
  - by left.
Qed.

Lemma set_state_promises s w : promises (set_state s w) = promises w.
Proof. unfold set_state. by destruct (_instance w). Qed.

Lemma set_state_connections s w : connections (set_state s w) = connections w.
Proof. unfold set_state. by destruct (_instance w). Qed.

Lemma set_state_calls s w : calls (set_state s w) = calls w.
Proof. unfold set_state. by destruct (_instance w). Qed.

Lemma tryConnect_await w :
  (∀ r k, the_state w = Blocked r k ∨ the_state w = Ready r k →
          promises w !! r = Some RequestPending) →
  (∀ c k, the_state w = Connected c k → is_Some (connections w !! c)) →
  await_ok w →
  await_ok (tryConnect w).2 ∧ target_ok (tryConnect w).1 (tryConnect w).2.
Proof.
  intros Hb Hc H. unfold tryConnect.
  destruct (the_state w) as [|r k|r k|r k|c k] eqn:Hs; cbn.
  - split.
    + apply set_state_await; [done|]. by apply makeBlockedState_await.
    + left. rewrite set_state_promises. cbn.
      by rewrite lookup_app_r, Nat.sub_diag by lia.
  - split; [done|]. left. eauto.
  - assert (Hp : promises w !! r = Some RequestPending) by eauto.
    pose proof (connect_promise r k w Hp) as Hu. split.
    + apply set_state_await; [|by apply connect_await].
      intros r' k' [= <- <-]. by right.
    + unfold unfulfilled. by rewrite set_state_promises.
  - split; [done|]. by destruct H as [_ H2]; apply (H2 r k).
  - split; [done|]. eauto.
Qed.

Lemma forward_await i conn w :
  is_Some (connections w !! conn) → await_but i w → await_ok (forward i conn w).
Proof.
  intros [c Hc] H. apply (await_fix i w); try done.
  - apply forward_promises.
  - apply the_state_reacts, forward_reacts.
  - intros j tg Hne Hj.
    by destruct (forward_back _ _ _ _ _ Hj) as [[_ ?]|[_ ?]].
  - intros tg Hi. destruct (forward_back _ _ _ _ _ Hi) as [[? _]|[? _]];
      [done|congruence].
Qed.

Lemma append_call_await m a r w :
  promises w !! r = Some RequestPending →
  await_ok w →
  await_ok (set_calls (calls w ++ [{| methodName := m; args := a;
              status := AwaitingConnection (AwaitRequest r) |}]) w).
Proof.
  intros Hp [H1 H2]. split; [|done].
  intros i tg. unfold call_status. cbn. intros Hi.
  destruct (decide (i < length (calls w))) as [Hlt|Hge].
  - rewrite lookup_app_l in Hi by done. eauto.
  - rewrite lookup_app_r in Hi by lia.
    destruct (i - length (calls w)) as [|n]; [|by rewrite lookup_cons, lookup_nil in Hi].
    cbn in Hi. injection Hi as <-. eauto.
Qed.

Lemma append_call_but m a tg w :
  await_ok w →
  await_but (length (calls w))
    (set_calls (calls w ++ [{| methodName := m; args := a;
                               status := AwaitingConnection tg |}]) w).
Proof.
  intros [H1 H2]. split; [|done].
  intros j tg' Hne. unfold call_status. cbn. intros Hj.
  destruct (decide (j < length (calls w))) as [Hlt|Hge].
  - rewrite lookup_app_l in Hj by done. eauto.
  - rewrite lookup_app_r in Hj by lia.
    destruct (j - length (calls w)) as [|n] eqn:E; [lia|].
    by rewrite lookup_cons, lookup_nil in Hj.
Qed.

Lemma resumeCall_await_but r st w i :
  st ≠ RequestPending →
  (∀ c k, st = RequestFulfilled c k → is_Some (connections w !! c)) →
  call_status i w = Some (AwaitingConnection (AwaitRequest r)) →
  await_but i w → await_ok (resumeCall r st w i).
Proof.
  intros Hst Hc Hi H. apply (await_fix i w); try done.
  - apply resumeCall_promises.
  - apply the_state_reacts, resumeCall_reacts.
  - intros j tg _. apply resumeCall_back.
  - intros tg Hi'. exfalso.
    pose proof (resumeCall_back _ _ _ _ _ _ Hi') as Hi''.
    rewrite Hi in Hi''. injection Hi'' as <-.
    by apply (resumeCall_resumed r st w i).
Qed.

Lemma forwardingCall_await m a w :
  Core w → await_ok w → await_ok (forwardingCall m a w).2.
Proof.
  intros HC H. unfold forwardingCall.
  destruct (tryConnect_await w) as [H1 Ht]; [| |done|].
  { intros r k Hs. pose proof (core_state _ HC) as Hso. unfold state_ok in Hso.
    destruct Hs as [Hs|Hs]; rewrite Hs in Hso; by destruct Hso. }
  { intros c k Hs. pose proof (core_state _ HC) as Hso. unfold state_ok in Hso.
    rewrite Hs in Hso. destruct Hso as (_ & _ & conn & ? & _). eauto. }
  pose proof (tryConnect_calls w HC) as Hcalls.
  destruct (tryConnect w) as [target w1]. cbn [fst snd] in *.
  rewrite <- Hcalls.
  destruct target as [r|conn k]; cbn [target_ok] in Ht.
  - cbn. destruct Ht as [Hp|[e Hp]]; rewrite Hp.
    + rewrite resumeCall_pending. by apply append_call_await.
    + apply resumeCall_await_but; [done|done| |by apply append_call_but].
      unfold call_status. cbn.
      by rewrite lookup_app_r, Nat.sub_diag by lia.
  - apply forward_await; [done|by apply append_call_but].
Qed.

Lemma disposeConnection_promises c w :
  promises (disposeConnection c w) = promises w.
Proof. unfold disposeConnection. by destruct (connections w !! c). Qed.

Lemma setTaskStatus_promises t s w :
  promises (setTaskStatus t s w) = promises w.
Proof. unfold setTaskStatus. by destruct (tasks w !! t). Qed.

Lemma setTaskStatus_connections t s w :
  connections (setTaskStatus t s w) = connections w.
Proof. unfold setTaskStatus. by destruct (tasks w !! t). Qed.

Lemma setTaskStatus_await t s w : await_ok w → await_ok (setTaskStatus t s w).
Proof.
  apply await_same;
    [apply setTaskStatus_calls|apply setTaskStatus_promises
    |apply the_state_setTaskStatus].
Qed.

Lemma disposeConnection_await c w :
  await_ok w → await_ok (disposeConnection c w).
Proof.
  apply await_same;
    [apply disposeConnection_calls|apply disposeConnection_promises
    |apply the_state_disposeConnection].
Qed.

Lemma settle_rejected_await w r e :
  await_ok w → await_ok (settle w (r, Rejected e)).
Proof.
  intros H. destruct r as [t|i]; unfold settle; cbn.
  - unfold connectResumed. destruct (tasks w !! t) as [task|]; [|done].
    by apply settleRequest_await, setTaskStatus_await.
  - destruct (calls w !! i) as [m|] eqn:Hm; [|done].
    destruct (status m); try done. by apply settled_await.
Qed.

Lemma settle_await w s : Core w → await_ok w → await_ok (settle w s).
Proof.
  intros HC H. destruct s as [r [v|e]]; [|by apply settle_rejected_await].
  destruct r as [t|i]; unfold settle; cbn.
  - unfold connectResumed. destruct (tasks w !! t) as [task|] eqn:Ht; [|done].
    destruct (is_aborted (task_controller task) w).
    + by apply settleRequest_await, setTaskStatus_await, disposeConnection_await.
    + apply settleRequest_await; [done| |].
      * intros c k [= <- <-]. split.
        -- rewrite set_state_connections, setTaskStatus_connections.
           pose proof (core_tasks _ HC) as (Hlen & Hts & _).
           destruct (Hts _ _ Ht) as (-> & _).
           apply lookup_lt_is_Some. rewrite <- Hlen. by eapply lookup_lt_Some.
        -- intros r' k' E.
           destruct (the_state_set_state_cases
                       (Connected (rawConnection task) (task_controller task))
                       (setTaskStatus t TaskFulfilled w)); congruence.
      * apply set_state_await; [done|]. by apply setTaskStatus_await.
  - destruct (calls w !! i) as [m|] eqn:Hm; [|done].
    destruct (status m); try done. by apply settled_await.
Qed.

Lemma foldl_settle_rejected_await e (l : list WorkerRequest) w :
  await_ok w → await_ok (foldl settle w (map (λ r, (r, Rejected e)) l)).
Proof.
  revert w. induction l as [|r l IH]; intros w H; simpl; [done|].
  by apply IH, settle_rejected_await.
Qed.

Lemma workerMessage_await conn msg w :
  Core w → await_ok w → await_ok (workerMessage conn msg w).
Proof.
  intros HC H. unfold workerMessage.
  destruct (connections w !! conn) as [c|] eqn:Hc; [|done].
  destruct (attached c); [|done]. unfold onMessage.
  destruct (map_get (msg_id msg) (requests c)) as [request|].
  - assert (H' : ∀ wn, Core (set_warnings wn (set_connections
       (<[conn := {| worker := worker c;
                     requests := map_delete (msg_id msg) (requests c);
                     nextCallId := nextCallId c;
                     attached := attached c; posted := posted c |}]>
          (connections w)) w))
       ∧ await_ok (set_warnings wn (set_connections
       (<[conn := {| worker := worker c;
                     requests := map_delete (msg_id msg) (requests c);
                     nextCallId := nextCallId c;
                     attached := attached c; posted := posted c |}]>
          (connections w)) w))).
    { intros wn. split; [|revert H; by apply await_same].
      apply table_Core; [done| |done].
      intros [id r] Hin. by apply elem_of_map_delete in Hin as [_ ?]. }
    destruct msg; cbn; try apply H'; apply settle_await; apply H'.
  - cbn. rewrite list_insert_id by done. revert H. by apply await_same.
Qed.

Lemma workerError_await conn e w :
  await_ok w → await_ok (workerError conn e w).
Proof.
  intros H. unfold workerError.
  destruct (connections w !! conn) as [c|] eqn:Hc; [|done].
  destruct (attached c); [|done]. unfold onError. cbn.
  apply foldl_settle_rejected_await. revert H. by apply await_same.
Qed.

Lemma ready_await w : Core w → await_ok w → await_ok (ready w).
Proof.
  intros HC H. unfold ready.
  pose proof (core_state _ HC) as Hso. unfold state_ok in Hso.
  destruct (the_state w) as [|r k|r k|r k|c k] eqn:Hs; cbn; try done.
  - apply set_state_await; [done|]. by apply makeBlockedState_await.
  - destruct Hso as (Hp & _).
    assert (Hi : _instance w ≠ None) by (apply the_state_instance; congruence).
    apply tryConnect_await.
    + intros r' k'. rewrite the_state_set_state by done.
      rewrite set_state_promises. intros [?|[= <- <-]]; done.
    + intros c k'. by rewrite the_state_set_state.
    + by apply set_state_await.
Qed.

Lemma disconnect_await w : await_ok w → await_ok (disconnect w).
Proof.
  intros H. unfold disconnect.
  assert (Ha : ∀ k, await_ok (abort k w)) by (intros k; revert H; by apply await_same).
  destruct (the_state w); cbn; try done; try by apply set_state_await.
  by apply set_state_await; [|apply disposeConnection_await].
Qed.

Lemma await_init a : await_ok (refCountedWorker a).
Proof.
  split; [|done]. intros i tg. unfold call_status. cbn. by rewrite lookup_nil.
Qed.

Lemma step_await e w : Inv w → await_ok w → await_ok (step e w).2.
Proof.
  intros [HC _] H. destruct e as [| | | |p|f a|m a|conn msg|conn err]; cbn.
  - done.
  - unfold getProxy, ensureInstance. destruct (_instance w) eqn:Hi; cbn; [done|].
    revert H. apply await_same; try done. unfold the_state. cbn. by rewrite Hi.
  - unfold acquire. pose proof (ensureInstance_Core w HC) as HC1.
    assert (H1 : await_ok (ensureInstance w).2).
    { unfold ensureInstance. destruct (_instance w) eqn:Hi; cbn; [done|].
      revert H. apply await_same; try done. unfold the_state. cbn. by rewrite Hi. }
    destruct (ensureInstance w) as [inst w1]. cbn [fst snd] in *.
    assert (H2 : await_ok (set_refCount (_refCount w1 + 1) w1))
      by (revert H1; by apply await_same).
    destruct (0 <? _)%Z; [|done].
    apply ready_await; [by apply set_refCount_Core|done].
  - unfold release. destruct (_instance w); [|done]. cbn.
    assert (H2 : await_ok (set_refCount (_refCount w - 1) w))
      by (revert H; by apply await_same).
    destruct (_refCount w - 1 <=? 0)%Z; [by apply disconnect_await|done].
  - unfold getMethod. destruct (_instance w) as [q|]; [|done].
    destruct (methods q !! p); cbn; [done|]. revert H. by apply await_same.
  - destruct (_instance w); [|done]. destruct (functions w !! f); [|done].
    pose proof (forwardingCall_await s a w HC H).
    by destruct (forwardingCall s a w).
  - pose proof (getMethod_Core m w HC) as HC1.
    assert (H1 : await_ok (getMethod m w).2).
    { unfold getMethod. destruct (_instance w) as [q|]; [|done].
      destruct (methods q !! m); cbn; [done|]. revert H. by apply await_same. }
    destruct (getMethod m w) as [[f|] w1]; cbn [fst snd] in *; [|done].
    pose proof (forwardingCall_await m a w1 HC1 H1).
    by destruct (forwardingCall m a w1).
  - by apply workerMessage_await.
  - by apply workerError_await.
Qed.

Lemma run_await es w : Inv w → await_ok w → await_ok (run es w).
Proof.
  revert w. induction es as [|e es IH]; intros w Hw H; [done|].
  apply IH; [by apply Inv_step|by apply step_await].
Qed.

(** ** Rejections of the shared request *)

Lemma resumeCall_awaiting_other r r' st w j i :
  r' ≠ r →
  call_status i w = Some (AwaitingConnection (AwaitRequest r')) →
  call_status i (resumeCall r st w j)
  = Some (AwaitingConnection (AwaitRequest r')).
Proof.
  intros Hne Hi. unfold resumeCall.
  destruct (calls w !! j) as [m|] eqn:Hm; [|done].
  destruct (status m) as [[r0|]| |] eqn:Hs; try done.
  destruct (Nat.eqb_spec r0 r) as [->|Hne0]; [|done].
  assert (Hij : i ≠ j).
  { intros ->. unfold call_status in Hi. rewrite Hm in Hi. cbn in Hi. congruence. }
  destruct st; [done| |].
  - unfold call_status. by rewrite forward_other_call.
  - unfold call_status. cbn. by rewrite list_lookup_insert_ne.
Qed.

Lemma foldl_resumeCall_awaiting_other r r' st l w i :
  r' ≠ r →
  call_status i w = Some (AwaitingConnection (AwaitRequest r')) →
  call_status i (foldl (resumeCall r st) w l)
  = Some (AwaitingConnection (AwaitRequest r')).
Proof.
  intros Hne. revert w. induction l as [|j l IH]; intros w Hi; simpl; [done|].
  by apply IH, resumeCall_awaiting_other.
Qed.

Lemma settleRequest_awaiting_other r r' st w i :
  r' ≠ r →
  call_status i w = Some (AwaitingConnection (AwaitRequest r')) →
  call_status i (settleRequest r st w)
  = Some (AwaitingConnection (AwaitRequest r')).
Proof.
  intros Hne Hi. unfold settleRequest.
  destruct (promises w !! r) as [[| |]|]; try done.
  by apply foldl_resumeCall_awaiting_other.
Qed.

Lemma resumeCall_rejects r e w i :
  call_status i w = Some (AwaitingConnection (AwaitRequest r)) →
  call_status i (resumeCall r (RequestRejected e) w i)
  = Some (Settled (Rejected e)).
Proof.
  unfold resumeCall, call_status. destruct (calls w !! i) as [m|] eqn:Hm; [|done].
  cbn. intros [= ->]. rewrite Nat.eqb_refl. cbn.
  by rewrite list_lookup_insert_eq by (by eapply lookup_lt_Some).
Qed.

Lemma foldl_resumeCall_rejects r e l w i :
  i ∈ l →
  call_status i w = Some (AwaitingConnection (AwaitRequest r)) →
  call_status i (foldl (resumeCall r (RequestRejected e)) w l)
  = Some (Settled (Rejected e)).
Proof.
  revert w. induction l as [|j l IH]; intros w Hin Hi; simpl.
  { by apply elem_of_nil in Hin. }
  destruct (decide (j = i)) as [->|Hne].
  - pose proof (resumeCall_rejects r e w i Hi) as H1.
    clear IH Hin. revert H1. generalize (resumeCall r (RequestRejected e) w i).
    induction l as [|j l IH]; intros w1 H1; simpl; [done|].
    apply IH. by apply (resumeCall_kept i r _ w1 j).
  - apply IH.
    + apply elem_of_cons in Hin as [?|?]; [congruence|done].
    + unfold resumeCall. destruct (calls w !! j) as [m|] eqn:Hm; [|done].
      destruct (status m) as [[r0|]| |]; try done.
      destruct (Nat.eqb r0 r); [|done].
      unfold call_status. cbn. by rewrite list_lookup_insert_ne.
Qed.

Lemma settleRequest_rejects r e w i :
  promises w !! r = Some RequestPending →
  call_status i w = Some (AwaitingConnection (AwaitRequest r)) →
  call_status i (settleRequest r (RequestRejected e) w)
  = Some (Settled (Rejected e)).
Proof.
  intros Hp Hi. unfold settleRequest. rewrite Hp.
  apply foldl_resumeCall_rejects; [|done].
  apply elem_of_seq. split; [lia|]. cbn. unfold call_status in Hi.
  destruct (calls w !! i) eqn:E; [|done]. by eapply lookup_lt_Some.
Qed.

(** ** The answer to the ["constructor"] call of an attempt *)

(** The world in which the callbacks of the ["constructor"] call of
    connection [c] run. *)
Lemma constructor_answered w c conn msg :
  connections w !! c = Some conn → attached conn = true →
  map_get 1 (requests conn) = Some (ConnectAwait c) →
  msg_id msg = 1 →
  let w0 := set_warnings (warnings w ++ [])
              (set_connections
                 (<[c := {| worker := worker conn;
                            requests := map_delete 1 (requests conn);
                            nextCallId := nextCallId conn;
                            attached := attached conn;
                            posted := posted conn |}]> (connections w)) w) in
  (∀ v, msg = Success 1 v →
        workerMessage c msg w = connectResumed c (Fulfilled v) w0)
  ∧ (∀ e, msg = Error 1 e →
        workerMessage c msg w = connectResumed c (Rejected e) w0).
Proof.
  intros Hc Hatt Hget Hid w0. split.
  - intros v ->. unfold workerMessage. rewrite Hc, Hatt. unfold onMessage.
    cbn [msg_id]. rewrite Hget. done.
  - intros e ->. unfold workerMessage. rewrite Hc, Hatt. unfold onMessage.
    cbn [msg_id]. rewrite Hget. done.
Qed.

(** The ["constructor"] call of an aborted attempt succeeds: the connection
    is disposed, the request of the attempt is rejected with the abort
    reason, the state is left alone. *)
Lemma aborted_construction_answered w c conn task v :
  connections w !! c = Some conn → attached conn = true →
  map_get 1 (requests conn) = Some (ConnectAwait c) →
  tasks w !! c = Some task → rawConnection task = c →
  is_aborted (task_controller task) w = true →
  let w' := workerMessage c (Success 1 v) w in
  the_state w' = the_state w
  ∧ workers w' = workers w
  ∧ (∃ conn', connections w' !! c = Some conn' ∧ attached conn' = false)
  ∧ (∀ i, promises w !! task_request task = Some RequestPending →
          call_status i w
          = Some (AwaitingConnection (AwaitRequest (task_request task))) →
          call_status i w' = Some (Settled (Rejected VAbortError)))
  ∧ (∀ i r', r' ≠ task_request task →
          call_status i w = Some (AwaitingConnection (AwaitRequest r')) →
          call_status i w' = Some (AwaitingConnection (AwaitRequest r'))).
Proof.
  intros Hc Hatt Hget Ht Hraw Hab w'.
  destruct (constructor_answered w c conn (Success 1 v) Hc Hatt Hget eq_refl)
    as [Heq _].
  subst w'. rewrite (Heq v eq_refl). clear Heq.
  unfold connectResumed. cbn [tasks set_warnings set_connections].
  rewrite Ht. change (is_aborted (task_controller task) _)
    with (is_aborted (task_controller task) w). rewrite Hab.
  match goal with |- context [settleRequest ?r ?st ?w1] =>
    set (W1 := w1); set (W := settleRequest r st w1) end.
  assert (HW1 : the_state W1 = the_state w ∧ workers W1 = workers w
                ∧ calls W1 = calls w ∧ promises W1 = promises w
                ∧ ∃ conn', connections W1 !! c = Some conn'
                           ∧ attached conn' = false).
  { subst W1. rewrite the_state_setTaskStatus, the_state_disposeConnection.
    rewrite setTaskStatus_calls, disposeConnection_calls.
    rewrite setTaskStatus_promises, disposeConnection_promises.
    rewrite setTaskStatus_connections.
    split; [done|]. split.
    { unfold setTaskStatus, disposeConnection. cbn. rewrite Hraw.
      rewrite list_lookup_insert_eq by (by eapply lookup_lt_Some). cbn.
      by rewrite Ht. }
    split; [done|]. split; [done|].
    unfold disposeConnection. cbn. rewrite Hraw.
    rewrite list_lookup_insert_eq by (by eapply lookup_lt_Some). cbn.
    rewrite list_lookup_insert_eq
      by (rewrite length_insert; by eapply lookup_lt_Some).
    eauto. }
  destruct HW1 as (Hs1 & Hw1 & Hc1 & Hp1 & conn' & Hconn' & Hatt').
  pose proof (settleRequest_reacts (task_request task)
                (RequestRejected VAbortError) W1) as Hre. fold W in Hre.
  split; [by rewrite (the_state_reacts _ _ Hre)|].
  split; [by rewrite (re_workers _ _ Hre)|].
  split.
  { destruct (settleRequest_quiet (task_request task) VAbortError W1) as [Hq _].
    fold W in Hq. rewrite Hq. eauto. }
  split.
  - intros i Hp Hi. apply settleRequest_rejects; [by rewrite Hp1|].
    unfold call_status. by rewrite Hc1.
  - intros i r' Hne Hi. apply settleRequest_awaiting_other; [done|].
    unfold call_status. by rewrite Hc1.
Qed.


Lemma set_state_tasks s w : tasks (set_state s w) = tasks w.
Proof. unfold set_state. by destruct (_instance w). Qed.


Lemma set_state_workers s w : workers (set_state s w) = workers w.
Proof. unfold set_state. by destruct (_instance w). Qed.

(** The attempt of the state ["connecting"]. *)
Lemma current_attempt w r k c task :
  Inv w → the_state w = Connecting r k →
  tasks w !! c = Some task → task_controller task = k →
  rawConnection task = c ∧ task_request task = r
  ∧ is_aborted k w = false.
Proof.
  intros [[_ Hso (_ & Hts & _) _] _] Hs Ht Hk.
  unfold state_ok in Hso. rewrite Hs in Hso.
  assert (Hab : is_aborted k w = false) by (unfold is_aborted; by rewrite Hso).
  destruct (Hts _ _ Ht) as (Hraw & _ & _ & Hcur).
  rewrite Hk in Hcur. destruct (Hcur Hab) as [[E _]|[E _]]; [|congruence].
  rewrite Hs in E. injection E as E. done.
Qed.



(** X9: the answer to an abandoned construction disturbs nothing.  When the
    ["constructor"] call of an attempt whose controller was aborted is
    answered with success, its connection is disposed and the calls that
    waited for it are rejected with the abort reason; the state (a newer
    attempt, say), the number of workers and the calls that wait for another
    request are left as they are. *)
Theorem stale_construction_is_discarded (a : list Value) (es : list Event)
    (c : nat) (conn : WorkerConnection) (task : ConnectTask) (v : Value) :
  let w := run es (refCountedWorker a) in
  connections w !! c = Some conn →
  attached conn = true →
  map_get 1 (requests conn) = Some (ConnectAwait c) →
  tasks w !! c = Some task →
  is_aborted (task_controller task) w = true →
  let w' := run [WorkerMessage c (Success 1 v)] w in
  the_state w' = the_state w
  ∧ workers w' = workers w
  ∧ attached <$> connections w' !! c = Some false
  ∧ (∀ i, call_status i w
          = Some (AwaitingConnection (AwaitRequest (task_request task))) →
          call_status i w' = Some (Settled (Rejected VAbortError)))
  ∧ (∀ i r', r' ≠ task_request task →
          call_status i w = Some (AwaitingConnection (AwaitRequest r')) →
          call_status i w' = Some (AwaitingConnection (AwaitRequest r'))).
Proof.
  intros w Hc Hatt Hget Ht Hab w'.
  pose proof (Inv_run es _ (Inv_init a)) as Hw. fold w in Hw.
  pose proof (run_await es _ (Inv_init a) (await_init a)) as [Haw _].
  fold w in Haw.
  pose proof Hw as [[_ _ (_ & Hts & _) _] _].
  destruct (Hts _ _ Ht) as (Hraw & _).
  destruct (aborted_construction_answered w c conn task v)
    as (Hs2 & Hwk & (conn' & Hc' & Hatt') & Hrej & Hoth); try done.
  change (workerMessage c (Success 1 v) w) with w' in *.
  split; [done|]. split; [done|].
  split; [by rewrite Hc'; cbn; rewrite Hatt'|].
  split; [|done].
  intros i Hi. apply Hrej; [|done].
  by destruct (Haw _ _ Hi) as (r0 & [= <-] & Hp).
Qed.

Lemma stale_construction_is_discarded_witness :
  let w := run [Acquire; Invoke "add" [VNumber 1; VNumber 2]; Release;
                Acquire; Invoke "add" [VNumber 3; VNumber 4]]
             (refCountedWorker [VNumber 1]) in
  let w' := run [WorkerMessage 0 (Success 1 VUndefined)] w in
  the_state w = Connecting 1 1
  ∧ the_state w' = Connecting 1 1
  ∧ workers w' = 2
  ∧ attached <$> connections w' !! 0 = Some false
  ∧ attached <$> connections w' !! 1 = Some true
  ∧ call_status 0 w' = Some (Settled (Rejected VAbortError))
  ∧ call_status 1 w' = Some (AwaitingConnection (AwaitRequest 1)).
Proof.
  intros w w'.
  assert (Hc : connections w !! 0
    = Some {| worker := 0; requests := [(1, ConnectAwait 0)]; nextCallId := 2;
              attached := true;
              posted := [Call 1 "constructor" [VNumber 1]] |}) by (vm_compute; reflexivity).
  assert (Ht : tasks w !! 0
    = Some {| task_request := 0; task_controller := 0; rawConnection := 0;
              task_status := TaskPending |}) by (vm_compute; reflexivity).
  assert (Hab : is_aborted 0 w = true) by (vm_compute; reflexivity).
  assert (H0 : call_status 0 w = Some (AwaitingConnection (AwaitRequest 0)))
    by (vm_compute; reflexivity).
  assert (H1' : call_status 1 w = Some (AwaitingConnection (AwaitRequest 1)))
    by (vm_compute; reflexivity).
  destruct (stale_construction_is_discarded [VNumber 1] _ 0 _ _ VUndefined
              Hc eq_refl eq_refl Ht Hab) as (H1 & H2 & H3 & H4 & H5).
  split; [vm_compute; reflexivity|]. split; [exact H1|]. split; [exact H2|].
  split; [exact H3|]. split; [vm_compute; reflexivity|].
  split; [exact (H4 0 H0)|].
  exact (H5 1 1 ltac:(discriminate) H1').
Defined.

(** ** A construction that fails *)




(** ** Requests that nobody will settle *)

Lemma orphaned_same i r w w' :
  promises w' = promises w → tasks w' = tasks w → calls w' = calls w →
  the_state w' = the_state w → orphaned i r w → orphaned i r w'.
Proof.
  intros Hp Ht Hc Hs. unfold orphaned, call_status.
  by rewrite Hp, Ht, Hc, Hs.
Qed.

Lemma set_state_orphaned i r s w :
  state_request s ≠ Some r → orphaned i r w → orphaned i r (set_state s w).
Proof.
  intros Hs (H1 & H2 & H3 & H4). unfold orphaned, call_status.
  rewrite set_state_calls, set_state_promises, set_state_tasks.
  repeat (split; [done|]).
  by destruct (the_state_set_state_cases s w) as [-> | ->].
Qed.

Lemma makeBlockedState_orphaned i r w :
  orphaned i r w →
  orphaned i r (makeBlockedState w).2 ∧ length (promises w) ≠ r.
Proof.
  intros (H1 & H2 & H3 & H4). split.
  - split; [done|]. split; [|done]. cbn. by apply lookup_app_l_Some.
  - apply lookup_lt_Some in H2. lia.
Qed.

Lemma settleRequest_orphaned i r r' st w :
  r' ≠ r → orphaned i r w → orphaned i r (settleRequest r' st w).
Proof.
  intros Hne (H1 & H2 & H3 & H4).
  pose proof (settleRequest_reacts r' st w) as Hre.
  split; [by apply settleRequest_awaiting_other|].
  split; [by rewrite settleRequest_promises|].
  split; [by rewrite (re_tasks _ _ Hre)|].
  by rewrite (the_state_reacts _ _ Hre).
Qed.

Lemma connect_orphaned i r r' k w :
  r' ≠ r → orphaned i r w → orphaned i r (connect r' k w).
Proof.
  intros Hne H. unfold connect. destruct (is_aborted k w).
  { by apply settleRequest_orphaned. }
  destruct H as (H1 & H2 & H3 & H4). split; [done|]. split; [done|].
  split; [|done]. cbn. intros t task Ht.
  apply lookup_app_Some in Ht as [Ht|[_ Ht]]; [eauto|].
  apply list_lookup_singleton_Some in Ht as [_ <-]. done.
Qed.

Lemma tryConnect_orphaned i r w :
  orphaned i r w → orphaned i r (tryConnect w).2.
Proof.
  intros H. unfold tryConnect.
  destruct (the_state w) as [|r' k|r' k|r' k|c k] eqn:Hs; cbn; try done.
  - destruct (makeBlockedState_orphaned i r w H) as [H' Hne].
    apply set_state_orphaned; [cbn; congruence|done].
  - assert (Hne : r' ≠ r).
    { destruct H as (_ & _ & _ & H4). rewrite Hs in H4. cbn in H4. congruence. }
    apply set_state_orphaned; [cbn; congruence|by apply connect_orphaned].
Qed.

Lemma ready_orphaned i r w : orphaned i r w → orphaned i r (ready w).
Proof.
  intros H. unfold ready.
  destruct (the_state w) as [|r' k|r' k|r' k|c k] eqn:Hs; cbn; try done.
  - destruct (makeBlockedState_orphaned i r w H) as [H' Hne].
    apply set_state_orphaned; [cbn; congruence|done].
  - assert (Hne : r' ≠ r).
    { destruct H as (_ & _ & _ & H4). rewrite Hs in H4. cbn in H4. congruence. }
    apply tryConnect_orphaned, set_state_orphaned; [cbn; congruence|done].
Qed.

Lemma disposeConnection_tasks c w : tasks (disposeConnection c w) = tasks w.
Proof. unfold disposeConnection. by destruct (connections w !! c). Qed.

Lemma disposeConnection_orphaned i r c w :
  orphaned i r w → orphaned i r (disposeConnection c w).
Proof.
  apply orphaned_same;
    [apply disposeConnection_promises|apply disposeConnection_tasks
    |apply disposeConnection_calls|apply the_state_disposeConnection].
Qed.

Lemma setTaskStatus_orphaned i r t s w :
  orphaned i r w → orphaned i r (setTaskStatus t s w).
Proof.
  intros (H1 & H2 & H3 & H4). unfold orphaned, call_status.
  rewrite setTaskStatus_calls, setTaskStatus_promises, the_state_setTaskStatus.
  repeat (split; [done|]). split; [|done].
  unfold setTaskStatus. destruct (tasks w !! t) as [task|] eqn:Ht; [|done].
  cbn. intros t' task' Ht'. destruct (decide (t' = t)) as [->|Hne].
  - rewrite list_lookup_insert_eq in Ht' by (by eapply lookup_lt_Some).
    injection Ht' as <-. cbn. eauto.
  - rewrite list_lookup_insert_ne in Ht' by done. eauto.
Qed.

Lemma disconnect_orphaned i r w : orphaned i r w → orphaned i r (disconnect w).
Proof.
  intros H. unfold disconnect.
  assert (Ha : ∀ k, orphaned i r (abort k w))
    by (intros k; revert H; by apply orphaned_same).
  destruct (the_state w); cbn; try done; try by apply set_state_orphaned.
  by apply set_state_orphaned; [|apply disposeConnection_orphaned].
Qed.

Lemma resumeCall_other_call r st w j i :
  i ≠ j → calls (resumeCall r st w j) !! i = calls w !! i.
Proof.
  intros Hne. unfold resumeCall. destruct (calls w !! j) as [m|]; [|done].
  destruct (status m) as [[r0|]| |]; try done.
  destruct (Nat.eqb r0 r); [|done]. destruct st; [done| |].
  - by apply forward_other_call.
  - cbn. by rewrite list_lookup_insert_ne.
Qed.

(** A reaction of another call. *)
Lemma reaction_orphaned i r j w w' :
  i ≠ j → reacts w w' → promises w' = promises w →
  calls w' !! i = calls w !! i →
  orphaned i r w → orphaned i r w'.
Proof.
  intros Hne Hre Hp Hc (H1 & H2 & H3 & H4). unfold orphaned, call_status.
  rewrite Hc, Hp, (re_tasks _ _ Hre), (the_state_reacts _ _ Hre). done.
Qed.

Lemma forwardingCall_orphaned i r m a w :
  orphaned i r w → orphaned i r (forwardingCall m a w).2.
Proof.
  intros H. unfold forwardingCall. pose proof (tryConnect_orphaned i r w H) as H1.
  destruct (tryConnect w) as [target w1]. cbn [fst snd] in *.
  set (w2 := set_calls _ w1).
  assert (Hlt : i < length (calls w1)).
  { destruct H1 as (Hi & _). unfold call_status in Hi.
    destruct (calls w1 !! i) eqn:E; [|done]. by eapply lookup_lt_Some. }
  assert (H2 : orphaned i r w2).
  { destruct H1 as (Hi & Hp & Ht & Hs). split; [|done].
    unfold call_status, w2. cbn. by rewrite lookup_app_l. }
  assert (Hne : i ≠ length (calls w)).
  { destruct H as (Hi & _). unfold call_status in Hi.
    destruct (calls w !! i) eqn:E; [|done]. apply lookup_lt_Some in E. lia. }
  clearbody w2.
  destruct target as [r'|conn k]; cbn [snd].
  - destruct (promises w2 !! r') as [st|]; [|done].
    apply (reaction_orphaned i r (length (calls w)) w2); try done.
    + apply resumeCall_reacts.
    + apply resumeCall_promises.
    + by apply resumeCall_other_call.
  - apply (reaction_orphaned i r (length (calls w)) w2); try done.
    + apply forward_reacts.
    + apply forward_promises.
    + by apply forward_other_call.
Qed.

Lemma settle_orphaned i r w s : orphaned i r w → orphaned i r (settle w s).
Proof.
  intros H. destruct s as [[t|j] o]; unfold settle; cbn.
  - unfold connectResumed. destruct (tasks w !! t) as [task|] eqn:Ht; [|done].
    assert (Hne : task_request task ≠ r) by (destruct H as (_ & _ & H3 & _); eauto).
    destruct o as [v|e]; [destruct (is_aborted (task_controller task) w)|].
    + by apply settleRequest_orphaned, setTaskStatus_orphaned,
        disposeConnection_orphaned.
    + by apply settleRequest_orphaned, set_state_orphaned, setTaskStatus_orphaned.
    + by apply settleRequest_orphaned, setTaskStatus_orphaned.
  - destruct (calls w !! j) as [m|] eqn:Hm; [|done].
    destruct (status m) eqn:Hst; try done.
    destruct H as (H1 & H2 & H3 & H4). split; [|done].
    unfold call_status in *. cbn. destruct (decide (i = j)) as [->|Hne].
    + rewrite Hm in H1. cbn in H1. congruence.
    + by rewrite list_lookup_insert_ne.
Qed.

Lemma foldl_settle_orphaned i r l w :
  orphaned i r w → orphaned i r (foldl settle w l).
Proof.
  revert w. induction l as [|s l IH]; intros w H; simpl; [done|].
  by apply IH, settle_orphaned.
Qed.

Lemma workerMessage_orphaned i r conn msg w :
  orphaned i r w → orphaned i r (workerMessage conn msg w).
Proof.
  intros H. unfold workerMessage.
  destruct (connections w !! conn) as [c|] eqn:Hc; [|done].
  destruct (attached c); [|done].
  destruct (onMessage c msg) as [[c' settled] warned].
  apply foldl_settle_orphaned. revert H. by apply orphaned_same.
Qed.

Lemma workerError_orphaned i r conn e w :
  orphaned i r w → orphaned i r (workerError conn e w).
Proof.
  intros H. unfold workerError.
  destruct (connections w !! conn) as [c|] eqn:Hc; [|done].
  destruct (attached c); [|done].
  destruct (onError c e) as [c' settled].
  apply foldl_settle_orphaned. revert H. by apply orphaned_same.
Qed.

Lemma ensureInstance_orphaned i r w :
  orphaned i r w → orphaned i r (ensureInstance w).2.
Proof.
  unfold ensureInstance. destruct (_instance w) eqn:Hi; cbn; [done|].
  apply orphaned_same; try done. unfold the_state. cbn. by rewrite Hi.
Qed.

Lemma step_orphaned i r e w : orphaned i r w → orphaned i r (step e w).2.
Proof.
  intros H. destruct e as [| | | |p|f a|m a|conn msg|conn err]; cbn.
  - done.
  - unfold getProxy. pose proof (ensureInstance_orphaned i r w H).
    by destruct (ensureInstance w).
  - unfold acquire. pose proof (ensureInstance_orphaned i r w H) as H1.
    destruct (ensureInstance w) as [inst w1]. cbn [fst snd] in *.
    assert (H2 : orphaned i r (set_refCount (_refCount w1 + 1) w1))
      by (revert H1; by apply orphaned_same).
    destruct (0 <? _)%Z; [by apply ready_orphaned|done].
  - unfold release. destruct (_instance w); [|done]. cbn.
    assert (H2 : orphaned i r (set_refCount (_refCount w - 1) w))
      by (revert H; by apply orphaned_same).
    destruct (_refCount w - 1 <=? 0)%Z; [by apply disconnect_orphaned|done].
  - unfold getMethod. destruct (_instance w) as [q|]; [|done].
    destruct (methods q !! p); cbn; [done|]. revert H. by apply orphaned_same.
  - destruct (_instance w); [|done]. destruct (functions w !! f); [|done].
    pose proof (forwardingCall_orphaned i r s a w H).
    by destruct (forwardingCall s a w).
  - assert (H1 : orphaned i r (getMethod m w).2).
    { unfold getMethod. destruct (_instance w) as [q|]; [|done].
      destruct (methods q !! m); cbn; [done|]. revert H. by apply orphaned_same. }
    destruct (getMethod m w) as [[f|] w1]; cbn [fst snd] in *; [|done].
    pose proof (forwardingCall_orphaned i r m a w1 H1).
    by destruct (forwardingCall m a w1).
  - by apply workerMessage_orphaned.
  - by apply workerError_orphaned.
Qed.

Lemma run_orphaned i r es w : orphaned i r w → orphaned i r (run es w).
Proof.
  revert w. induction es as [|e es IH]; intros w H; [done|].
  by apply IH, step_orphaned.
Qed.

(** X11: [release()] while a call is blocked.  A call made before any
    [acquire()] waits in the state ["blocked"]; a [release()] then makes the
    state ["disconnected"] and leaves the call waiting for a request that
    nothing settles any more: whatever happens afterwards, a later
    [acquire()] included, the promise of the call stays pending. *)
Theorem release_while_blocked_orphans_call (a : list Value)
    (es more : list Event) (r k i : nat) :
  let w := run es (refCountedWorker a) in
  the_state w = Blocked r k →
  call_status i w = Some (AwaitingConnection (AwaitRequest r)) →
  getState (run [Release] w) = "disconnected"
  ∧ call_status i (run (Release :: more) w)
    = Some (AwaitingConnection (AwaitRequest r)).
Proof.
  intros w Hs Hi.
  pose proof (Inv_run es _ (Inv_init a)) as Hw. fold w in Hw.
  assert (Hinst : _instance w ≠ None) by (apply the_state_instance; congruence).
  pose proof Hw as [[_ Hso _ _] [_ Hcnt]]. unfold state_ok in Hso.
  rewrite Hs in Hso, Hcnt. destruct Hso as (Hp & Hk & Hts).
  assert (Hrel : release w
                 = set_state Disconnected
                     (abort k (set_refCount (_refCount w - 1) w))).
  { unfold release, the_state in *.
    destruct (_instance w) as [p|] eqn:Hq; [|done]. cbn.
    destruct (Z.leb_spec (_refCount w - 1) 0) as [_|?]; [|lia].
    unfold disconnect, the_state. cbn. by rewrite Hq, Hs. }
  assert (Hs1 : the_state (release w) = Disconnected).
  { rewrite Hrel. by apply the_state_set_state. }
  split; [cbn; by rewrite getState_the_state, Hs1|].
  change (run (Release :: more) w) with (run more (release w)).
  apply (run_orphaned i r more). split; [|split; [|split]].
  - unfold call_status. by rewrite Hrel, set_state_calls.
  - by rewrite Hrel, set_state_promises.
  - rewrite Hrel, set_state_tasks. cbn. intros t task Ht.
    by destruct (Hts _ _ Ht).
  - by rewrite Hs1.
Qed.

Lemma release_while_blocked_orphans_call_witness :
  let w := run [GetProxy; Invoke "add" [VNumber 111; VNumber 222]]
             (refCountedWorker [VNumber 1]) in
  let more := [Acquire; Acquire; Invoke "add" [VNumber 1; VNumber 2];
               WorkerMessage 0 (Success 1 VUndefined);
               WorkerMessage 0 (Success 2 (VNumber 3))] in
  the_state w = Blocked 0 0
  ∧ call_status 0 w = Some (AwaitingConnection (AwaitRequest 0))
  ∧ getState (run (Release :: more) w) = "connected"
  ∧ call_status 1 (run (Release :: more) w)
    = Some (Settled (Fulfilled (VNumber 3)))
  ∧ call_status 0 (run (Release :: more) w)
    = Some (AwaitingConnection (AwaitRequest 0)).
Proof.
  intros w more.
  assert (Hs : the_state w = Blocked 0 0) by (vm_compute; reflexivity).
  assert (Hi : call_status 0 w = Some (AwaitingConnection (AwaitRequest 0)))
    by (vm_compute; reflexivity).
  split; [exact Hs|]. split; [exact Hi|].
  split; [vm_compute; reflexivity|]. split; [vm_compute; reflexivity|].
  exact (proj2 (release_while_blocked_orphans_call [VNumber 1] _ more 0 0 0
                  Hs Hi)).
Defined.

(** ** Connections that nobody will dispose *)

Lemma stranded_same c w w' :
  connections w' = connections w → the_state w' = the_state w →
  stranded c w → stranded c w'.
Proof. intros Hc Hs. unfold stranded. by rewrite Hc, Hs. Qed.

Lemma set_state_stranded c s w :
  (∀ k, s ≠ Connected c k) → stranded c w → stranded c (set_state s w).
Proof.
  intros Hs [H1 H2]. split; [by rewrite set_state_connections|].
  intros k. by destruct (the_state_set_state_cases s w) as [-> | ->].
Qed.

Lemma disposeConnection_stranded c c' w :
  c' ≠ c → stranded c w → stranded c (disposeConnection c' w).
Proof.
  intros Hne [(conn & Hc & Hatt & Hreq) H2].
  split; [|by rewrite the_state_disposeConnection].
  unfold disposeConnection. destruct (connections w !! c'); [|eauto].
  cbn. rewrite list_lookup_insert_ne by done. eauto.
Qed.

Lemma setTaskStatus_stranded c t s w :
  stranded c w → stranded c (setTaskStatus t s w).
Proof.
  apply stranded_same; [apply setTaskStatus_connections
                       |apply the_state_setTaskStatus].
Qed.

Lemma table_stranded c conn c0 reqs w :
  connections w !! conn = Some c0 →
  (∀ e, e ∈ reqs → e ∈ requests c0) →
  stranded c w →
  stranded c (set_connections
                (<[conn := {| worker := worker c0; requests := reqs;
                              nextCallId := nextCallId c0;
                              attached := attached c0; posted := posted c0 |}]>
                   (connections w)) w).
Proof.
  intros Hc0 Hsub [(conn1 & Hc & Hatt & Hreq) H2]. split; [|done]. cbn.
  destruct (decide (c = conn)) as [->|Hne].
  - rewrite list_lookup_insert_eq by (by eapply lookup_lt_Some).
    rewrite Hc in Hc0. injection Hc0 as <-.
    eexists. split; [done|]. split; [done|]. cbn.
    intros id t Hin. by apply (Hreq id t), Hsub.
  - rewrite list_lookup_insert_ne by done. eauto.
Qed.

Lemma forward_stranded c i conn w : stranded c w → stranded c (forward i conn w).
Proof.
  intros [(conn1 & Hc & Hatt & Hreq) H2].
  split; [|by rewrite (the_state_reacts _ _ (forward_reacts i conn w))].
  unfold forward. destruct (calls w !! i) as [m|]; [|eauto].
  destruct (connections w !! conn) as [c0|] eqn:Hc0; [|eauto]. cbn.
  destruct (decide (c = conn)) as [->|Hne].
  - rewrite list_lookup_insert_eq by (by eapply lookup_lt_Some).
    rewrite Hc in Hc0. injection Hc0 as <-.
    eexists. split; [done|]. split; [done|]. cbn.
    intros id t Hin. apply elem_of_map_set in Hin as [[=]|Hin].
    by apply (Hreq id t).
  - rewrite list_lookup_insert_ne by done. eauto.
Qed.

Lemma resumeCall_stranded c r st w i :
  stranded c w → stranded c (resumeCall r st w i).
Proof.
  intros H. unfold resumeCall. destruct (calls w !! i) as [m|]; [|done].
  destruct (status m) as [[r0|]| |]; try done.
  destruct (Nat.eqb r0 r); [|done]. destruct st; [done| |].
  - by apply forward_stranded.
  - revert H. by apply stranded_same.
Qed.

Lemma settleRequest_stranded c r st w :
  stranded c w → stranded c (settleRequest r st w).
Proof.
  intros H. unfold settleRequest.
  destruct (promises w !! r) as [[| |]|]; try done.
  match goal with |- stranded c (foldl _ ?w0 ?l) =>
    assert (H0 : stranded c w0) by (revert H; by apply stranded_same);
    revert H0; generalize w0; generalize l end.
  intros l. induction l as [|i l IH]; intros w0 H0; simpl; [done|].
  by apply IH, resumeCall_stranded.
Qed.

Lemma connect_stranded c r k w : stranded c w → stranded c (connect r k w).
Proof.
  intros H. unfold connect. destruct (is_aborted k w).
  { by apply settleRequest_stranded. }
  destruct H as [(conn & Hc & Hatt & Hreq) H2]. split; [|done]. cbn.
  exists conn. split; [by apply lookup_app_l_Some|done].
Qed.

Lemma tryConnect_stranded c w : stranded c w → stranded c (tryConnect w).2.
Proof.
  intros H. unfold tryConnect. destruct (the_state w); cbn; try done.
  - apply set_state_stranded; [done|]. revert H. by apply stranded_same.
  - by apply set_state_stranded, connect_stranded.
Qed.

Lemma ready_stranded c w : stranded c w → stranded c (ready w).
Proof.
  intros H. unfold ready. destruct (the_state w); cbn; try done.
  - apply set_state_stranded; [done|]. revert H. by apply stranded_same.
  - by apply tryConnect_stranded, set_state_stranded.
Qed.

Lemma disconnect_stranded c w : stranded c w → stranded c (disconnect w).
Proof.
  intros H. unfold disconnect.
  assert (Ha : ∀ k, stranded c (abort k w))
    by (intros k; revert H; by apply stranded_same).
  destruct (the_state w) as [| | | |c' k] eqn:Hs; cbn; try done;
    try by apply set_state_stranded.
  apply set_state_stranded; [done|]. apply disposeConnection_stranded; [|done].
  intros ->. destruct H as [_ H2]. by apply (H2 k).
Qed.

Lemma forwardingCall_stranded c m a w :
  stranded c w → stranded c (forwardingCall m a w).2.
Proof.
  intros H. unfold forwardingCall. pose proof (tryConnect_stranded c w H) as H1.
  destruct (tryConnect w) as [target w1]. cbn [fst snd] in *.
  match goal with |- context [set_calls ?l w1] =>
    assert (H2 : stranded c (set_calls l w1))
      by (revert H1; by apply stranded_same);
    generalize dependent (set_calls l w1) end.
  intros w2 H2. destruct target as [r|conn k]; cbn [snd].
  - destruct (promises w2 !! r); [|done]. by apply resumeCall_stranded.
  - by apply forward_stranded.
Qed.

Lemma settle_rejected_stranded c w r e :
  stranded c w → stranded c (settle w (r, Rejected e)).
Proof.
  intros H. destruct r as [t|i]; unfold settle; cbn.
  - unfold connectResumed. destruct (tasks w !! t); [|done].
    by apply settleRequest_stranded, setTaskStatus_stranded.
  - destruct (calls w !! i) as [m|]; [|done].
    by destruct (status m).
Qed.

Lemma settle_stranded c w s :
  (∀ t task, s.1 = ConnectAwait t → tasks w !! t = Some task →
             rawConnection task ≠ c) →
  stranded c w → stranded c (settle w s).
Proof.
  intros Hs H. destruct s as [r [v|e]]; [|by apply settle_rejected_stranded].
  destruct r as [t|i]; unfold settle; cbn.
  - unfold connectResumed. destruct (tasks w !! t) as [task|] eqn:Ht; [|done].
    pose proof (Hs t task eq_refl Ht) as Hne.
    destruct (is_aborted (task_controller task) w).
    + by apply settleRequest_stranded, setTaskStatus_stranded,
        disposeConnection_stranded.
    + apply settleRequest_stranded, set_state_stranded;
        [congruence|by apply setTaskStatus_stranded].
  - destruct (calls w !! i) as [m|]; [|done].
    by destruct (status m).
Qed.

Lemma foldl_settle_rejected_stranded c e (l : list WorkerRequest) w :
  stranded c w → stranded c (foldl settle w (map (λ r, (r, Rejected e)) l)).
Proof.
  revert w. induction l as [|r l IH]; intros w H; simpl; [done|].
  by apply IH, settle_rejected_stranded.
Qed.

Lemma workerMessage_stranded c conn msg w :
  Core w → stranded c w → stranded c (workerMessage conn msg w).
Proof.
  intros HC H. unfold workerMessage.
  destruct (connections w !! conn) as [c0|] eqn:Hc0; [|done].
  destruct (attached c0); [|done]. unfold onMessage.
  destruct (map_get (msg_id msg) (requests c0)) as [request|] eqn:Hget.
  - assert (H' : ∀ wn, stranded c (set_warnings wn (set_connections
       (<[conn := {| worker := worker c0;
                     requests := map_delete (msg_id msg) (requests c0);
                     nextCallId := nextCallId c0;
                     attached := attached c0; posted := posted c0 |}]>
          (connections w)) w))).
    { intros wn. eapply stranded_same; [..|apply (table_stranded c conn c0
        (map_delete (msg_id msg) (requests c0)) w Hc0)]; try done.
      intros [id r] Hin. by apply elem_of_map_delete in Hin as [_ ?]. }
    assert (Hraw : ∀ t task, request = ConnectAwait t →
                   tasks w !! t = Some task → rawConnection task ≠ c).
    { intros t task -> Ht.
      pose proof (core_connections _ HC) as (_ & Hcs).
      destruct (Hcs _ _ Hc0) as (_ & _ & He).
      specialize (He _ _ (map_get_elem_of _ _ _ Hget)). cbn in He.
      destruct He as (-> & _).
      pose proof (core_tasks _ HC) as (_ & Hts & _).
      destruct (Hts _ _ Ht) as (-> & _).
      intros ->. destruct H as [(conn1 & Hc & _ & Hreq) _].
      rewrite Hc in Hc0. injection Hc0 as <-.
      apply (Hreq _ _ (map_get_elem_of _ _ _ Hget)). }
    destruct msg; cbn [foldl]; try apply H'; by apply settle_stranded.
  - cbn. rewrite list_insert_id by done. revert H. by apply stranded_same.
Qed.

Lemma workerError_stranded c conn e w :
  stranded c w → stranded c (workerError conn e w).
Proof.
  intros H. unfold workerError.
  destruct (connections w !! conn) as [c0|] eqn:Hc0; [|done].
  destruct (attached c0); [|done]. unfold onError. cbn.
  apply foldl_settle_rejected_stranded.
  apply (table_stranded c conn c0 [] w Hc0); [|done].
  intros e0 He0. by apply elem_of_nil in He0.
Qed.

Lemma step_stranded c e w : Inv w → stranded c w → stranded c (step e w).2.
Proof.
  intros [HC _] H. destruct e as [| | | |p|f a|m a|conn msg|conn err]; cbn.
  - done.
  - unfold getProxy, ensureInstance. destruct (_instance w) eqn:Hi; cbn; [done|].
    revert H. apply stranded_same; [done|]. unfold the_state. cbn. by rewrite Hi.
  - unfold acquire.
    assert (H1 : stranded c (ensureInstance w).2).
    { unfold ensureInstance. destruct (_instance w) eqn:Hi; cbn; [done|].
      revert H. apply stranded_same; [done|]. unfold the_state. cbn.
      by rewrite Hi. }
    destruct (ensureInstance w) as [inst w1]. cbn [fst snd] in *.
    assert (H2 : stranded c (set_refCount (_refCount w1 + 1) w1))
      by (revert H1; by apply stranded_same).
    destruct (0 <? _)%Z; [by apply ready_stranded|done].
  - unfold release. destruct (_instance w); [|done]. cbn.
    assert (H2 : stranded c (set_refCount (_refCount w - 1) w))
      by (revert H; by apply stranded_same).
    destruct (_refCount w - 1 <=? 0)%Z; [by apply disconnect_stranded|done].
  - unfold getMethod. destruct (_instance w) as [q|]; [|done].
    destruct (methods q !! p); cbn; [done|]. revert H. by apply stranded_same.
  - destruct (_instance w); [|done]. destruct (functions w !! f); [|done].
    pose proof (forwardingCall_stranded c s a w H).
    by destruct (forwardingCall s a w).
  - assert (H1 : stranded c (getMethod m w).2).
    { unfold getMethod. destruct (_instance w) as [q|]; [|done].
      destruct (methods q !! m); cbn; [done|]. revert H. by apply stranded_same. }
    destruct (getMethod m w) as [[f|] w1]; cbn [fst snd] in *; [|done].
    pose proof (forwardingCall_stranded c m a w1 H1).
    by destruct (forwardingCall m a w1).
  - by apply workerMessage_stranded.
  - by apply workerError_stranded.
Qed.

Lemma run_stranded c es w : Inv w → stranded c w → stranded c (run es w).
Proof.
  revert w. induction es as [|e es IH]; intros w Hw H; [done|].
  apply IH; [by apply Inv_step|by apply step_stranded].
Qed.

(** X12: the worker of a failed construction is never terminated.  Once the
    ["constructor"] call of a connection was answered with an error
    envelope, no later event disposes that connection: its listeners stay
    attached and its worker is not terminated, whatever is released or
    acquired afterwards. *)
Theorem failed_construction_strands_worker (a : list Value)
    (es more : list Event) (c : nat) (conn : WorkerConnection) (err : Value) :
  let w := run es (refCountedWorker a) in
  connections w !! c = Some conn →
  attached conn = true →
  map_get 1 (requests conn) = Some (ConnectAwait c) →
  attached <$> connections (run (WorkerMessage c (Error 1 err) :: more) w) !! c
  = Some true.
Proof.
  intros w Hc Hatt Hget.
  pose proof (Inv_run es _ (Inv_init a)) as Hw. fold w in Hw.
  pose proof (Inv_step (WorkerMessage c (Error 1 err)) w Hw) as Hw1.
  change (run (WorkerMessage c (Error 1 err) :: more) w)
    with (run more (step (WorkerMessage c (Error 1 err)) w).2).
  cut (stranded c (step (WorkerMessage c (Error 1 err)) w).2).
  { intros H. destruct (run_stranded c more _ Hw1 H) as [(conn' & E & Ha & _) _].
    rewrite E. cbn. by rewrite Ha. }
  cbn [step snd].
  destruct (constructor_answered w c conn (Error 1 err) Hc Hatt Hget eq_refl)
    as [_ Heq].
  rewrite (Heq err eq_refl). clear Heq.
  pose proof Hw as [[_ Hso (_ & Hts & _) (_ & Hcs)] _].
  destruct (Hcs _ _ Hc) as (_ & _ & He).
  pose proof (He _ _ (map_get_elem_of _ _ _ Hget)) as Hent. cbn in Hent.
  destruct Hent as (_ & _ & task & Ht & Hnf).
  apply (settle_rejected_stranded c _ (ConnectAwait c) err).
  apply (stranded_same c (set_connections
       (<[c := {| worker := worker conn;
                  requests := map_delete 1 (requests conn);
                  nextCallId := nextCallId conn;
                  attached := attached conn; posted := posted conn |}]>
          (connections w)) w)); [done|done|].
  split.
  - cbn. rewrite list_lookup_insert_eq by (by eapply lookup_lt_Some).
    eexists. split; [done|]. split; [done|]. cbn.
    intros id t Hin. apply elem_of_map_delete in Hin as [Hne Hin].
    destruct (He _ _ Hin) as (_ & ? & _). done.
  - intros k Hs. change (the_state w = Connected c k) in Hs.
    unfold state_ok in Hso. rewrite Hs in Hso.
    destruct Hso as (_ & (task' & Ht' & _ & Hf) & _).
    rewrite Ht in Ht'. injection Ht' as <-. done.
Qed.

Lemma failed_construction_strands_worker_witness :
  let w := run [Acquire; Invoke "add" [VNumber 111; VNumber 222]]
             (refCountedWorker [VString "bad"]) in
  let more := [Release; Acquire; Invoke "add" [VNumber 1; VNumber 2];
               WorkerMessage 1 (Success 1 VUndefined); Release] in
  let w' := run (WorkerMessage 0 (Error 1 (VError "bad options")) :: more) w in
  getState w' = "disconnected"
  ∧ attached <$> connections w' !! 1 = Some false
  ∧ attached <$> connections w' !! 0 = Some true.
Proof.
  intros w more w'.
  assert (Hc : connections w !! 0
    = Some {| worker := 0; requests := [(1, ConnectAwait 0)]; nextCallId := 2;
              attached := true;
              posted := [Call 1 "constructor" [VString "bad"]] |})
    by (vm_compute; reflexivity).
  split; [vm_compute; reflexivity|]. split; [vm_compute; reflexivity|].
  exact (failed_construction_strands_worker [VString "bad"] _ more 0 _
           (VError "bad options") Hc eq_refl eq_refl).
Defined.

(** ** The order in which waiting calls are sent *)

Lemma resumeCall_sent_as i c id r st w j :
  sent_as i c id w → sent_as i c id (resumeCall r st w j).
Proof.
  intros H. pose proof H as (Hst & conn & Hc & Hatt & Hget & Hlt).
  unfold resumeCall.
  destruct (calls w !! j) as [m|] eqn:Hm; [|done].
  destruct (status m) as [[r'|]| |] eqn:Hs; try done.
  destruct (Nat.eqb r' r); [|done].
  assert (Hne : i ≠ j).
  { intros ->. unfold call_status in Hst. rewrite Hm in Hst. cbn in Hst.
    congruence. }
  destruct st as [|c' k|e]; [done| |].
  - unfold forward. rewrite Hm.
    destruct (connections w !! c') as [conn'|] eqn:Hc'; [|done].
    cbn. unfold sent_as, call_status in *. cbn.
    rewrite list_lookup_insert_ne by done. split; [done|].
    destruct (decide (c' = c)) as [->|Hnc].
    + rewrite Hc in Hc'. injection Hc' as <-.
      rewrite list_lookup_insert_eq by (by eapply lookup_lt_Some).
      eexists. split; [done|]. cbn.
      rewrite map_get_set_ne by lia. repeat split; try done. lia.
    + rewrite list_lookup_insert_ne by done. exists conn. done.
  - unfold sent_as, call_status in *. cbn.
    rewrite list_lookup_insert_ne by done. split; [done|]. exists conn. done.
Qed.

Lemma foldl_resumeCall_sent_as i c id r st l w :
  sent_as i c id w → sent_as i c id (foldl (resumeCall r st) w l).
Proof.
  revert w. induction l as [|j l IH]; intros w H; simpl; [done|].
  by apply IH, resumeCall_sent_as.
Qed.

Lemma resumeCall_sends_as i r c k w :
  waits_for i r c w →
  ∃ conn, connections w !! c = Some conn
          ∧ sent_as i c (nextCallId conn)
              (resumeCall r (RequestFulfilled c k) w i).
Proof.
  intros (Hst & conn & Hc & Hatt). exists conn. split; [done|].
  unfold call_status in Hst. unfold resumeCall, forward.
  destruct (calls w !! i) as [m|] eqn:Hm; [|done]. cbn in Hst.
  injection Hst as Hst. rewrite Hst, Nat.eqb_refl, Hc. cbn.
  unfold sent_as, call_status. cbn.
  rewrite !list_lookup_insert_eq by (by eapply lookup_lt_Some). cbn.
  split; [done|]. eexists. split; [done|]. cbn.
  rewrite map_get_set_eq. repeat split; try done. lia.
Qed.

Lemma foldl_resumeCall_waits i r c k l w :
  i ∉ l → waits_for i r c w →
  waits_for i r c (foldl (resumeCall r (RequestFulfilled c k)) w l).
Proof.
  revert w. induction l as [|j l IH]; intros w Hin H; simpl; [done|].
  apply not_elem_of_cons in Hin as [Hne Hin].
  by apply IH, resumeCall_waits.
Qed.

Lemma foldl_resumeCall_sends_after i j idi r c k l w :
  i ≠ j → sent_as i c idi w → waits_for j r c w → j ∈ l →
  ∃ idj, idi < idj
         ∧ sent_as i c idi (foldl (resumeCall r (RequestFulfilled c k)) w l)
         ∧ sent_as j c idj (foldl (resumeCall r (RequestFulfilled c k)) w l).
Proof.
  intros Hne. revert w. induction l as [|j' l IH]; intros w Hi Hj Hin; simpl.
  { by apply elem_of_nil in Hin. }
  destruct (decide (j' = j)) as [->|Hne'].
  - destruct (resumeCall_sends_as j r c k w Hj) as (conn & Hc & Hsent).
    exists (nextCallId conn). split.
    + destruct Hi as (_ & conn' & Hc' & _ & _ & Hlt). congruence.
    + split; [by apply foldl_resumeCall_sent_as, resumeCall_sent_as|].
      by apply foldl_resumeCall_sent_as.
  - apply IH.
    + by apply resumeCall_sent_as.
    + by apply resumeCall_waits.
    + apply elem_of_cons in Hin as [?|?]; [congruence|done].
Qed.

Lemma foldl_resumeCall_in_order i j r c k n w :
  i < j → j < n → waits_for i r c w → waits_for j r c w →
  ∃ idi idj, idi < idj
    ∧ sent_as i c idi (foldl (resumeCall r (RequestFulfilled c k)) w (seq 0 n))
    ∧ sent_as j c idj (foldl (resumeCall r (RequestFulfilled c k)) w (seq 0 n)).
Proof.
  intros Hij Hjn Hi Hj.
  assert (Hseq : seq 0 n = seq 0 i ++ i :: seq (S i) (n - S i)).
  { replace n with (i + S (n - S i)) at 1 by lia. by rewrite seq_app. }
  rewrite Hseq, foldl_app. cbn [foldl].
  set (w1 := foldl _ w (seq 0 i)).
  assert (Hi1 : waits_for i r c w1).
  { apply foldl_resumeCall_waits; [|done]. rewrite elem_of_seq. lia. }
  assert (Hj1 : waits_for j r c w1).
  { apply foldl_resumeCall_waits; [|done]. rewrite elem_of_seq. lia. }
  clearbody w1.
  destruct (resumeCall_sends_as i r c k w1 Hi1) as (conn & Hc & Hsent).
  exists (nextCallId conn).
  apply (foldl_resumeCall_sends_after i j); [lia|done| |].
  - apply resumeCall_waits; [lia|done].
  - rewrite elem_of_seq. lia.
Qed.

(** X13: waiting calls are sent in the order they were made.  When the
    ["constructor"] call of the current attempt is answered with success,
    the state becomes ["connected"] and any two calls that waited for the
    connection are sent on it, the earlier call under the smaller id, that
    is, earlier. *)
Theorem waiting_calls_are_sent_in_order (a : list Value) (es : list Event)
    (r k c i j : nat) (conn : WorkerConnection) (v : Value) :
  let w := run es (refCountedWorker a) in
  the_state w = Connecting r k →
  connections w !! c = Some conn →
  attached conn = true →
  map_get 1 (requests conn) = Some (ConnectAwait c) →
  (∃ task, tasks w !! c = Some task ∧ task_controller task = k) →
  call_status i w = Some (AwaitingConnection (AwaitRequest r)) →
  call_status j w = Some (AwaitingConnection (AwaitRequest r)) →
  i < j →
  let w' := run [WorkerMessage c (Success 1 v)] w in
  getState w' = "connected"
  ∧ ∃ idi idj,
      call_status i w' = Some (InFlight c idi)
      ∧ call_status j w' = Some (InFlight c idj)
      ∧ idi < idj.
Proof.
  intros w Hs Hc Hatt Hget (task & Ht & Hk) Hi Hj Hij w'.
  pose proof (Inv_run es _ (Inv_init a)) as Hw. fold w in Hw.
  pose proof (run_await es _ (Inv_init a) (await_init a)) as [Haw _].
  fold w in Haw.
  destruct (current_attempt w r k c task Hw Hs Ht Hk) as (Hraw & Hreq & Hab).
  destruct (Haw _ _ Hi) as (r0 & [= <-] & Hp).
  assert (Hinst : _instance w ≠ None) by (apply the_state_instance; congruence).
  destruct (constructor_answered w c conn (Success 1 v) Hc Hatt Hget eq_refl)
    as [Heq _].
  assert (Hw' : w' = workerMessage c (Success 1 v) w) by done.
  rewrite (Heq v eq_refl) in Hw'. clear Heq.
  unfold connectResumed in Hw'. cbn [tasks set_warnings set_connections] in Hw'.
  rewrite Ht in Hw'.
  change (is_aborted (task_controller task) _)
    with (is_aborted (task_controller task) w) in Hw'.
  rewrite Hk, Hab, Hraw, Hreq in Hw'.
  match type of Hw' with _ = settleRequest _ _ ?w0 => set (W := w0) in * end.
  assert (HW : the_state W = Connected c k ∧ calls W = calls w
               ∧ promises W = promises w
               ∧ ∃ conn', connections W !! c = Some conn'
                          ∧ attached conn' = true).
  { subst W. rewrite set_state_calls, set_state_promises, set_state_connections,
      setTaskStatus_calls, setTaskStatus_promises, setTaskStatus_connections.
    split.
    { apply the_state_set_state. unfold setTaskStatus. cbn. by rewrite Ht. }
    split; [done|]. split; [done|]. cbn.
    rewrite list_lookup_insert_eq by (by eapply lookup_lt_Some). eauto. }
  destruct HW as (HsW & HcW & HpW & conn' & HconnW & HattW).
  split.
  { rewrite getState_the_state, Hw',
      (the_state_reacts _ _ (settleRequest_reacts _ _ W)), HsW. done. }
  unfold settleRequest in Hw'. rewrite HpW, Hp in Hw'.
  destruct (foldl_resumeCall_in_order i j r c k (length (calls W))
              (set_promises (<[r:=RequestFulfilled c k]> (promises W)) W))
    as (idi & idj & Hlt & (Hsi & _) & (Hsj & _)).
  - done.
  - rewrite HcW. unfold call_status in Hj.
    destruct (calls w !! j) eqn:E; [|done]. by eapply lookup_lt_Some.
  - split; [unfold call_status; cbn; by rewrite HcW|]. cbn. eauto.
  - split; [unfold call_status; cbn; by rewrite HcW|]. cbn. eauto.
  - rewrite HpW in Hsi, Hsj. rewrite <- Hw' in Hsi, Hsj. by exists idi, idj.
Qed.

Lemma waiting_calls_are_sent_in_order_witness :
  let w := run [Acquire; Invoke "add" [VNumber 1; VNumber 2];
                Invoke "push" [VString "x"]]
             (refCountedWorker [VNumber 1]) in
  let w' := run [WorkerMessage 0 (Success 1 VUndefined)] w in
  the_state w = Connecting 0 0
  ∧ getState w' = "connected"
  ∧ (posted <$> connections w' !! 0)
    = Some [Call 1 "constructor" [VNumber 1];
            Call 2 "add" [VNumber 1; VNumber 2];
            Call 3 "push" [VString "x"]]
  ∧ ∃ idi idj,
      call_status 0 w' = Some (InFlight 0 idi)
      ∧ call_status 1 w' = Some (InFlight 0 idj)
      ∧ idi < idj.
Proof.
  intros w w'.
  assert (Hs : the_state w = Connecting 0 0) by (vm_compute; reflexivity).
  assert (Hc : connections w !! 0
    = Some {| worker := 0; requests := [(1, ConnectAwait 0)]; nextCallId := 2;
              attached := true;
              posted := [Call 1 "constructor" [VNumber 1]] |})
    by (vm_compute; reflexivity).
  assert (Hi : call_status 0 w = Some (AwaitingConnection (AwaitRequest 0)))
    by (vm_compute; reflexivity).
  assert (Hj : call_status 1 w = Some (AwaitingConnection (AwaitRequest 0)))
    by (vm_compute; reflexivity).
  assert (Ht : ∃ task, tasks w !! 0 = Some task ∧ task_controller task = 0).
  { eexists. split; vm_compute; reflexivity. }
  pose proof (waiting_calls_are_sent_in_order [VNumber 1] _ 0 0 0 0 1 _
                VUndefined Hs Hc eq_refl eq_refl Ht Hi Hj (le_n 1))
    as (H1 & H2).
  split; [exact Hs|]. split; [exact H1|].
  split; [vm_compute; reflexivity|exact H2].
Defined.

(** ** Sharing the connection *)

(** X14: a further consumer shares the connection.  While the reference count
    is positive, [acquire()] and [release()] change the count only: the
    pair [acquire()], [release()] leaves everything as it was (state,
    connection, pending calls), and so does [release()], [acquire()] when
    another consumer still holds the worker. *)
Theorem acquire_release_round_trip (a : list Value) (es : list Event) :
  let w := run es (refCountedWorker a) in
  ((0 < _refCount w)%Z →
   run [Acquire; Release] w = w
   ∧ (step Acquire w).2 = set_refCount (_refCount w + 1) w)
  ∧ ((1 < _refCount w)%Z →
     run [Release; Acquire] w = w
     ∧ (step Release w).2 = set_refCount (_refCount w - 1) w).
Proof.
  intros w. pose proof (Inv_run es _ (Inv_init a)) as [_ [Hn Hcnt]].
  fold w in Hn, Hcnt. clearbody w.
  assert (Hcase : (0 < _refCount w)%Z →
    ∃ p, _instance w = Some p
         ∧ ∀ n, ready (set_refCount n w) = set_refCount n w).
  { intros Hpos. unfold the_state in Hcnt.
    destruct (_instance w) as [p|] eqn:Hp; [|specialize (Hn eq_refl); lia].
    exists p. split; [done|]. intros n. unfold ready, the_state. cbn.
    rewrite Hp. destruct (connectionState p); done || lia. }
  split.
  - intros Hpos. destruct (Hcase Hpos) as (p & Hp & Hready).
    assert (Hacq : (step Acquire w).2 = set_refCount (_refCount w + 1) w).
    { cbn. unfold acquire, ensureInstance. rewrite Hp. cbn.
      destruct (Z.ltb_spec 0 (_refCount w + 1)) as [_|?]; [|lia].
      apply Hready. }
    split; [|done].
    change (run [Acquire; Release] w) with (step Release (step Acquire w).2).2.
    rewrite Hacq. cbn. unfold release. cbn. rewrite Hp.
    destruct (Z.leb_spec (_refCount w + 1 - 1) 0) as [?|_]; [lia|].
    clear -Hp. destruct w. cbn in *. subst. unfold set_refCount. cbn. f_equal. lia.
  - intros Hpos. destruct (Hcase ltac:(lia)) as (p & Hp & Hready).
    assert (Hrel : (step Release w).2 = set_refCount (_refCount w - 1) w).
    { cbn. unfold release. rewrite Hp. cbn.
      by destruct (Z.leb_spec (_refCount w - 1) 0) as [?|_]; [lia|]. }
    split; [|done].
    change (run [Release; Acquire] w) with (step Acquire (step Release w).2).2.
    rewrite Hrel. cbn. unfold acquire, ensureInstance. cbn. rewrite Hp. cbn.
    destruct (Z.ltb_spec 0 (_refCount w - 1 + 1)) as [_|?]; [|lia].
    change (set_refCount (_refCount w - 1 + 1) (set_refCount (_refCount w - 1) w))
      with (set_refCount (_refCount w - 1 + 1) w).
    rewrite Hready. clear -Hp. destruct w. cbn in *. subst. unfold set_refCount. cbn. f_equal. lia.
Qed.

Lemma acquire_release_round_trip_witness :
  let w := run [Acquire; Invoke "add" [VNumber 1; VNumber 2];
                WorkerMessage 0 (Success 1 VUndefined)]
             (refCountedWorker [VNumber 1]) in
  (0 < _refCount w)%Z
  ∧ call_status 0 w = Some (InFlight 0 2)
  ∧ run [Acquire; Release] w = w.
Proof.
  intros w.
  assert (H : (0 < _refCount w)%Z) by (vm_compute; reflexivity).
  split; [exact H|]. split; [vm_compute; reflexivity|].
  exact (proj1 (proj1 (acquire_release_round_trip [VNumber 1] _) H)).
Defined.

(** ** A call from end to end *)

Lemma resumeCall_skip r st w j :
  call_status j w ≠ Some (AwaitingConnection (AwaitRequest r)) →
  resumeCall r st w j = w.
Proof.
  unfold resumeCall, call_status. destruct (calls w !! j) as [m|]; [|done].
  cbn. destruct (status m) as [[r0|]| |]; try done.
  destruct (Nat.eqb_spec r0 r) as [->|]; done.
Qed.

Lemma foldl_resumeCall_skip r st l w :
  (∀ j, j ∈ l → call_status j w ≠ Some (AwaitingConnection (AwaitRequest r))) →
  foldl (resumeCall r st) w l = w.
Proof.
  induction l as [|j l IH]; intros H; simpl; [done|].
  rewrite resumeCall_skip by (apply H; left). apply IH.
  intros j' Hj'. apply H. by right.
Qed.

(** The success envelope of the ["constructor"] call of the current
    attempt: the state becomes ["connected"] and the waiting calls resume
    in turn. *)
Lemma construction_answered_success w r k c conn task v :
  Inv w → the_state w = Connecting r k →
  connections w !! c = Some conn → attached conn = true →
  map_get 1 (requests conn) = Some (ConnectAwait c) →
  tasks w !! c = Some task → task_controller task = k →
  promises w !! r = Some RequestPending →
  workerMessage c (Success 1 v) w
  = foldl (resumeCall r (RequestFulfilled c k))
      (set_promises (<[r := RequestFulfilled c k]> (promises w))
         (set_state (Connected c k)
            (setTaskStatus c TaskFulfilled
               (set_warnings (warnings w ++ [])
                  (set_connections
                     (<[c := {| worker := worker conn;
                                requests := map_delete 1 (requests conn);
                                nextCallId := nextCallId conn;
                                attached := attached conn;
                                posted := posted conn |}]> (connections w))
                     w)))))
      (seq 0 (length (calls w))).
Proof.
  intros Hw Hs Hc Hatt Hget Ht Hk Hp.
  destruct (current_attempt w r k c task Hw Hs Ht Hk) as (Hraw & Hreq & Hab).
  destruct (constructor_answered w c conn (Success 1 v) Hc Hatt Hget eq_refl)
    as [Heq _].
  rewrite (Heq v eq_refl). clear Heq.
  unfold connectResumed. cbn [tasks set_warnings set_connections].
  rewrite Ht.
  change (is_aborted (task_controller task) _)
    with (is_aborted (task_controller task) w).
  rewrite Hk, Hab, Hraw, Hreq.
  unfold settleRequest.
  rewrite set_state_promises, setTaskStatus_promises. cbn [promises set_warnings
    set_connections]. rewrite Hp.
  rewrite set_state_calls, setTaskStatus_calls. done.
Qed.

Lemma invoke_ready_call w r k m args :
  Inv w → the_state w = Ready r k →
  calls (step (Invoke m args) w).2
  = calls w ++ [{| methodName := m; args := args;
                   status := AwaitingConnection (AwaitRequest r) |}].
Proof.
  intros [[Hh Hs _ _] _] Hst. unfold state_ok in Hs. rewrite Hst in Hs.
  destruct Hs as (Hp & Hk & _). unfold handle_ok, the_state in *.
  destruct w as [wa [[st me px ca]|] rc pr ct cn tk cl fn wk pxs wn];
    cbn in *; [|done].
  destruct Hh as (-> & _ & _ & ->). subst st.
  unfold getMethod. cbn. rewrite lookup_empty. cbn.
  unfold forwardingCall, tryConnect, the_state. cbn.
  unfold connect, is_aborted. cbn. rewrite Hk. cbn. rewrite Hp.
  by rewrite resumeCall_pending.
Qed.

(** X15: a call from end to end.  From the state ["disconnected"] at count
    zero, [acquire()] and a call of [m] post the ["constructor"] call with
    the configured arguments; a worker that runs [connectWorker] on a class
    whose constructor accepts them answers with success, which connects and
    posts the call of [m] under id 2; and the answer of the worker to that
    call settles the promise of the call: fulfilled with the result of the
    method of the instance, or rejected with what it threw. *)
Theorem call_round_trip {Handler : Type}
    (factory : list Value -> Handler + Value)
    (invoke : Handler -> string -> list Value -> Handler * (Value + Value))
    (a : list Value) (es : list Event) (m : string) (args : list Value)
    (h h' : Handler) (res : Value + Value) :
  let w0 := run es (refCountedWorker a) in
  the_state w0 = Disconnected →
  _refCount w0 = 0%Z →
  factory a = inl h →
  invoke h m args = (h', res) →
  let c := length (connections w0) in
  let i := length (calls w0) in
  let w1 := run [Acquire; Invoke m args] w0 in
  let w2 := run [WorkerMessage c (Success 1 VUndefined)] w1 in
  ∃ conn1 conn2 response,
    connections w1 !! c = Some conn1
    ∧ posted conn1 = [Call 1 "constructor" a]
    ∧ worker_run factory invoke None (posted conn1)
      = (Some h, [Success 1 VUndefined])
    ∧ getState w2 = "connected"
    ∧ connections w2 !! c = Some conn2
    ∧ posted conn2 = [Call 1 "constructor" a; Call 2 m args]
    ∧ worker_run factory invoke None (posted conn2)
      = (Some h', [Success 1 VUndefined; response])
    ∧ call_status i (run [WorkerMessage c response] w2)
      = Some (Settled match res with
                      | inl result => Fulfilled result
                      | inr err => Rejected err
                      end).
Proof.
  intros w0 Hs0 Hr Hf Hinv c i w1 w2.
  pose proof (Inv_run es _ (Inv_init a)) as Hw0. fold w0 in Hw0.
  pose proof (run_await es _ (Inv_init a) (await_init a)) as [Haw0 _].
  fold w0 in Haw0.
  pose proof (run_workerArguments a es) as Ha. fold w0 in Ha.
  destruct (acquire_disconnected w0 Hw0 Hs0 Hr)
    as (Hs1 & Hwk1 & Hcn1 & Htk1 & Hcl1 & Ha1).
  pose proof (Inv_step Acquire w0 Hw0) as Hwa.
  set (wa := (step Acquire w0).2) in *.
  set (r := length (promises w0)) in *. set (k := length (controllers w0)) in *.
  destruct (invoke_ready wa _ _ m args Hwa Hs1)
    as (Hs2 & Hwk2 & Hcn2 & Htk2 & Hct2 & Hpr2 & Hcall2).
  pose proof (invoke_ready_call wa r k m args Hwa Hs1) as Hcalls2.
  change (step (Invoke m args) wa).2 with w1 in *.
  pose proof (Inv_step (Invoke m args) wa Hwa) as Hw1.
  change (step (Invoke m args) wa).2 with w1 in Hw1.
  pose proof Hwa as [[_ Hso _ _] _]. unfold state_ok in Hso.
  rewrite Hs1 in Hso. destruct Hso as (Hpend & Hctrl & _).
  pose proof Hw0 as [[_ _ (Hlen0 & _) (Hwk0 & _)] _].
  set (conn1 := {| worker := c; requests := [(1, ConnectAwait c)];
                   nextCallId := 2; attached := true;
                   posted := [Call 1 "constructor" a] |}).
  assert (Hc1 : connections w1 !! c = Some conn1).
  { rewrite Hcn2, Hcn1. unfold first_connection.
    rewrite Hwk1, Htk1, Ha1, Ha, Hwk0, Hlen0. by apply list_lookup_middle. }
  assert (Ht1 : tasks w1 !! c
                = Some {| task_request := r; task_controller := k;
                          rawConnection := c; task_status := TaskPending |}).
  { rewrite Htk2, Htk1, Hcn1. apply list_lookup_middle. by rewrite Hlen0. }
  (* the success envelope of the constructor call *)
  assert (Hw2 : w2 = workerMessage c (Success 1 VUndefined) w1) by done.
  clearbody w2 w1.
  rewrite (construction_answered_success w1 r k c conn1 _ VUndefined Hw1 Hs2
             Hc1 eq_refl eq_refl Ht1 eq_refl) in Hw2 by (by rewrite Hpr2).
  rewrite Hcalls2, Hcl1, length_app in Hw2. cbn [length] in Hw2.
  rewrite Nat.add_1_r, seq_S, foldl_app in Hw2. cbn [foldl] in Hw2.
  change (0 + length (calls w0)) with i in Hw2.
  match type of Hw2 with
  | _ = resumeCall _ _ (foldl _ ?W _) _ => set (W1 := W) in *
  end.
  assert (HcW : calls W1 = calls w0 ++ [{| methodName := m; args := args;
                   status := AwaitingConnection (AwaitRequest r) |}]).
  { subst W1. unfold set_promises. cbn [calls].
    rewrite set_state_calls, setTaskStatus_calls. cbn [calls set_warnings set_connections].
    by rewrite Hcalls2, Hcl1. }
  assert (HnW : connections W1 !! c
                = Some {| worker := c; requests := [];
                          nextCallId := 2; attached := true;
                          posted := [Call 1 "constructor" a] |}).
  { subst W1. unfold set_promises. cbn [connections].
    rewrite set_state_connections, setTaskStatus_connections.
    cbn [connections set_warnings set_connections].
    by rewrite list_lookup_insert_eq by (by eapply lookup_lt_Some). }
  assert (HsW : the_state W1 = Connected c k).
  { subst W1. change (the_state (set_promises ?l ?w)) with (the_state w).
    assert (Hi1 : _instance w1 ≠ None)
      by (apply the_state_instance; by rewrite Hs2).
    apply the_state_set_state. unfold setTaskStatus.
    destruct (tasks _ !! c); exact Hi1. }
  rewrite foldl_resumeCall_skip in Hw2.
  2:{ intros j Hj. apply elem_of_seq in Hj as [_ Hj]. cbn in Hj.
      unfold call_status. rewrite HcW, lookup_app_l by done. intros Hj'.
      destruct (Haw0 _ _ Hj') as (r' & [= <-] & Hp').
      apply lookup_lt_Some in Hp'. unfold r in Hp'. lia. }
  clearbody W1.
  assert (Hi : calls W1 !! i = Some {| methodName := m; args := args;
                   status := AwaitingConnection (AwaitRequest r) |}).
  { rewrite HcW. by apply list_lookup_middle. }
  unfold resumeCall in Hw2. rewrite Hi in Hw2. cbn in Hw2.
  rewrite Nat.eqb_refl in Hw2. unfold forward in Hw2.
  rewrite Hi, HnW in Hw2. cbn in Hw2.
  set (conn2 := {| worker := c; requests := [(2, MethodAwait i)];
                   nextCallId := 3; attached := true;
                   posted := [Call 1 "constructor" a; Call 2 m args] |}).
  assert (Hc2 : connections w2 !! c = Some conn2).
  { rewrite Hw2. cbn. by rewrite list_lookup_insert_eq by (by eapply lookup_lt_Some). }
  assert (Hst2 : call_status i w2 = Some (InFlight c 2)).
  { rewrite Hw2. unfold call_status. cbn.
    by rewrite list_lookup_insert_eq by (by eapply lookup_lt_Some). }
  exists conn1, conn2,
    (match res with inl result => Success 2 result | inr err => Error 2 err end).
  split; [done|]. split; [done|].
  split; [cbn; by rewrite Hf|].
  split.
  { rewrite getState_the_state, Hw2. unfold the_state in *. cbn. by rewrite HsW. }
  split; [done|]. split; [done|].
  split; [cbn; rewrite Hf, Hinv; by destruct res|].
  cbn [run foldl step snd]. unfold workerMessage. rewrite Hc2. cbn [attached conn2].
  unfold onMessage. destruct res as [result|err]; cbn [msg_id requests conn2];
    cbn [map_get Nat.eqb]; cbn [foldl]; by apply (settle_in_flight i c 2).
Qed.

Lemma call_round_trip_witness :
  let factory := λ a : list Value,
      match a with [VNumber n] => inl n | _ => inr (VError "bad options") end in
  let invoke := λ (h : Z) (m : string) (a : list Value),
      (h, match a with
          | [VNumber x; VNumber y] => @inl Value Value (VNumber (x + y + h))
          | _ => inr (VError "bad arguments")
          end) in
  let w0 := run [] (refCountedWorker [VNumber 10]) in
  let w1 := run [Acquire; Invoke "add" [VNumber 1; VNumber 2]] w0 in
  let w2 := run [WorkerMessage 0 (Success 1 VUndefined)] w1 in
  ∃ conn2 response,
    connections w2 !! 0 = Some conn2
    ∧ worker_run factory invoke None (posted conn2)
      = (Some 10%Z, [Success 1 VUndefined; response])
    ∧ call_status 0 (run [WorkerMessage 0 response] w2)
      = Some (Settled (Fulfilled (VNumber 13))).
Proof.
  intros factory invoke w0 w1 w2.
  destruct (call_round_trip factory invoke [VNumber 10] [] "add"
              [VNumber 1; VNumber 2] 10%Z 10%Z (inl (VNumber 13))
              eq_refl eq_refl eq_refl eq_refl)
    as (conn1 & conn2 & response & _ & _ & _ & _ & H5 & _ & H7 & H8).
  exists conn2, response. split; [exact H5|]. split; [exact H7|exact H8].
Defined.

(** ** Responses that find no pending call *)

Lemma workerMessage_unmatched c msg w :
  (∀ conn, connections w !! c = Some conn → attached conn = true →
           map_get (msg_id msg) (requests conn) = None) →
  workerMessage c msg w = w.
Proof.
  intros H. unfold workerMessage.
  destruct (connections w !! c) as [conn|] eqn:Hc; [|done].
  destruct (attached conn) eqn:Hatt; [|done].
  unfold onMessage. rewrite (H conn eq_refl Hatt). cbn.
  rewrite list_insert_id by done. rewrite app_nil_r. by destruct w.
Qed.

Lemma table_grows_refl c w : table_grows c w w.
Proof. intros conn Hc. exists conn. eauto. Qed.

Lemma table_grows_trans c w1 w2 w3 :
  table_grows c w1 w2 → table_grows c w2 w3 → table_grows c w1 w3.
Proof.
  intros H1 H2 conn Hc. destruct (H1 _ Hc) as (conn2 & Hc2 & Hn2 & Hr2).
  destruct (H2 _ Hc2) as (conn3 & Hc3 & Hn3 & Hr3).
  exists conn3. split; [done|]. split; [lia|].
  intros id r Hin. destruct (Hr3 _ _ Hin) as [Hin2|?]; [|right; lia].
  destruct (Hr2 _ _ Hin2) as [?|?]; [by left|right; lia].
Qed.

Lemma table_grows_same c w w' :
  connections w' = connections w → table_grows c w w'.
Proof. intros E conn Hc. exists conn. rewrite E. eauto. Qed.

Lemma set_state_grows c s w : table_grows c w (set_state s w).
Proof. apply table_grows_same, set_state_connections. Qed.

Lemma setTaskStatus_grows c t s w : table_grows c w (setTaskStatus t s w).
Proof. apply table_grows_same, setTaskStatus_connections. Qed.

Lemma disposeConnection_grows c c' w : table_grows c w (disposeConnection c' w).
Proof.
  unfold disposeConnection.
  destruct (connections w !! c') as [conn'|] eqn:Hc'; [|apply table_grows_refl].
  intros conn Hc. cbn. destruct (decide (c = c')) as [->|Hne].
  - rewrite list_lookup_insert_eq by (by eapply lookup_lt_Some).
    rewrite Hc in Hc'. injection Hc' as <-. eexists. split; [done|]. cbn. eauto.
  - rewrite list_lookup_insert_ne by done. eauto.
Qed.

Lemma forward_grows c i conn w : table_grows c w (forward i conn w).
Proof.
  unfold forward. destruct (calls w !! i) as [m|]; [|apply table_grows_refl].
  destruct (connections w !! conn) as [c0|] eqn:Hc0; [|apply table_grows_refl].
  intros conn1 Hc. cbn. destruct (decide (c = conn)) as [->|Hne].
  - rewrite list_lookup_insert_eq by (by eapply lookup_lt_Some).
    rewrite Hc in Hc0. injection Hc0 as <-. eexists. split; [done|]. cbn.
    split; [lia|]. intros id r Hin.
    apply elem_of_map_set in Hin as [[= -> ->]|Hin]; [right; lia|by left].
  - rewrite list_lookup_insert_ne by done. eauto.
Qed.

Lemma resumeCall_grows c r st w i : table_grows c w (resumeCall r st w i).
Proof.
  unfold resumeCall. destruct (calls w !! i) as [m|]; [|apply table_grows_refl].
  destruct (status m) as [[r0|]| |]; try apply table_grows_refl.
  destruct (Nat.eqb r0 r); [|apply table_grows_refl].
  destruct st; [apply table_grows_refl|apply forward_grows|].
  by apply table_grows_same.
Qed.

Lemma settleRequest_grows c r st w : table_grows c w (settleRequest r st w).
Proof.
  unfold settleRequest.
  destruct (promises w !! r) as [[| |]|]; try apply table_grows_refl.
  match goal with |- table_grows c w (foldl _ ?w0 ?l) =>
    apply (table_grows_trans c w w0); [by apply table_grows_same|];
    generalize w0; generalize l end.
  intros l. induction l as [|i l IH]; intros w0; simpl; [apply table_grows_refl|].
  eapply table_grows_trans; [apply resumeCall_grows|apply IH].
Qed.

Lemma settle_grows c w s : table_grows c w (settle w s).
Proof.
  destruct s as [[t|i] o]; unfold settle; cbn.
  - unfold connectResumed. destruct (tasks w !! t) as [task|];
      [|apply table_grows_refl].
    destruct o as [v|e]; [destruct (is_aborted (task_controller task) w)|].
    + eapply table_grows_trans; [apply disposeConnection_grows|].
      eapply table_grows_trans; [apply setTaskStatus_grows|].
      apply settleRequest_grows.
    + eapply table_grows_trans; [apply setTaskStatus_grows|].
      eapply table_grows_trans; [apply set_state_grows|].
      apply settleRequest_grows.
    + eapply table_grows_trans; [apply setTaskStatus_grows|].
      apply settleRequest_grows.
  - destruct (calls w !! i) as [m|]; [|apply table_grows_refl].
    destruct (status m); try apply table_grows_refl. by apply table_grows_same.
Qed.

Lemma foldl_settle_grows c l w : table_grows c w (foldl settle w l).
Proof.
  revert w. induction l as [|s l IH]; intros w; simpl; [apply table_grows_refl|].
  eapply table_grows_trans; [apply settle_grows|apply IH].
Qed.

(** X16: a response is taken once.  Delivering the same message of the worker
    a second time changes nothing: the entry it matched is gone, nothing
    that ran in between has reused its id, and a message that matches no
    pending entry (or arrives on a disposed connection) leaves the world as
    it is, without a warning. *)
Theorem duplicate_response_is_ignored (a : list Value) (es : list Event)
    (c : nat) (msg : Message) :
  let w := run es (refCountedWorker a) in
  run [WorkerMessage c msg; WorkerMessage c msg] w
  = run [WorkerMessage c msg] w
  ∧ ((∀ conn, connections w !! c = Some conn → attached conn = true →
              map_get (msg_id msg) (requests conn) = None) →
     run [WorkerMessage c msg] w = w).
Proof.
  intros w. split; [|apply workerMessage_unmatched].
  change (workerMessage c msg (workerMessage c msg w) = workerMessage c msg w).
  pose proof (run_Wire es _ (Wire_init a)) as [Hwire _ _]. fold w in Hwire.
  clearbody w. apply workerMessage_unmatched.
  unfold workerMessage.
  destruct (connections w !! c) as [conn|] eqn:Hc.
  2:{ intros conn'. by rewrite Hc. }
  destruct (attached conn) eqn:Hatt.
  2:{ intros conn'. rewrite Hc. intros [= <-]. congruence. }
  destruct (Hwire _ _ Hc) as (_ & _ & Hids & Hnd).
  unfold onMessage.
  destruct (map_get (msg_id msg) (requests conn)) as [request|] eqn:Hget.
  2:{ cbn. rewrite list_insert_id by done. intros conn'. rewrite Hc.
      intros [= <-] _. exact Hget. }
  destruct (Hids _ _ (map_get_elem_of _ _ _ Hget)) as [_ Hlt].
  set (conn0 := {| worker := worker conn;
                   requests := map_delete (msg_id msg) (requests conn);
                   nextCallId := nextCallId conn;
                   attached := attached conn; posted := posted conn |}).
  assert (Hgone : ∀ wn l,
    let w0 := set_warnings wn (set_connections (<[c := conn0]> (connections w)) w) in
    ∀ conn', connections (foldl settle w0 l) !! c = Some conn' →
             map_get (msg_id msg) (requests conn') = None).
  { intros wn l w0 conn' Hc'.
    pose proof (foldl_settle_grows c l w0) as Hg.
    destruct (Hg conn0) as (conn1 & Hc1 & _ & Hin).
    { cbn. apply list_lookup_insert_eq. by eapply lookup_lt_Some. }
    rewrite Hc' in Hc1. injection Hc1 as <-.
    destruct (map_get (msg_id msg) (requests conn')) as [r|] eqn:E; [|done].
    exfalso. destruct (Hin _ _ (map_get_elem_of _ _ _ E)) as [Hold|Hnew].
    - cbn in Hold. by apply elem_of_map_delete in Hold as [? _].
    - cbn in Hnew. lia. }
  destruct msg; cbn [foldl]; intros conn' Hc' _.
  - exact (Hgone _ [] conn' Hc').
  - exact (Hgone _ [_] conn' Hc').
  - exact (Hgone _ [_] conn' Hc').
  - exact (Hgone _ [] conn' Hc').
Qed.

Lemma duplicate_response_is_ignored_witness :
  let w := run [Acquire; Invoke "add" [VNumber 1; VNumber 2];
                WorkerMessage 0 (Success 1 VUndefined)]
             (refCountedWorker [VNumber 1]) in
  call_status 0 (run [WorkerMessage 0 (Success 2 (VNumber 3))] w)
  = Some (Settled (Fulfilled (VNumber 3)))
  ∧ run [WorkerMessage 0 (Success 2 (VNumber 3));
         WorkerMessage 0 (Success 2 (VNumber 3))] w
    = run [WorkerMessage 0 (Success 2 (VNumber 3))] w
  ∧ run [WorkerMessage 0 (Error 7 (VError "stale"))] w = w.
Proof.
  intros w.
  assert (Hc : connections w !! 0
    = Some {| worker := 0; requests := [(2, MethodAwait 0)]; nextCallId := 3;
              attached := true;
              posted := [Call 1 "constructor" [VNumber 1];
                         Call 2 "add" [VNumber 1; VNumber 2]] |})
    by (vm_compute; reflexivity).
  split; [vm_compute; reflexivity|].
  split.
  - exact (proj1 (duplicate_response_is_ignored [VNumber 1] _ 0
                    (Success 2 (VNumber 3)))).
  - apply (proj2 (duplicate_response_is_ignored [VNumber 1] _ 0
                    (Error 7 (VError "stale")))).
    intros conn Hconn _. pose proof (eq_trans (eq_sym Hc) Hconn) as E.
    injection E as <-. reflexivity.
Defined.

(** ** Forwarding functions *)

(** The forwarding closures made so far are never forgotten. *)
Lemma set_state_functions s w : functions (set_state s w) = functions w.
Proof. unfold set_state. by destruct (_instance w). Qed.

Lemma connect_functions r k w : functions (connect r k w) = functions w.
Proof.
  unfold connect. destruct (is_aborted k w); [|done].
  apply (re_functions _ _ (settleRequest_reacts _ _ _)).
Qed.

Lemma tryConnect_functions w : functions (tryConnect w).2 = functions w.
Proof.
  unfold tryConnect. destruct (the_state w); cbn; try done.
  - by rewrite set_state_functions.
  - by rewrite set_state_functions, connect_functions.
Qed.

Lemma ready_functions w : functions (ready w) = functions w.
Proof.
  unfold ready. destruct (the_state w); cbn; try done.
  - by rewrite set_state_functions.
  - by rewrite tryConnect_functions, set_state_functions.
Qed.

Lemma disposeConnection_functions c w :
  functions (disposeConnection c w) = functions w.
Proof. unfold disposeConnection. by destruct (connections w !! c). Qed.

Lemma setTaskStatus_functions t s w :
  functions (setTaskStatus t s w) = functions w.
Proof. unfold setTaskStatus. by destruct (tasks w !! t). Qed.

Lemma disconnect_functions w : functions (disconnect w) = functions w.
Proof.
  unfold disconnect. destruct (the_state w); cbn; try done;
    rewrite set_state_functions; try done.
  by rewrite disposeConnection_functions.
Qed.

Lemma forwardingCall_functions m a w :
  functions (forwardingCall m a w).2 = functions w.
Proof.
  unfold forwardingCall. pose proof (tryConnect_functions w) as H.
  destruct (tryConnect w) as [target w1]. cbn [fst snd] in *.
  rewrite <- H. destruct target as [r|conn k]; cbn [snd].
  - destruct (promises _ !! r); [|done].
    by rewrite (re_functions _ _ (resumeCall_reacts _ _ _ _)).
  - by rewrite (re_functions _ _ (forward_reacts _ _ _)).
Qed.

Lemma settle_functions w s : functions (settle w s) = functions w.
Proof.
  destruct s as [[t|i] o]; unfold settle; cbn.
  - unfold connectResumed. destruct (tasks w !! t) as [task|]; [|done].
    destruct o as [v|e]; [destruct (is_aborted (task_controller task) w)|];
      rewrite (re_functions _ _ (settleRequest_reacts _ _ _)),
        ?set_state_functions, setTaskStatus_functions,
        ?disposeConnection_functions; done.
  - destruct (calls w !! i) as [m|]; [|done]. by destruct (status m).
Qed.

Lemma foldl_settle_functions l w : functions (foldl settle w l) = functions w.
Proof.
  revert w. induction l as [|s l IH]; intros w; simpl; [done|].
  by rewrite IH, settle_functions.
Qed.

Lemma step_functions e w :
  ∃ more, functions (step e w).2 = functions w ++ more.
Proof.
  destruct e as [| | | |p|f a|m a|conn msg|conn err]; cbn.
  - exists []. by rewrite app_nil_r.
  - exists []. rewrite app_nil_r. unfold getProxy, ensureInstance.
    by destruct (_instance w).
  - exists []. rewrite app_nil_r. unfold acquire, ensureInstance.
    destruct (_instance w); cbn; destruct (0 <? _)%Z; cbn;
      by rewrite ?ready_functions.
  - exists []. rewrite app_nil_r. unfold release.
    destruct (_instance w); [|done]. cbn.
    destruct (_ <=? 0)%Z; [|done]. by rewrite disconnect_functions.
  - unfold getMethod. destruct (_instance w) as [q|];
      [|exists []; by rewrite app_nil_r].
    destruct (methods q !! p); cbn; [exists []; by rewrite app_nil_r|eauto].
  - exists []. rewrite app_nil_r.
    destruct (_instance w); [|done]. destruct (functions w !! f); [|done].
    pose proof (forwardingCall_functions s a w).
    by destruct (forwardingCall s a w).
  - unfold getMethod. destruct (_instance w) as [q|];
      [|exists []; by rewrite app_nil_r].
    destruct (methods q !! m).
    + exists []. rewrite app_nil_r.
      pose proof (forwardingCall_functions m a w).
      by destruct (forwardingCall m a w).
    + exists [m].
      pose proof (forwardingCall_functions m a
                    (set_functions (functions w ++ [m]) w)) as H.
      by destruct (forwardingCall m a _).
  - exists []. rewrite app_nil_r. unfold workerMessage.
    destruct (connections w !! conn) as [c|]; [|done].
    destruct (attached c); [|done].
    destruct (onMessage c msg) as [[c' settled] warned].
    by rewrite foldl_settle_functions.
  - exists []. rewrite app_nil_r. unfold workerError.
    destruct (connections w !! conn) as [c|]; [|done].
    destruct (attached c); [|done].
    destruct (onError c err) as [c' settled].
    by rewrite foldl_settle_functions.
Qed.

Lemma run_functions es w f name :
  functions w !! f = Some name → functions (run es w) !! f = Some name.
Proof.
  revert w. induction es as [|e es IH]; intros w H; [done|].
  apply IH. destruct (step_functions e w) as [more ->].
  by apply lookup_app_l_Some.
Qed.

(** The list of closures is read by property reads only: every other
    operation commutes with a change of it. *)
Lemma set_state_set_functions l s w :
  set_state s (set_functions l w) = set_functions l (set_state s w).
Proof. unfold set_state. cbn. by destruct (_instance w). Qed.

Lemma forward_set_functions l i c w :
  forward i c (set_functions l w) = set_functions l (forward i c w).
Proof.
  unfold forward. cbn. destruct (calls w !! i); [|done].
  by destruct (connections w !! c).
Qed.

Lemma resumeCall_set_functions l r st w i :
  resumeCall r st (set_functions l w) i = set_functions l (resumeCall r st w i).
Proof.
  unfold resumeCall. cbn. destruct (calls w !! i) as [m|]; [|done].
  destruct (status m) as [[r0|]| |]; try done.
  destruct (Nat.eqb r0 r); [|done]. destruct st; [done| |done].
  apply forward_set_functions.
Qed.

Lemma foldl_resumeCall_set_functions l r st js w :
  foldl (resumeCall r st) (set_functions l w) js
  = set_functions l (foldl (resumeCall r st) w js).
Proof.
  revert w. induction js as [|j js IH]; intros w; simpl; [done|].
  by rewrite resumeCall_set_functions, IH.
Qed.

Lemma settleRequest_set_functions l r st w :
  settleRequest r st (set_functions l w) = set_functions l (settleRequest r st w).
Proof.
  unfold settleRequest. cbn. destruct (promises w !! r) as [[| |]|]; try done.
  apply (foldl_resumeCall_set_functions l r st _
           (set_promises (<[r:=st]> (promises w)) w)).
Qed.

Lemma connect_set_functions l r k w :
  connect r k (set_functions l w) = set_functions l (connect r k w).
Proof.
  unfold connect.
  change (is_aborted k (set_functions l w)) with (is_aborted k w).
  destruct (is_aborted k w); [apply settleRequest_set_functions|done].
Qed.

Lemma tryConnect_set_functions l w :
  tryConnect (set_functions l w)
  = ((tryConnect w).1, set_functions l (tryConnect w).2).
Proof.
  unfold tryConnect.
  change (the_state (set_functions l w)) with (the_state w).
  destruct (the_state w) as [|r k|r k|r k|c k]; cbn [fst snd]; try done.
  - cbn. f_equal.
    apply (set_state_set_functions l _
             (set_promises (promises w ++ [RequestPending])
                (set_controllers (controllers w ++ [false]) w))).
  - by rewrite connect_set_functions, set_state_set_functions.
Qed.

Lemma forwardingCall_set_functions l m a w :
  forwardingCall m a (set_functions l w)
  = ((forwardingCall m a w).1, set_functions l (forwardingCall m a w).2).
Proof.
  unfold forwardingCall. rewrite tryConnect_set_functions.
  destruct (tryConnect w) as [target w1]. cbn [fst snd].
  change (calls (set_functions l w)) with (calls w). f_equal.
  destruct target as [r|c k].
  - cbn [promises set_calls set_functions].
    destruct (promises w1 !! r) as [st|]; [|done].
    apply (resumeCall_set_functions l r st
             (set_calls (calls w1 ++ [{| methodName := m; args := a;
                status := AwaitingConnection (AwaitRequest r) |}]) w1)).
  - apply (forward_set_functions l _ c
             (set_calls (calls w1 ++ [{| methodName := m; args := a;
                status := AwaitingConnection (Immediate c k) |}]) w1)).
Qed.

(** X17: a forwarding function can be kept.  A function read from the proxy
    under a method name stays usable whatever happens afterwards
    (disconnects and reconnects included), and calling it does exactly what
    reading the property again and calling the result does: the same
    promise, the same state, the same messages; only one closure less is
    made. *)
Theorem forwarding_function_is_reusable (a : list Value)
    (es later : list Event) (name : string) (f : nat) (args : list Value) :
  let w0 := run es (refCountedWorker a) in
  (step (Get name) w0).1 = OFunction f →
  let w := run later (step (Get name) w0).2 in
  functions w !! f = Some name
  ∧ (step (Apply f args) w).1 = (step (Invoke name args) w).1
  ∧ (step (Invoke name args) w).2
    = set_functions (functions w ++ [name]) (step (Apply f args) w).2.
Proof.
  intros w0 Hget w.
  pose proof (Inv_run es _ (Inv_init a)) as Hw0. fold w0 in Hw0.
  pose proof (Inv_step (Get name) w0 Hw0) as Hw1.
  pose proof (Inv_run later _ Hw1) as Hw. fold w in Hw.
  assert (Hf1 : functions (step (Get name) w0).2 !! f = Some name
                ∧ _instance (step (Get name) w0).2 ≠ None).
  { revert Hget. cbn. unfold getMethod.
    destruct (_instance w0) as [q|] eqn:Hq; [|done].
    destruct Hw0 as [[Hh _ _ _] _]. unfold handle_ok in Hh. rewrite Hq in Hh.
    destruct Hh as (-> & _). rewrite lookup_empty. cbn. intros [= <-].
    split; [by apply list_lookup_middle|by rewrite Hq]. }
  destruct Hf1 as [Hf1 Hi1].
  assert (Hf : functions w !! f = Some name) by (by apply run_functions).
  assert (Hi : _instance w ≠ None) by (by apply run_instance).
  split; [done|]. clearbody w. clear Hw1 Hf1 Hi1.
  cbn [step]. unfold getMethod. rewrite Hf.
  destruct (_instance w) as [q|] eqn:Hq; [|done].
  destruct Hw as [[Hh _ _ _] _]. unfold handle_ok in Hh. rewrite Hq in Hh.
  destruct Hh as (-> & _). rewrite lookup_empty.
  rewrite forwardingCall_set_functions.
  destruct (forwardingCall name args w) as [i w']. cbn [fst snd]. done.
Qed.

Lemma forwarding_function_is_reusable_witness :
  let w0 := run [GetProxy] (refCountedWorker [VNumber 1]) in
  let later := [Acquire; Invoke "push" [VString "x"];
                WorkerMessage 0 (Success 1 VUndefined); Release; Acquire] in
  let w := run later (step (Get "add") w0).2 in
  (step (Get "add") w0).1 = OFunction 0
  ∧ (step (Apply 0 [VNumber 1; VNumber 2]) w).1 = OPromise 1
  ∧ (step (Invoke "add" [VNumber 1; VNumber 2]) w).1 = OPromise 1.
Proof.
  intros w0 later w.
  assert (H : (step (Get "add") w0).1 = OFunction 0) by (vm_compute; reflexivity).
  destruct (forwarding_function_is_reusable [VNumber 1] [GetProxy] later "add"
              0 [VNumber 1; VNumber 2] H) as (_ & H2 & _).
  assert (Ha : (step (Apply 0 [VNumber 1; VNumber 2]) w).1 = OPromise 1)
    by (vm_compute; reflexivity).
  split; [exact H|]. split; [exact Ha|].
  exact (eq_trans (eq_sym H2) Ha).
Defined.

(** ** What [acquire()] starts *)

Lemma ready_workers w :
  (∀ r k, the_state w ≠ Blocked r k) → workers (ready w) = workers w.
Proof.
  intros H. unfold ready. destruct (the_state w) as [|r k| | |] eqn:Hs; cbn;
    try done.
  - by rewrite set_state_workers.
  - by destruct (H r k).
Qed.

(** X18: [acquire()] is lazy.  [acquire()] calls the worker factory only when
    a call is blocked and the count becomes positive; in every other
    state it makes no worker and builds no connection, and from
    ["disconnected"] at count zero it only moves to ["ready"]: the
    construction then starts with the first call. *)
Theorem acquire_builds_only_when_blocked (a : list Value) (es : list Event) :
  let w := run es (refCountedWorker a) in
  let w' := (step Acquire w).2 in
  (workers w' ≠ workers w →
   ∃ r k, the_state w = Blocked r k ∧ _refCount w = 0%Z
          ∧ workers w' = S (workers w))
  ∧ (the_state w = Disconnected → _refCount w = 0%Z →
     getState w' = "ready" ∧ workers w' = workers w
     ∧ connections w' = connections w).
Proof.
  intros w w'. pose proof (Inv_run es _ (Inv_init a)) as Hw. fold w in Hw.
  split.
  - intros Hne.
    destruct (the_state w) as [|r k|r k|r k|c k] eqn:Hs.
    2:{ exists r, k. split; [done|].
        pose proof Hw as [_ [_ Hcnt]]. rewrite Hs in Hcnt.
        destruct (decide (_refCount w = 0%Z)) as [E|E].
        - split; [done|]. by destruct (acquire_blocked w r k Hw Hs E) as (_ & ? & _).
        - exfalso. apply Hne. subst w'. cbn. unfold acquire, ensureInstance.
          assert (Hi : _instance w ≠ None)
            by (apply the_state_instance; congruence).
          destruct (_instance w) as [p|]; [|done]. cbn.
          by destruct (Z.ltb_spec 0 (_refCount w + 1)) as [?|_]; [lia|]. }
    all: exfalso; apply Hne; subst w'; cbn; unfold acquire.
    all: destruct (ensureInstance_state w) as (_ & _ & Hse).
    all: assert (Hwe : workers (ensureInstance w).2 = workers w)
           by (unfold ensureInstance; by destruct (_instance w)).
    all: destruct (ensureInstance w) as [inst w1]; cbn [fst snd] in *.
    all: destruct (0 <? _)%Z; [|done].
    all: rewrite ready_workers; [done|].
    all: intros r' k'; change (the_state (set_refCount ?n w1)) with (the_state w1).
    all: rewrite Hse, Hs; done.
  - intros Hs Hr.
    destruct (acquire_disconnected w Hw Hs Hr) as (Hs1 & Hwk & Hcn & _).
    split; [|done]. fold w' in Hs1. by rewrite getState_the_state, Hs1.
Qed.

Lemma acquire_builds_only_when_blocked_witness :
  let w := run [Acquire; Invoke "add" []; WorkerMessage 0 (Success 1 VUndefined);
                Release]
             (refCountedWorker [VNumber 1]) in
  the_state w = Disconnected
  ∧ _refCount w = 0%Z
  ∧ getState (step Acquire w).2 = "ready"
  ∧ workers (step Acquire w).2 = 1.
Proof.
  intros w.
  assert (Hs : the_state w = Disconnected) by (vm_compute; reflexivity).
  assert (Hr : _refCount w = 0%Z) by (vm_compute; reflexivity).
  destruct (proj2 (acquire_builds_only_when_blocked [VNumber 1] _) Hs Hr)
    as (H1 & H2 & _).
  split; [exact Hs|]. split; [exact Hr|]. split; [exact H1|exact H2].
Defined.

(** ** Faults of the worker, errors of one call, errors of the construction *)

Lemma settle_method_other i j o w :
  i ≠ j → call_status i (settle w (MethodAwait j, o)) = call_status i w.
Proof.
  intros Hne. unfold settle. cbn. destruct (calls w !! j) as [m|]; [|done].
  destruct (status m); try done. unfold call_status. cbn.
  by rewrite list_lookup_insert_ne.
Qed.

Lemma settle_method_awaiting i j o tg w :
  call_status i w = Some (AwaitingConnection tg) →
  call_status i (settle w (MethodAwait j, o)) = Some (AwaitingConnection tg).
Proof.
  intros Hi. destruct (decide (i = j)) as [->|Hne].
  - unfold settle. cbn. unfold call_status in Hi.
    destruct (calls w !! j) as [m|] eqn:Hm; [|done]. cbn in Hi.
    injection Hi as Hi. rewrite Hi. unfold call_status. by rewrite Hm; cbn; rewrite Hi.
  - by rewrite settle_method_other.
Qed.

Lemma settle_method_frame j o w :
  tasks (settle w (MethodAwait j, o)) = tasks w
  ∧ promises (settle w (MethodAwait j, o)) = promises w
  ∧ connections (settle w (MethodAwait j, o)) = connections w
  ∧ the_state (settle w (MethodAwait j, o)) = the_state w.
Proof.
  unfold settle. cbn. destruct (calls w !! j) as [m|]; [|done].
  by destruct (status m).
Qed.

(** The rejection of the ["constructor"] call among the rejections of a
    fault. *)
Lemma foldl_settle_construction_rejects i t task e (l : list WorkerRequest) w :
  tasks w !! t = Some task →
  promises w !! task_request task = Some RequestPending →
  call_status i w
  = Some (AwaitingConnection (AwaitRequest (task_request task))) →
  ConnectAwait t ∈ l →
  (∀ t', ConnectAwait t' ∈ l → t' = t) →
  call_status i (foldl settle w (map (λ r, (r, Rejected e)) l))
  = Some (Settled (Rejected e)).
Proof.
  revert w. induction l as [|r l IH]; intros w Ht Hp Hi Hin Hall; simpl.
  - by apply elem_of_nil in Hin.
  - destruct r as [t'|j].
    + assert (t' = t) as -> by (apply Hall; left).
      apply (foldl_settle_rejects i 0 0). right.
      unfold settle. cbn. unfold connectResumed. rewrite Ht.
      apply settleRequest_rejects.
      * by rewrite setTaskStatus_promises.
      * unfold call_status. by rewrite setTaskStatus_calls.
    + destruct (settle_method_frame j (Rejected e) w) as (E1 & E2 & _).
      apply IH.
      * by rewrite E1.
      * by rewrite E2.
      * by apply settle_method_awaiting.
      * apply elem_of_cons in Hin as [?|?]; [done|done].
      * intros t' H. apply Hall. by right.
Qed.

(** C5, as the code has it.  A fault of the worker rejects every pending
    entry of that connection with the fault and clears its table: every
    forwarding call pending there ends rejected with the fault, and when the
    ["constructor"] call is pending there, every call that waits for that
    construction ends rejected with the fault.  An error envelope for the id
    of a forwarded method call rejects that call only: every other entry
    stays in the table, the other connections and the state are left alone,
    and every other call, sent, settled or still waiting for a connection,
    keeps its status.  An error envelope for the id of the ["constructor"]
    call (id 1) is a failed construction: every call that waits for that
    construction ends rejected with the error of the envelope, and only
    those; every other call keeps its status. *)
Theorem fault_rejects_all_error_rejects_one (a : list Value)
    (es : list Event) (conn : nat) (c : WorkerConnection)
    (fault err : Value) :
  let w := run es (refCountedWorker a) in
  connections w !! conn = Some c →
  attached c = true →
  (* the fault *)
  (onError c fault).2 = map (λ kv, (kv.2, Rejected fault)) (requests c)
  ∧ requests (onError c fault).1 = []
  ∧ (∀ id i, (id, MethodAwait i) ∈ requests c →
       call_status i (run [WorkerError conn fault] w)
       = Some (Settled (Rejected fault)))
  ∧ (∀ id t, (id, ConnectAwait t) ∈ requests c →
       ∃ task, tasks w !! conn = Some task
         ∧ ∀ i, call_status i w
                = Some (AwaitingConnection (AwaitRequest (task_request task))) →
                call_status i (run [WorkerError conn fault] w)
                = Some (Settled (Rejected fault)))
  ∧ requests <$> connections (run [WorkerError conn fault] w) !! conn = Some []
  (* the error envelope of a forwarded method call *)
  ∧ (∀ id i, map_get id (requests c) = Some (MethodAwait i) →
       let w' := run [WorkerMessage conn (Error id err)] w in
       (onMessage c (Error id err)).1.2 = [(MethodAwait i, Rejected err)]
       ∧ (∀ id', id' ≠ id →
            map_get id' (requests (onMessage c (Error id err)).1.1)
            = map_get id' (requests c))
       ∧ call_status i w' = Some (Settled (Rejected err))
       ∧ (∀ i', i' ≠ i → call_status i' w' = call_status i' w)
       ∧ (∀ conn', conn' ≠ conn →
            connections w' !! conn' = connections w !! conn')
       ∧ (∃ c', connections w' !! conn = Some c'
                ∧ map_get id (requests c') = None
                ∧ ∀ id', id' ≠ id →
                    map_get id' (requests c') = map_get id' (requests c))
       ∧ the_state w' = the_state w
       ∧ promises w' = promises w)
  (* the error envelope of the "constructor" call *)
  ∧ (∀ id t, map_get id (requests c) = Some (ConnectAwait t) →
       let w' := run [WorkerMessage conn (Error id err)] w in
       id = 1 ∧ t = conn
       ∧ ∃ task, tasks w !! conn = Some task
           ∧ (∀ i, call_status i w
                   = Some (AwaitingConnection
                             (AwaitRequest (task_request task))) →
                   call_status i w' = Some (Settled (Rejected err)))
           ∧ (∀ i s, call_status i w = Some s →
                   s ≠ AwaitingConnection (AwaitRequest (task_request task)) →
                   call_status i w' = Some s)).
Proof.
  intros w Hc Hatt.
  pose proof (Inv_run es _ (Inv_init a)) as Hw. fold w in Hw.
  pose proof Hw as [HC _].
  pose proof (run_await es _ (Inv_init a) (await_init a)) as [Haw _].
  fold w in Haw.
  pose proof (core_connections _ HC) as (_ & Hcs).
  destruct (Hcs _ _ Hc) as (_ & _ & He).
  assert (Hconstr : ∀ id t, (id, ConnectAwait t) ∈ requests c →
            id = 1 ∧ t = conn ∧ ∃ task, tasks w !! conn = Some task).
  { intros id t Hin. destruct (He _ _ Hin) as (-> & -> & task & Ht & _). eauto. }
  split; [|split; [|split; [|split; [|split; [|split]]]]].
  - unfold onError. cbn. by rewrite map_map.
  - done.
  - intros id i Hin. cbn. unfold workerError. rewrite Hc, Hatt. unfold onError.
    apply (foldl_settle_rejects i conn id). left. split.
    + apply (He _ _ Hin).
    + apply list_elem_of_fmap. by exists (id, MethodAwait i).
  - intros id t Hin. destruct (Hconstr _ _ Hin) as (-> & -> & task & Ht).
    exists task. split; [done|]. intros i Hi.
    destruct (Haw _ _ Hi) as (r0 & [= <-] & Hp).
    cbn. unfold workerError. rewrite Hc, Hatt. unfold onError.
    apply (foldl_settle_construction_rejects i conn task); try done.
    + apply list_elem_of_fmap. by exists (1, ConnectAwait conn).
    + intros t' [[id' r'] [E Hin']]%list_elem_of_fmap. cbn in E. subst r'.
      by destruct (Hconstr _ _ Hin') as (_ & -> & _).
  - cbn. unfold workerError. rewrite Hc, Hatt. unfold onError.
    match goal with |- context [foldl settle ?w0 ?l] =>
      assert (Hq : connections (foldl settle w0 l) = connections w0)
    end.
    { generalize (map snd (requests c)). intros l.
      match goal with |- connections (foldl settle ?w0 _) = _ =>
        generalize w0 end.
      induction l as [|r l IH]; intros w0; simpl; [done|].
      rewrite IH. apply settle_quiet. }
    rewrite Hq. cbn.
    rewrite list_lookup_insert_eq by (by eapply lookup_lt_Some). done.
  - intros id i Hget w'.
    assert (Hw' : w' = settle
              (set_warnings (warnings w ++ [])
                 (set_connections
                    (<[conn := {| worker := worker c;
                                  requests := map_delete id (requests c);
                                  nextCallId := nextCallId c;
                                  attached := attached c;
                                  posted := posted c |}]> (connections w)) w))
              (MethodAwait i, Rejected err)).
    { subst w'. cbn [run foldl step snd]. unfold workerMessage.
      rewrite Hc. cbv beta iota. unfold onMessage. cbn [msg_id].
      by rewrite Hget, Hatt. }
    match type of Hw' with _ = settle ?W _ => set (W0 := W) in * end.
    destruct (settle_method_frame i (Rejected err) W0) as (_ & Ep & Ec & Es).
    rewrite <- Hw' in Ep, Ec, Es.
    split; [unfold onMessage; cbn; by rewrite Hget|].
    split.
    { intros id' Hne. unfold onMessage. cbn. rewrite Hget. cbn.
      by apply map_get_delete_ne. }
    split.
    { rewrite Hw'. apply (settle_in_flight i conn id).
      apply (He _ _ (map_get_elem_of _ _ _ Hget)). }
    split; [intros i' Hne; rewrite Hw'; by rewrite settle_method_other|].
    split.
    { intros conn' Hne. rewrite Ec. subst W0. cbn.
      by rewrite list_lookup_insert_ne. }
    split; [|done].
    eexists. split.
    { rewrite Ec. subst W0. cbn.
      by rewrite list_lookup_insert_eq by (by eapply lookup_lt_Some). }
    cbn. split; [apply map_get_delete_eq|].
    intros id' Hne. by apply map_get_delete_ne.
  - intros id t Hget w'.
    destruct (Hconstr _ _ (map_get_elem_of _ _ _ Hget)) as (-> & -> & task & Ht).
    split; [done|]. split; [done|]. exists task. split; [done|].
    destruct (constructor_answered w conn c (Error 1 err) Hc Hatt Hget eq_refl)
      as [_ Heq].
    assert (Hw' : w' = workerMessage conn (Error 1 err) w) by done.
    split.
    + intros i Hi. destruct (Haw _ _ Hi) as (r0 & [= <-] & Hp).
      rewrite Hw', (Heq err eq_refl). unfold connectResumed.
      cbn [tasks set_warnings set_connections]. rewrite Ht.
      apply settleRequest_rejects.
      * by rewrite setTaskStatus_promises.
      * unfold call_status. by rewrite setTaskStatus_calls.
    + intros i s Hi Hne.
      assert (Hs : (∃ tg, s = AwaitingConnection tg)
                   ∨ ∀ tg, s ≠ AwaitingConnection tg).
      { destruct s; [left; eauto|right; done|right; done]. }
      destruct Hs as [[tg ->]|Hna].
      * destruct (Haw _ _ Hi) as (r0 & -> & Hp).
        rewrite Hw', (Heq err eq_refl). unfold connectResumed.
        cbn [tasks set_warnings set_connections]. rewrite Ht.
        apply settleRequest_awaiting_other; [congruence|].
        unfold call_status. by rewrite setTaskStatus_calls.
      * rewrite Hw'. apply workerMessage_kept; [|done|].
        -- intros c0. rewrite Hc. intros [= <-] _. cbn. rewrite Hget. congruence.
        -- done.
Qed.

Lemma fault_rejects_all_error_rejects_one_witness :
  let es1 := [GetProxy; Invoke "add" [VNumber 1; VNumber 2]; Release;
              Acquire; Acquire;
              Invoke "slowAdd" [VNumber 3; VNumber 4];
              Invoke "add" [VNumber 5; VNumber 6];
              WorkerMessage 0 (Success 1 VUndefined)] in
  let w1 := run es1 (refCountedWorker [VNumber 1]) in
  let c1 := {| worker := 0; requests := [(2, MethodAwait 1); (3, MethodAwait 2)];
               nextCallId := 4; attached := true;
               posted := [Call 1 "constructor" [VNumber 1];
                          Call 2 "slowAdd" [VNumber 3; VNumber 4];
                          Call 3 "add" [VNumber 5; VNumber 6]] |} in
  let es2 := [Acquire; Invoke "add" [VNumber 1; VNumber 2];
              Invoke "slowAdd" [VNumber 3; VNumber 4]] in
  let w2 := run es2 (refCountedWorker [VString "bad"]) in
  let c2 := {| worker := 0; requests := [(1, ConnectAwait 0)];
               nextCallId := 2; attached := true;
               posted := [Call 1 "constructor" [VString "bad"]] |} in
  let overflow := Error 2 (VString "overflow") in
  let refused := Error 1 (VError "bad options") in
  connections w1 !! 0 = Some c1
  ∧ call_status 1 (run [WorkerError 0 (VError "crash")] w1)
    = Some (Settled (Rejected (VError "crash")))
  ∧ call_status 2 (run [WorkerError 0 (VError "crash")] w1)
    = Some (Settled (Rejected (VError "crash")))
  ∧ call_status 1 (run [WorkerMessage 0 overflow] w1)
    = Some (Settled (Rejected (VString "overflow")))
  ∧ call_status 2 (run [WorkerMessage 0 overflow] w1) = Some (InFlight 0 3)
  ∧ call_status 0 (run [WorkerMessage 0 overflow] w1)
    = Some (AwaitingConnection (AwaitRequest 0))
  ∧ connections w2 !! 0 = Some c2
  ∧ call_status 0 (run [WorkerMessage 0 refused] w2)
    = Some (Settled (Rejected (VError "bad options")))
  ∧ call_status 1 (run [WorkerMessage 0 refused] w2)
    = Some (Settled (Rejected (VError "bad options")))
  ∧ call_status 1 (run [WorkerError 0 (VError "crash")] w2)
    = Some (Settled (Rejected (VError "crash"))).
Proof.
  intros es1 w1 c1 es2 w2 c2 overflow refused.
  assert (Hc1 : connections w1 !! 0 = Some c1) by (vm_compute; reflexivity).
  assert (Hc2 : connections w2 !! 0 = Some c2) by (vm_compute; reflexivity).
  assert (H0 : call_status 0 w1 = Some (AwaitingConnection (AwaitRequest 0)))
    by (vm_compute; reflexivity).
  assert (H2 : call_status 2 w1 = Some (InFlight 0 3))
    by (vm_compute; reflexivity).
  assert (Ht2 : tasks w2 !! 0
    = Some {| task_request := 0; task_controller := 0; rawConnection := 0;
              task_status := TaskPending |}) by (vm_compute; reflexivity).
  assert (Hw0 : call_status 0 w2 = Some (AwaitingConnection (AwaitRequest 0)))
    by (vm_compute; reflexivity).
  assert (Hw1 : call_status 1 w2 = Some (AwaitingConnection (AwaitRequest 0)))
    by (vm_compute; reflexivity).
  destruct (fault_rejects_all_error_rejects_one [VNumber 1] es1 0 c1
              (VError "crash") (VString "overflow") Hc1 eq_refl)
    as (_ & _ & Hall & _ & _ & Hone & _).
  destruct (Hone 2 1 eq_refl) as (_ & _ & Hrej & Hothers & _).
  destruct (fault_rejects_all_error_rejects_one [VString "bad"] es2 0 c2
              (VError "crash") (VError "bad options") Hc2 eq_refl)
    as (_ & _ & _ & Hfault & _ & _ & Hctor).
  destruct (Hfault 1 0 ltac:(left)) as (task & Htask & Hfrej).
  destruct (Hctor 1 0 eq_refl) as (_ & _ & task' & Htask' & Hcrej & _).
  assert (Et : task = {| task_request := 0; task_controller := 0;
                         rawConnection := 0; task_status := TaskPending |})
    by (injection (eq_trans (eq_sym Htask) Ht2) as E; exact E).
  assert (Et' : task' = {| task_request := 0; task_controller := 0;
                           rawConnection := 0; task_status := TaskPending |})
    by (injection (eq_trans (eq_sym Htask') Ht2) as E; exact E).
  subst task task'.
  split; [exact Hc1|].
  split; [apply (Hall 2 1); left|].
  split; [apply (Hall 3 2); right; left|].
  split; [exact Hrej|].
  split; [exact (eq_trans (Hothers 2 ltac:(discriminate)) H2)|].
  split; [exact (eq_trans (Hothers 0 ltac:(discriminate)) H0)|].
  split; [exact Hc2|].
  split; [exact (Hcrej 0 Hw0)|].
  split; [exact (Hcrej 1 Hw1)|].
  exact (Hfrej 1 Hw1).
Defined.

(** C5, as stated, fails for the error envelope of the ["constructor"] call:
    two forwarding calls wait for the construction, the worker answers the
    ["constructor"] call (id 1) with one error envelope, and both calls end
    rejected with its error. *)
Lemma constructor_error_rejects_every_waiting_call :
  let w := run [Acquire; Invoke "add" [VNumber 1; VNumber 2];
                Invoke "slowAdd" [VNumber 3; VNumber 4]]
             (refCountedWorker [VString "bad"]) in
  let w' := run [WorkerMessage 0 (Error 1 (VError "bad options"))] w in
  requests <$> connections w !! 0 = Some [(1, ConnectAwait 0)]
  ∧ call_status 0 w = Some (AwaitingConnection (AwaitRequest 0))
  ∧ call_status 1 w = Some (AwaitingConnection (AwaitRequest 0))
  ∧ call_status 0 w' = Some (Settled (Rejected (VError "bad options")))
  ∧ call_status 1 w' = Some (Settled (Rejected (VError "bad options"))).
Proof. vm_compute. done. Qed.

(** ** Calls made before [acquire()], and what [acquire()] does for them *)

(** A call made in the state ["disconnected"] or ["blocked"] leaves the
    state ["blocked"] and waits for the request of that state. *)
Lemma invoke_uncommitted w m args :
  Inv w → _instance w ≠ None →
  getState w = "disconnected" ∨ getState w = "blocked" →
  ∃ r k,
    the_state (step (Invoke m args) w).2 = Blocked r k
    ∧ call_status (length (calls w)) (step (Invoke m args) w).2
      = Some (AwaitingConnection (AwaitRequest r)).
Proof.
  intros [[Hh Hs _ _] _] Hi Hst. rewrite getState_the_state in Hst.
  unfold state_ok in Hs. unfold handle_ok, the_state in *.
  destruct w as [wa [[st me px ca]|] rc pr ct cn tk cl fn wk pxs wn];
    cbn in *; [|done].
  destruct Hh as (-> & _).
  unfold getMethod. cbn. rewrite lookup_empty. cbn.
  unfold forwardingCall, tryConnect, the_state. cbn.
  destruct st as [|r k|r k|r k|c k]; cbn in Hst; try by destruct Hst.
  - cbn. rewrite lookup_app_r, Nat.sub_diag by lia. cbn.
    rewrite resumeCall_pending. eexists _, _. split; [done|].
    unfold call_status. cbn. by rewrite lookup_app_r, Nat.sub_diag by lia.
  - destruct Hs as (Hp & _). cbn. rewrite Hp.
    rewrite resumeCall_pending. exists r, k. split; [done|].
    unfold call_status. cbn. by rewrite lookup_app_r, Nat.sub_diag by lia.
Qed.

(** Below zero, [acquire()] only counts. *)
Lemma acquire_below_zero w :
  Inv w → (_refCount w < 0)%Z →
  (step Acquire w).2 = set_refCount (_refCount w + 1) w.
Proof.
  intros [_ [Hn _]] Hlt. cbn. unfold acquire, ensureInstance.
  destruct (_instance w) as [p|] eqn:Hp; [|specialize (Hn eq_refl); lia].
  cbn. by destruct (Z.ltb_spec 0 (_refCount w + 1)) as [?|_]; [lia|].
Qed.

(** C3, as the code has it.  A history without [acquire()] never calls the
    worker factory.  A method call made through the proxy in the state
    ["disconnected"] or ["blocked"] does not call it either: it leaves the
    state ["blocked"] and waits for the request of that state.  When
    [acquire()] is called at reference count zero in the state ["blocked"],
    construction starts at once (state ["connecting"], one more worker, the
    ["constructor"] call sent on a new connection); the success envelope of
    that call connects; a call that waited for the request of that
    ["blocked"] state is then sent, and the success envelope of that call
    fulfils it; a call that waits for another request (one abandoned by an
    earlier [release()]) stays waiting.  When [acquire()] is called at a
    reference count below zero, it changes the count only: no worker is
    made, the state and the calls stay as they are. *)
Theorem call_waits_for_acquire (a : list Value) (es : list Event)
    (i r k : nat) (m : string) (args : list Value) (v result : Value) :
  let w := run es (refCountedWorker a) in
  (Acquire ∉ es → workers w = 0)
  ∧ (getState w = "disconnected" ∨ getState w = "blocked" →
     workers (step (Invoke m args) w).2 = workers w
     ∧ (_instance w ≠ None →
        ∃ r1 k1,
          the_state (step (Invoke m args) w).2 = Blocked r1 k1
          ∧ call_status (length (calls w)) (step (Invoke m args) w).2
            = Some (AwaitingConnection (AwaitRequest r1))))
  ∧ (the_state w = Blocked r k → _refCount w = 0%Z →
     let c := length (connections w) in
     let w1 := (step Acquire w).2 in
     let w2 := (step (WorkerMessage c (Success 1 v)) w1).2 in
     getState w1 = "connecting"
     ∧ workers w1 = S (workers w)
     ∧ connections w1
       = connections w ++
         [{| worker := workers w;
             requests := [(1, ConnectAwait (length (tasks w)))];
             nextCallId := 2; attached := true;
             posted := [Call 1 "constructor" a] |}]
     ∧ getState w2 = "connected"
     ∧ (call_status i w = Some (AwaitingConnection (AwaitRequest r)) →
        ∃ id,
          call_status i w2 = Some (InFlight c id)
          ∧ call_status i (step (WorkerMessage c (Success id result)) w2).2
            = Some (Settled (Fulfilled result)))
     ∧ (∀ j r', r' ≠ r →
          call_status j w = Some (AwaitingConnection (AwaitRequest r')) →
          call_status j w1 = Some (AwaitingConnection (AwaitRequest r'))
          ∧ call_status j w2 = Some (AwaitingConnection (AwaitRequest r'))))
  ∧ ((_refCount w < 0)%Z →
     let w1 := (step Acquire w).2 in
     w1 = set_refCount (_refCount w + 1) w
     ∧ workers w1 = workers w
     ∧ connections w1 = connections w
     ∧ getState w1 = getState w
     ∧ calls w1 = calls w).
Proof.
  intros w.
  pose proof (Inv_run es _ (Inv_init a)) as Hw. fold w in Hw.
  pose proof (run_workerArguments a es) as Ha. fold w in Ha.
  split; [|split; [|split]].
  - intros Hno.
    by destruct (no_acquire_builds_nothing es _ (Inv_init a) ltac:(done) Hno).
  - intros Hst. split; [|intros Hi; by apply invoke_uncommitted].
    pose proof Hw as [_ [_ Hcnt]].
    destruct (step_cases (Invoke m args) w Hw)
      as [([? _] & _)|(r' & k' & Hs & _)]; [done|].
    rewrite getState_the_state in Hst.
    destruct Hs as [Hs|[_ ?]]; [|done]. rewrite Hs in Hst. cbn in Hst.
    by destruct Hst.
  - intros Hst Hr c w1 w2.
    destruct (acquire_blocked w r k Hw Hst Hr)
      as (Hs1 & Hw1 & Hc1 & Hcalls1 & Hp1 & Hk1 & Ht1).
    fold w1 in Hs1, Hw1, Hc1, Hcalls1, Hp1, Hk1, Ht1.
    pose proof (Inv_step Acquire w Hw) as Hinv1. fold w1 in Hinv1.
    pose proof Hw as [[_ Hso (Hlen & _) (Hwk & _)] _].
    unfold state_ok in Hso. rewrite Hst in Hso.
    destruct Hso as (Hpend & Hctrl & _).
    assert (Hi1 : _instance w1 ≠ None).
    { apply the_state_instance. by rewrite Hs1. }
    assert (Hargs1 : _workerArguments w1 = a).
    { rewrite <- Ha. apply (ev_args _ _ (step_evolves Acquire w)). }
    assert (Hconn1 : connections w1 !! c
      = Some {| worker := c; requests := [(1, ConnectAwait (length (tasks w)))];
                nextCallId := 2; attached := true;
                posted := [Call 1 "constructor" (_workerArguments w1)] |}).
    { rewrite Hc1, Hargs1. unfold first_connection, c. rewrite Ha, Hwk.
      by rewrite lookup_app_r, Nat.sub_diag by lia. }
    assert (Htask1 : tasks w1 !! length (tasks w)
      = Some {| task_request := r; task_controller := k;
                rawConnection := c; task_status := TaskPending |}).
    { rewrite Ht1. by rewrite lookup_app_r, Nat.sub_diag by lia. }
    assert (Hstate2 : the_state w2 = Connected c k).
    { rewrite Hlen in Htask1. fold c in Htask1.
      rewrite Hlen in Hconn1. fold c in Hconn1.
      subst w2. cbn [step snd].
      rewrite (construction_answered_success w1 r k c _ _ v Hinv1 Hs1 Hconn1
                 eq_refl eq_refl Htask1 eq_refl) by (by rewrite Hp1).
      match goal with |- the_state (foldl _ ?W _) = _ =>
        transitivity (the_state W) end.
      { generalize (seq 0 (length (calls w1))).
        match goal with |- ∀ l, the_state (foldl _ ?W l) = _ =>
          generalize W end.
        intros W l. revert W. induction l as [|j l IH]; intros W; simpl; [done|].
        rewrite IH. apply the_state_reacts, resumeCall_reacts. }
      change (the_state (set_promises ?l ?W)) with (the_state W).
      apply the_state_set_state. unfold setTaskStatus.
      by destruct (tasks _ !! c). }
    split; [by rewrite getState_the_state, Hs1|]. split; [done|].
    split; [rewrite Hc1; unfold first_connection; by rewrite Ha|].
    split; [by rewrite getState_the_state, Hstate2|].
    split.
    + intros Hcall.
      destruct (constructed_sends w1 r k c (length (tasks w)) i v)
        as [Hs2 Hsent]; try done.
      { by rewrite Hk1. }
      { by rewrite Hp1. }
      { unfold call_status in *. by rewrite Hcalls1. }
      destruct Hsent as (id & conn & Hstat & Hconn & Hatt & Hget & _).
      exists id. split; [done|]. cbn [step snd].
      apply success_fulfils; [done|]. by exists conn.
    + intros j r' Hne Hj.
      assert (Hj1 : call_status j w1
                    = Some (AwaitingConnection (AwaitRequest r')))
        by (unfold call_status in *; by rewrite Hcalls1).
      split; [done|].
      rewrite Hlen in Htask1. fold c in Htask1.
      rewrite Hlen in Hconn1. fold c in Hconn1.
      subst w2. cbn [step snd].
      rewrite (construction_answered_success w1 r k c _ _ v Hinv1 Hs1 Hconn1
                 eq_refl eq_refl Htask1 eq_refl) by (by rewrite Hp1).
      apply foldl_resumeCall_awaiting_other; [done|].
      unfold call_status. unfold set_promises. cbn [calls].
      rewrite set_state_calls, setTaskStatus_calls. exact Hj1.
  - intros Hlt w1.
    pose proof (acquire_below_zero w Hw Hlt) as E. fold w1 in E.
    split; [done|]. rewrite E. split; [done|]. split; [done|].
    split; [|done]. unfold getState. done.
Qed.

Lemma call_waits_for_acquire_witness :
  let a := [VNumber 1] in
  let es := [GetProxy; Invoke "add" [VNumber 111; VNumber 222]] in
  let w := run es (refCountedWorker a) in
  let below := run [GetProxy; Release; Invoke "add" []] (refCountedWorker a) in
  ((Acquire ∉ es) ∧ workers w = 0)
  ∧ (the_state w = Blocked 0 0 ∧ _refCount w = 0%Z
     ∧ call_status 0 w = Some (AwaitingConnection (AwaitRequest 0)))
  ∧ getState (step Acquire w).2 = "connecting"
  ∧ (∃ id,
      call_status 0
        (step (WorkerMessage 0 (Success id (VNumber 333)))
           (step (WorkerMessage 0 (Success 1 VUndefined))
              (step Acquire w).2).2).2
      = Some (Settled (Fulfilled (VNumber 333))))
  ∧ (_refCount below < 0)%Z
  ∧ workers (step Acquire below).2 = 0
  ∧ getState (step Acquire below).2 = "blocked".
Proof.
  intros a es w below.
  assert (Hno : Acquire ∉ es).
  { intros [H|[H|H%elem_of_nil]%elem_of_cons]%elem_of_cons; done. }
  assert (H1 : the_state w = Blocked 0 0) by (vm_compute; reflexivity).
  assert (H2 : _refCount w = 0%Z) by (vm_compute; reflexivity).
  assert (H3 : call_status 0 w = Some (AwaitingConnection (AwaitRequest 0)))
    by (vm_compute; reflexivity).
  assert (H4 : (_refCount below < 0)%Z) by (vm_compute; reflexivity).
  destruct (call_waits_for_acquire a es 0 0 0 "add" [] VUndefined (VNumber 333))
    as (Hnone & _ & Hlive & _).
  destruct (Hlive H1 H2) as (Hconnecting & _ & _ & _ & Hsent & _).
  destruct (Hsent H3) as (id & _ & Hdone).
  destruct (call_waits_for_acquire a [GetProxy; Release; Invoke "add" []]
              0 0 0 "add" [] VUndefined VUndefined) as (_ & _ & _ & Hbelow).
  destruct (Hbelow H4) as (_ & Hw0 & _ & Hst & _).
  split; [split; [exact Hno|exact (Hnone Hno)]|].
  split; [split; [exact H1|split; [exact H2|exact H3]]|].
  split; [exact Hconnecting|]. split; [exists id; exact Hdone|].
  split; [exact H4|]. split; [exact Hw0|exact Hst].
Defined.
